(** * picobot: skill registry, tool dispatch and cron store

    A shallow embedding of [picobot/tools.py] and [picobot/skills.py], and
    of the text extraction of [picobot/cli.py].

    Python [str] values are modelled by [string]; every character stands for
    the Unicode code point of the same number, so the model covers the
    texts whose code points are below 256 (ASCII and Latin-1).  The
    character tables below ([Char.isspace], [Char.isword], [Char.lower]) are
    those of CPython for that range.

    Embedded from [tools.py]: the path helpers, [read_file], [write_file],
    [edit_file], [list_dir], the deny patterns and [exec_command],
    [message] and the cron store with [cron].  Embedded from [skills.py]:
    [SkillInfo], [SkillRegistry] with [list_skills], [read_skill],
    [build_summary] and the scan behind them, [get_registry], the tools
    [list_skills] and [read_skill] of the module, and [_xml_escape].
    Embedded from [cli.py]: [_extract_text] and the loop of [_cmd_message]
    that keeps the final text.  Not embedded: [web_search] and [web_fetch]
    (network, URL parsing and regular-expression substitution), the
    argument parser of [main], and the agent definition. *)

From Stdlib Require Import Ascii String ZArith Lia Bool Sorted.
From stdpp Require Import base option list gmap strings pretty sorting.

Set Warnings "-abstract-large-number".

(** ** Characters *)

Module Char.

Definition code (c : ascii) : N := N_of_ascii c.

(** [str.isspace] on one character; also the class [\s] of [re]. *)
Definition isspace (c : ascii) : bool :=
  let n := code c in
  ((9 <=? n) && (n <=? 13) || (28 <=? n) && (n <=? 32)
   || (n =? 133) || (n =? 160))%N.

(** The class [\w] of [re] on [str] patterns: alphanumeric or underscore. *)
Definition isword (c : ascii) : bool :=
  let n := code c in
  ((48 <=? n) && (n <=? 57) || (65 <=? n) && (n <=? 90)
   || (97 <=? n) && (n <=? 122) || (n =? 95)
   || (n =? 170) || (n =? 178) || (n =? 179) || (n =? 181)
   || (n =? 185) || (n =? 186) || (188 <=? n) && (n <=? 190)
   || (192 <=? n) && (n <=? 214) || (216 <=? n) && (n <=? 246)
   || (248 <=? n))%N.

Definition isupper (c : ascii) : bool :=
  let n := code c in
  ((65 <=? n) && (n <=? 90) || (192 <=? n) && (n <=? 214)
   || (216 <=? n) && (n <=? 222))%N.

(** [str.lower] on one character. *)
Definition lower (c : ascii) : ascii :=
  if isupper c then ascii_of_N (code c + 32) else c.

Definition NL : ascii := "010"%char.
Definition CR : ascii := "013"%char.
Definition DQ : ascii := "034"%char.
Definition SQ : ascii := "039"%char.
Definition BSL : ascii := "092"%char.

End Char.

(** ** Python string operations *)

Module Str.

Definition empty : string := EmptyString.

Definition is_empty (s : string) : bool :=
  match s with EmptyString => true | _ => false end.

Definition of_char (c : ascii) : string := String c EmptyString.

Definition NL : string := of_char Char.NL.
Definition DQ : string := of_char Char.DQ.

(** [len(s)] *)
Definition len (s : string) : nat := String.length s.

Fixpoint map (f : ascii -> ascii) (s : string) : string :=
  match s with
  | EmptyString => EmptyString
  | String c s' => String (f c) (map f s')
  end.

(** [s.lower()] *)
Definition lower (s : string) : string := map Char.lower s.

(** [s.startswith(p)] *)
Fixpoint startswith (s p : string) {struct p} : bool :=
  match p, s with
  | EmptyString, _ => true
  | String a p', String b s' => Ascii.eqb a b && startswith s' p'
  | String _ _, EmptyString => false
  end.

Fixpoint lstrip_with (f : ascii -> bool) (s : string) : string :=
  match s with
  | EmptyString => EmptyString
  | String c s' => if f c then lstrip_with f s' else s
  end.

Fixpoint rstrip_with (f : ascii -> bool) (s : string) : string :=
  match s with
  | EmptyString => EmptyString
  | String c s' =>
      let r := rstrip_with f s' in
      if f c && is_empty r then EmptyString else String c r
  end.

(** [s.strip()] and [s.strip(chars)] *)
Definition strip_with (f : ascii -> bool) (s : string) : string :=
  rstrip_with f (lstrip_with f s).

Definition strip (s : string) : string := strip_with Char.isspace s.

(** [s.count(old)]: non-overlapping occurrences, scanning left to right.
    [skip] is the number of characters still covered by the last match. *)
Fixpoint count_go (old : string) (skip : nat) (s : string) : nat :=
  match s with
  | EmptyString => 0
  | String _ s' =>
      match skip with
      | S k => count_go old k s'
      | O =>
          if startswith s old
          then S (count_go old (len old - 1) s')
          else count_go old 0 s'
      end
  end.

Definition count (s old : string) : nat :=
  if is_empty old then S (len s) else count_go old 0 s.

(** [s.replace(old, new, limit)]; [limit = None] replaces every occurrence. *)
Definition spent (limit : option nat) : bool :=
  match limit with Some O => true | _ => false end.

Definition dec_limit (limit : option nat) : option nat :=
  Nat.pred <$> limit.

Fixpoint replace_go (old new : string) (limit : option nat) (skip : nat)
    (s : string) : string :=
  match s with
  | EmptyString => EmptyString
  | String c s' =>
      match skip with
      | S k => replace_go old new limit k s'
      | O =>
          if negb (spent limit) && startswith s old
          then new +:+ replace_go old new (dec_limit limit) (len old - 1) s'
          else String c (replace_go old new limit 0 s')
      end
  end.

(** Replacing the empty string inserts [new] before every character and at
    the end. *)
Fixpoint interleave (new : string) (limit : option nat) (s : string) : string :=
  if spent limit then s
  else new +:+ match s with
               | EmptyString => EmptyString
               | String c s' => String c (interleave new (dec_limit limit) s')
               end.

Definition replace (s old new : string) (limit : option nat) : string :=
  if is_empty old then interleave new limit s else replace_go old new limit 0 s.

(** [s[:n]] *)
Fixpoint take (n : nat) (s : string) : string :=
  match n, s with
  | S k, String c s' => String c (take k s')
  | _, _ => EmptyString
  end.

(** [s[n:]] *)
Fixpoint drop (n : nat) (s : string) : string :=
  match n, s with
  | S k, String _ s' => drop k s'
  | _, _ => s
  end.

(** [sep.join(parts)] *)
Fixpoint join (sep : string) (parts : list string) : string :=
  match parts with
  | [] => EmptyString
  | [p] => p
  | p :: rest => p +:+ sep +:+ join sep rest
  end.

(** [s.split(sep, limit)] for a one-character separator. *)
Fixpoint split_go (sep : ascii) (limit : option nat) (cur : string) (s : string)
    : list string :=
  match s with
  | EmptyString => [String.rev cur]
  | String c s' =>
      if negb (spent limit) && Ascii.eqb c sep
      then String.rev cur :: split_go sep (dec_limit limit) EmptyString s'
      else split_go sep limit (String c cur) s'
  end.

Definition split (s : string) (sep : ascii) (limit : option nat) : list string :=
  split_go sep limit EmptyString s.

(** [sub in s] *)
Fixpoint contains (s sub : string) : bool :=
  startswith s sub ||
  match s with
  | EmptyString => false
  | String _ s' => contains s' sub
  end.

End Str.

(** ** Regular expressions

    The fragment of [re] syntax that [_DENY_PATTERNS] uses: literals,
    character classes, the word boundary [\b], sequence, alternation and
    repetition of a character class.  [matches r w s k] holds when [r]
    matches a prefix of [s] whose remainder satisfies the continuation [k];
    [w] records whether the character before [s] is a word character
    (false at the start of the text), which is all [\b] needs to know. *)

Module Re.

Inductive regex : Type :=
| Eps
| Lit (c : ascii)
| Class (p : ascii -> bool)
| WordB
| Seq (r1 r2 : regex)
| Alt (r1 r2 : regex)
| StarClass (p : ascii -> bool).

Definition next_is_word (s : string) : bool :=
  match s with
  | String a _ => Char.isword a
  | EmptyString => false
  end.

Fixpoint star (p : ascii -> bool) (k : bool -> string -> bool)
    (w : bool) (s : string) : bool :=
  k w s ||
  match s with
  | String a s' => p a && star p k (Char.isword a) s'
  | EmptyString => false
  end.

Fixpoint matches (r : regex) (w : bool) (s : string)
    (k : bool -> string -> bool) : bool :=
  match r with
  | Eps => k w s
  | Lit c =>
      match s with
      | String a s' => Ascii.eqb a c && k (Char.isword a) s'
      | EmptyString => false
      end
  | Class p =>
      match s with
      | String a s' => p a && k (Char.isword a) s'
      | EmptyString => false
      end
  | WordB => xorb w (next_is_word s) && k w s
  | Seq r1 r2 => matches r1 w s (fun w' s' => matches r2 w' s' k)
  | Alt r1 r2 => matches r1 w s k || matches r2 w s k
  | StarClass p => star p k w s
  end.

Definition accept : bool -> string -> bool := fun _ _ => true.

(** What the matcher decides, as a relation: [consumes r w s w' s'] when
    [r] matches a prefix of [s] and leaves [s'], with [w] and [w'] telling
    whether the character before the match, and before [s'], is a word
    character. *)
Inductive consumes : regex -> bool -> string -> bool -> string -> Prop :=
| consumes_eps w s : consumes Eps w s w s
| consumes_lit c w s : consumes (Lit c) w (String c s) (Char.isword c) s
| consumes_class p a w s :
    p a = true -> consumes (Class p) w (String a s) (Char.isword a) s
| consumes_wordb w s :
    xorb w (next_is_word s) = true -> consumes WordB w s w s
| consumes_seq r1 r2 w s w1 s1 w2 s2 :
    consumes r1 w s w1 s1 -> consumes r2 w1 s1 w2 s2 ->
    consumes (Seq r1 r2) w s w2 s2
| consumes_alt_l r1 r2 w s w' s' :
    consumes r1 w s w' s' -> consumes (Alt r1 r2) w s w' s'
| consumes_alt_r r1 r2 w s w' s' :
    consumes r2 w s w' s' -> consumes (Alt r1 r2) w s w' s'
| consumes_star_stop p w s : consumes (StarClass p) w s w s
| consumes_star_more p a w s w' s' :
    p a = true -> consumes (StarClass p) (Char.isword a) s w' s' ->
    consumes (StarClass p) w (String a s) w' s'.

(** [r] matches somewhere in [s]. *)
Inductive found (r : regex) : bool -> string -> Prop :=
| found_here w s w' s' : consumes r w s w' s' -> found r w s
| found_later w a s : found r (Char.isword a) s -> found r w (String a s).

(** [re.search]: a match starting at some position of the text. *)
Fixpoint search_from (r : regex) (w : bool) (s : string) : bool :=
  matches r w s accept ||
  match s with
  | String a s' => search_from r (Char.isword a) s'
  | EmptyString => false
  end.

Definition search (r : regex) (s : string) : bool := search_from r false s.

(** Pattern syntax. *)
Fixpoint lit (s : string) : regex :=
  match s with
  | EmptyString => Eps
  | String c EmptyString => Lit c
  | String c s' => Seq (Lit c) (lit s')
  end.

Fixpoint seq (rs : list regex) : regex :=
  match rs with
  | [] => Eps
  | [r] => r
  | r :: rs' => Seq r (seq rs')
  end.

Fixpoint alt (rs : list regex) : regex :=
  match rs with
  | [] => Class (fun _ => false)
  | [r] => r
  | r :: rs' => Alt r (alt rs')
  end.

(** [[abc]] *)
Definition one_of (cs : string) : ascii -> bool :=
  fun c => Str.contains cs (Str.of_char c).

(** [\s], [\s+], [\s*], [.] (any character but a newline), [x{1,2}] *)
Definition space : regex := Class Char.isspace.
Definition spaces1 : regex := Seq (Class Char.isspace) (StarClass Char.isspace).
Definition spaces0 : regex := StarClass Char.isspace.
Definition dot : ascii -> bool := fun c => negb (Ascii.eqb c Char.NL).
Definition rep12 (p : ascii -> bool) : regex := Seq (Class p) (Alt (Class p) Eps).

End Re.

(** ** Exceptions and the effect monad

    A tool call runs against a [World]: the file tree, the process
    environment, and the outside events a call consumes (clock, random
    identifiers, the shell).  An effectful computation returns a value or
    raises, together with the world it leaves behind; what was written
    before an exception stays written. *)

Definition abspath : Type := list string.

(** [str(p)] for an absolute path. *)
Definition str_path (p : abspath) : string :=
  match p with
  | [] => "/"
  | _ => String.concat EmptyString ((fun c => "/" +:+ c) <$> p)
  end.

Inductive exn : Type :=
| FileNotFoundError (p : abspath)
| IsADirectoryError (p : abspath)
| NotADirectoryError (p : abspath)
| FileExistsError (p : abspath)
| RuntimeError (msg : string)
| ValueError (msg : string)
| TypeError (msg : string)
| KeyError (key : string)
| AttributeError (msg : string)
| TimeoutExpired
| OSError (msg : string).

Definition quoted (s : string) : string := "'" +:+ s +:+ "'".

(** [str(exc)] *)
Definition str_exn (e : exn) : string :=
  match e with
  | FileNotFoundError p => "[Errno 2] No such file or directory: " +:+ quoted (str_path p)
  | IsADirectoryError p => "[Errno 21] Is a directory: " +:+ quoted (str_path p)
  | NotADirectoryError p => "[Errno 20] Not a directory: " +:+ quoted (str_path p)
  | FileExistsError p => "[Errno 17] File exists: " +:+ quoted (str_path p)
  | RuntimeError msg | ValueError msg | TypeError msg | AttributeError msg
  | OSError msg => msg
  | KeyError key => quoted key
  | TimeoutExpired => "Command timed out"
  end.

Inductive result (A : Type) : Type :=
| Ok (a : A)
| Raise (e : exn).
Arguments Ok {A} a.
Arguments Raise {A} e.

#[warnings="-register-all"]
Inductive node : Type :=
| File (data : string)
| Dir (entries : list (string * node)).

(** What [subprocess.run] reports. *)
Inductive run_outcome : Type :=
| Completed (stdout stderr : string) (returncode : Z)
| TimedOut
| Failed (e : exn).

Record World : Type := mkWorld {
  fs : node;                        (* the tree under "/" *)
  cwd : abspath;                       (* Path.cwd(), absolute *)
  environ : gmap string string;     (* os.environ *)
  login : string;                   (* the user running the process *)
  passwd : gmap string string;      (* user name to home directory *)
  now : string;                     (* datetime.now().isoformat(timespec="seconds") *)
  uuids : nat -> string;            (* the values of uuid.uuid4().hex, in order *)
  drawn : nat;                      (* how many of them were drawn *)
  shell : string -> abspath -> Z -> node -> run_outcome * node;
  spawned : list (string * abspath);   (* commands handed to the shell so far *)
}.

Definition with_fs (w : World) (t : node) : World :=
  mkWorld t (cwd w) (environ w) (login w) (passwd w) (now w) (uuids w)
    (drawn w) (shell w) (spawned w).

Definition with_drawn (w : World) (n : nat) : World :=
  mkWorld (fs w) (cwd w) (environ w) (login w) (passwd w) (now w) (uuids w)
    n (shell w) (spawned w).

Definition with_spawned (w : World) (log : list (string * abspath)) : World :=
  mkWorld (fs w) (cwd w) (environ w) (login w) (passwd w) (now w) (uuids w)
    (drawn w) (shell w) log.

Definition M (A : Type) : Type := World -> result A * World.

Definition ret {A} (a : A) : M A := fun w => (Ok a, w).

Definition raise {A} (e : exn) : M A := fun w => (Raise e, w).

Definition bind {A B} (m : M A) (f : A -> M B) : M B :=
  fun w =>
    match m w with
    | (Ok a, w') => f a w'
    | (Raise e, w') => (Raise e, w')
    end.

(** [try: body  except Exception as exc: handler(exc)] *)
Definition try_except {A} (body : M A) (handler : exn -> M A) : M A :=
  fun w =>
    match body w with
    | (Ok a, w') => (Ok a, w')
    | (Raise e, w') => handler e w'
    end.

Definition lift {A} (r : result A) : M A :=
  fun w => (r, w).

Definition get {A} (f : World -> A) : M A := fun w => (Ok (f w), w).

Notation "'do' x <- m ; k" := (bind m (fun x => k))
  (at level 10, x name, m at level 100, k at level 200,
   format "'[v' 'do'  x  <-  m ; '/' k ']'").
Notation "'run' m ; k" := (bind m (fun _ => k))
  (at level 10, m at level 100, k at level 200,
   format "'[v' 'run'  m ; '/' k ']'").

(** ** The file tree

    Directories keep their entries in enumeration order.  Symbolic links,
    permissions and device faults are not modelled: an operation fails only
    when the shape of the tree forces it to (a directory where a file is
    needed, a file where a directory is needed, a missing parent).  File
    data is text, as stored: it always decodes as UTF-8. *)

Module FS.

Fixpoint alist_get {A} (k : string) (l : list (string * A)) : option A :=
  match l with
  | [] => None
  | (k', v) :: l' => if String.eqb k k' then Some v else alist_get k l'
  end.

(** Replace the first binding of [k], or add one at the end. *)
Fixpoint alist_put {A} (k : string) (v : A) (l : list (string * A))
    : list (string * A) :=
  match l with
  | [] => [(k, v)]
  | (k', v') :: l' =>
      if String.eqb k k' then (k, v) :: l' else (k', v') :: alist_put k v l'
  end.

Fixpoint node_at (p : abspath) (n : node) : option node :=
  match p with
  | [] => Some n
  | c :: p' =>
      match n with
      | Dir es =>
          match alist_get c es with
          | Some child => node_at p' child
          | None => None
          end
      | File _ => None
      end
  end.

(** [p.parent] *)
Definition parent (p : abspath) : abspath := removelast p.

Definition exists_ (p : abspath) (n : node) : bool :=
  match node_at p n with Some _ => true | None => false end.

Definition is_file (p : abspath) (n : node) : bool :=
  match node_at p n with Some (File _) => true | _ => false end.

Definition is_dir (p : abspath) (n : node) : bool :=
  match node_at p n with Some (Dir _) => true | _ => false end.

(** Some proper ancestor of [p] is a regular file. *)
Fixpoint under_file (p : abspath) (n : node) : bool :=
  match p, n with
  | _ :: _, File _ => true
  | c :: p', Dir es =>
      match alist_get c es with
      | Some child => under_file p' child
      | None => false
      end
  | [], _ => false
  end.

Definition missing (full : abspath) (n : node) : exn :=
  if under_file full n then NotADirectoryError full else FileNotFoundError full.

(** Put [new] at [p]; the parent of [p] is expected to be a directory,
    otherwise the tree is returned as it is. *)
Fixpoint set_at (p : abspath) (new : node) (n : node) : node :=
  match p with
  | [] => new
  | c :: p' =>
      match n with
      | Dir es =>
          match alist_get c es, p' with
          | Some child, _ => Dir (alist_put c (set_at p' new child) es)
          | None, [] => Dir (alist_put c new es)
          | None, _ :: _ => n
          end
      | File _ => n
      end
  end.

(** Text mode with [newline=None]: on reading, every line ending (CR LF, or
    a lone CR) becomes a newline; on writing, a newline is written as
    [os.linesep], the newline itself on POSIX. *)
Fixpoint universal_newlines (s : string) : string :=
  match s with
  | EmptyString => EmptyString
  | String c s' =>
      if Ascii.eqb c Char.CR then
        match s' with
        | String c' s'' =>
            if Ascii.eqb c' Char.NL
            then String Char.NL (universal_newlines s'')
            else String Char.NL (universal_newlines s')
        | EmptyString => String Char.NL EmptyString
        end
      else String c (universal_newlines s')
  end.

Definition to_linesep (s : string) : string := s.

(** [p.read_text(encoding="utf-8")] *)
Definition read_text (p : abspath) (n : node) : result string :=
  match node_at p n with
  | Some (File data) => Ok (universal_newlines data)
  | Some (Dir _) => Raise (IsADirectoryError p)
  | None => Raise (missing p n)
  end.

(** Opening [p] for writing and storing [data]: [keep] says what becomes
    of the old content. *)
Definition store (keep : string -> string) (p : abspath) (data : string)
    (n : node) : result node :=
  match node_at p n with
  | Some (Dir _) => Raise (IsADirectoryError p)
  | Some (File old) => Ok (set_at p (File (keep old +:+ to_linesep data)) n)
  | None =>
      match node_at (parent p) n with
      | Some (Dir _) => Ok (set_at p (File (to_linesep data)) n)
      | _ => Raise (missing p n)
      end
  end.

(** [p.write_text(data, encoding="utf-8")] *)
Definition write_text : abspath -> string -> node -> result node :=
  store (fun _ => EmptyString).

(** [with p.open("a", encoding="utf-8") as f: f.write(data)] *)
Definition append_text : abspath -> string -> node -> result node :=
  store (fun old => old).

(** [p.mkdir(parents=True, exist_ok=True)]: [full] is the whole path, kept
    for the error report. *)
Fixpoint mkdir_go (full p : abspath) (n : node) : result node :=
  match n with
  | File _ =>
      match p with
      | [] => Raise (FileExistsError full)
      | _ :: _ => Raise (NotADirectoryError full)
      end
  | Dir es =>
      match p with
      | [] => Ok n
      | c :: p' =>
          match mkdir_go full p' (default (Dir []) (alist_get c es)) with
          | Ok child => Ok (Dir (alist_put c child es))
          | Raise e => Raise e
          end
      end
  end.

Definition mkdir (p : abspath) (n : node) : result node := mkdir_go p p n.

(** [p.iterdir()]: the names, in enumeration order. *)
Definition iterdir (p : abspath) (n : node) : result (list string) :=
  match node_at p n with
  | Some (Dir es) => Ok (fst <$> es)
  | Some (File _) => Raise (NotADirectoryError p)
  | None => Raise (missing p n)
  end.

End FS.

(** The same operations as effects on the world. *)
Definition exists_ (p : abspath) : M bool := get (fun w => FS.exists_ p (fs w)).
Definition is_file (p : abspath) : M bool := get (fun w => FS.is_file p (fs w)).
Definition is_dir (p : abspath) : M bool := get (fun w => FS.is_dir p (fs w)).

Definition read_text (p : abspath) : M string :=
  fun w => (FS.read_text p (fs w), w).

Definition update_fs (f : node -> result node) : M unit :=
  fun w =>
    match f (fs w) with
    | Ok t => (Ok tt, with_fs w t)
    | Raise e => (Raise e, w)
    end.

Definition write_text (p : abspath) (data : string) : M unit :=
  update_fs (FS.write_text p data).
Definition append_text (p : abspath) (data : string) : M unit :=
  update_fs (FS.append_text p data).
Definition mkdir (p : abspath) : M unit := update_fs (FS.mkdir p).
Definition iterdir (p : abspath) : M (list string) :=
  fun w => (FS.iterdir p (fs w), w).

(** ** Paths ([pathlib], POSIX flavour) *)

Module PathLib.

Record PurePath : Type := mkPath { rooted : bool; parts : list string }.

(** [Path(s)]: empty components and [.] are dropped, [..] is kept. *)
Definition Path (s : string) : PurePath :=
  mkPath (Str.startswith s "/")
    (List.filter (fun c => negb (Str.is_empty c) && negb (String.eqb c "."))
       (Str.split s "/" None)).

Definition is_absolute (p : PurePath) : bool := rooted p.

(** [base / p] *)
Definition joinpath (base p : PurePath) : PurePath :=
  if rooted p then p else mkPath (rooted base) (parts base ++ parts p).

Definition absolute (p : abspath) : PurePath := mkPath true p.

(** [os.path.expanduser] on the component [~] or [~user]. *)
Definition home_of (w : World) (head : string) : string :=
  let user := match head with String _ u => u | EmptyString => EmptyString end in
  let found :=
    if Str.is_empty user then
      match environ w !! "HOME" with
      | Some h => Some h
      | None => passwd w !! login w
      end
    else passwd w !! user in
  match found with
  | Some h =>
      let h' := Str.rstrip_with (Ascii.eqb "/") h in
      if Str.is_empty h' then "/" else h'
  | None => head
  end.

(** [p.expanduser()] *)
Definition expanduser (p : PurePath) : M PurePath :=
  match rooted p, parts p with
  | false, head :: tail =>
      if Str.startswith head "~" then
        do homedir <- get (fun w => home_of w head);
        if Str.startswith homedir "~"
        then raise (RuntimeError "Could not determine home directory.")
        else
          let h := Path homedir in
          ret (mkPath (rooted h) (parts h ++ tail))
      else ret p
  | _, _ => ret p
  end.

Fixpoint normalize (seen : list string) (todo : list string) : abspath :=
  match todo with
  | [] => rev seen
  | c :: rest =>
      if String.eqb c ".." then normalize (tail seen) rest
      else normalize (c :: seen) rest
  end.

(** [p.resolve()]: made absolute against the working directory, [..]
    folded away. *)
Definition resolve (p : PurePath) : M abspath :=
  do here <- get cwd;
  ret (normalize [] ((if rooted p then [] else here) ++ parts p)).

End PathLib.

(** ** Floating-point numbers ([float], IEEE 754 binary64)

    A finite float is [m * 2 ^ e] with its sign kept apart, in the one form
    rounding gives: [2 ^ 52 <= m < 2 ^ 53] and [-1074 <= e <= 971], or a
    smaller [m] with [e = -1074], or [m = 0] and [e = 0] for zero. *)

Module PyFloat.

Inductive float : Type :=
| Nan
| Inf (negative : bool)
| Finite (negative : bool) (m e : Z).

(** [p / q] divided by [2 ^ e], as a fraction. *)
Definition scaled (p q e : Z) : Z * Z :=
  if (0 <=? e)%Z then (p, q * 2 ^ e)%Z else (p * 2 ^ (- e), q)%Z.

(** The float nearest to [p / q], for [0 <= p] and [0 < q]; a tie goes to
    the even significand, and what lies beyond the largest float is
    infinite. *)
Definition of_ratio (negative : bool) (p q : Z) : float :=
  if (p =? 0)%Z then Finite negative 0 0
  else
    let k := (Z.log2 p - Z.log2 q)%Z in
    let e0 := Z.max (k - 52) (-1074) in
    let '(p0, q0) := scaled p q e0 in
    let e := if ((-1074 <? e0) && (p0 / q0 <? 2 ^ 52))%Z then (e0 - 1)%Z else e0 in
    let '(p1, q1) := scaled p q e in
    let t := (p1 / q1)%Z in
    let r := (p1 mod q1)%Z in
    let m := if ((q1 <? 2 * r) || ((q1 =? 2 * r) && Z.odd t))%Z
             then (t + 1)%Z else t in
    let '(m, e) := if (m =? 2 ^ 53)%Z then ((2 ^ 52)%Z, (e + 1)%Z) else (m, e) in
    if (971 <? e)%Z then Inf negative
    else if (m =? 0)%Z then Finite negative 0 0
    else Finite negative m e.

(** [float(text)] for a text with the digits [d] and the power of ten [x]. *)
Definition of_decimal (negative : bool) (d x : Z) : float :=
  if (0 <=? x)%Z then of_ratio negative (d * 10 ^ x) 1
  else of_ratio negative d (10 ^ (- x)).

Fixpoint log10_up (fuel : nat) (p q j : Z) : Z :=
  match fuel with
  | O => j
  | S fuel' =>
      if (q * 10 <=? p)%Z then log10_up fuel' p (q * 10)%Z (j + 1)%Z else j
  end.

Fixpoint log10_down (fuel : nat) (p q j : Z) : Z :=
  match fuel with
  | O => j
  | S fuel' =>
      if (p <? q)%Z then log10_down fuel' (p * 10)%Z q (j - 1)%Z else j
  end.

(** The largest [j] with [10 ^ j <= p / q], for a fraction in the range of
    the floats. *)
Definition log10 (p q : Z) : Z :=
  if (q <=? p)%Z then log10_up 400 p q 0 else log10_down 400 p q 0.

(** The decimal [c * 10 ^ k] reads as the float [m * 2 ^ e]. *)
Definition reads_as (m e c k : Z) : bool :=
  match of_decimal false c k with
  | Finite _ m' e' => ((m' =? m) && (e' =? e))%Z
  | _ => false
  end.

(** Among the decimals of [n] digits, the one nearest to [m * 2 ^ e] that
    reads as it, if there is one; of two equally near, the even one. *)
Definition candidate (m e n : Z) : option (Z * Z) :=
  let '(p, q) := scaled m 1 (- e) in
  let k := (log10 p q - n + 1)%Z in
  let p' := if (k <? 0)%Z then (p * 10 ^ (- k))%Z else p in
  let q' := if (k <? 0)%Z then q else (q * 10 ^ k)%Z in
  let lo := (p' / q')%Z in
  let r := (p' mod q')%Z in
  let hi := (lo + 1)%Z in
  match reads_as m e lo k, reads_as m e hi k with
  | true, true =>
      if (2 * r <? q')%Z then Some (lo, k)
      else if (q' <? 2 * r)%Z then Some (hi, k)
      else Some (if Z.even lo then lo else hi, k)
  | true, false => Some (lo, k)
  | false, true => Some (hi, k)
  | false, false => None
  end.

(** The shortest decimal that reads as [m * 2 ^ e], looked for from [n]
    digits on; seventeen digits are always enough. *)
Fixpoint shortest (fuel : nat) (m e n : Z) : Z * Z :=
  match fuel with
  | O => (m, 0%Z)
  | S fuel' =>
      match candidate m e n with
      | Some found => found
      | None => shortest fuel' m e (n + 1)%Z
      end
  end.

Fixpoint strip_zeros (fuel : nat) (c k : Z) : Z * Z :=
  match fuel with
  | O => (c, k)
  | S fuel' =>
      if ((c mod 10 =? 0) && negb (c =? 0))%Z
      then strip_zeros fuel' (c / 10)%Z (k + 1)%Z
      else (c, k)
  end.

Fixpoint zeros (n : nat) : string :=
  match n with
  | O => EmptyString
  | S k => String "0" (zeros k)
  end.

(** The digits [ds] with the decimal point after the first [decpt] of
    them: positional notation, or, below [1e-4] and from [1e16] on, one
    digit before the point and an exponent of two digits at least. *)
Definition repr_digits (ds : string) (decpt : Z) : string :=
  let n := Z.of_nat (Str.len ds) in
  if ((decpt <=? -4) || (16 <? decpt))%Z then
    let x := (decpt - 1)%Z in
    Str.take 1 ds
    +:+ (if (1 <? n)%Z then "." +:+ Str.drop 1 ds else EmptyString)
    +:+ "e" +:+ (if (x <? 0)%Z then "-" else "+")
    +:+ (if (Z.abs x <? 10)%Z then "0" else EmptyString) +:+ pretty (Z.abs x)
  else if (decpt <=? 0)%Z then "0." +:+ zeros (Z.to_nat (- decpt)) +:+ ds
  else if (n <=? decpt)%Z then ds +:+ zeros (Z.to_nat (decpt - n)) +:+ ".0"
  else Str.take (Z.to_nat decpt) ds +:+ "." +:+ Str.drop (Z.to_nat decpt) ds.

Definition repr_finite (m e : Z) : string :=
  if (m =? 0)%Z then "0.0"
  else
    let '(c, k) := shortest 17 m e 1 in
    let '(c, k) := strip_zeros 400 c k in
    let ds := pretty c in
    repr_digits ds (k + Z.of_nat (Str.len ds)).

Definition sign (negative : bool) : string :=
  if negative then "-" else EmptyString.

(** [repr(x)], which is also [str(x)] *)
Definition repr (x : float) : string :=
  match x with
  | Nan => "nan"
  | Inf negative => sign negative +:+ "inf"
  | Finite negative m e => sign negative +:+ repr_finite m e
  end.

(** [bool(x)] *)
Definition truthy (x : float) : bool :=
  match x with
  | Finite _ m _ => negb (m =? 0)%Z
  | _ => true
  end.

End PyFloat.

(** ** JSON values, [json.dumps] and [json.loads] *)

Module Json.

#[warnings="-register-all"]
Inductive json : Type :=
| JNull
| JBool (b : bool)
| JInt (z : Z)
| JFloat (x : PyFloat.float)
| JStr (s : string)
| JArr (items : list json)
| JObj (members : list (string * json)).

Definition hex_digit (n : N) : ascii :=
  ascii_of_N (if (n <? 10)%N then 48 + n else 87 + n).

(** [ESCAPE_DCT] of the encoder, with [ensure_ascii=False]. *)
Definition escape_char (c : ascii) : string :=
  let n := Char.code c in
  let esc (x : string) := String Char.BSL x in
  if (n =? 34)%N then esc Str.DQ
  else if (n =? 92)%N then esc (Str.of_char Char.BSL)
  else if (n =? 8)%N then esc "b"
  else if (n =? 12)%N then esc "f"
  else if (n =? 10)%N then esc "n"
  else if (n =? 13)%N then esc "r"
  else if (n =? 9)%N then esc "t"
  else if (n <? 32)%N then
    esc "u00" +:+ String (hex_digit (n / 16)) (String (hex_digit (n mod 16)) EmptyString)
  else Str.of_char c.

Fixpoint escape (s : string) : string :=
  match s with
  | EmptyString => EmptyString
  | String c s' => escape_char c +:+ escape s'
  end.

Definition encode_str (s : string) : string := Str.DQ +:+ escape s +:+ Str.DQ.

Fixpoint spaces (n : nat) : string :=
  match n with
  | O => EmptyString
  | S k => String " " (spaces k)
  end.

(** A container's opening, item separator and closing at nesting [level]. *)
Definition newline_indent (indent : option nat) (level : nat) : string :=
  match indent with
  | Some k => Str.NL +:+ spaces (k * level)
  | None => EmptyString
  end.

Definition item_sep (indent : option nat) (level : nat) : string :=
  match indent with
  | Some _ => "," +:+ newline_indent indent level
  | None => ", "
  end.

Definition wrap (indent : option nat) (level : nat) (opening closing : string)
    (items : list string) : string :=
  match items with
  | [] => opening +:+ closing
  | _ =>
      opening +:+ newline_indent indent (S level)
      +:+ Str.join (item_sep indent (S level)) items
      +:+ newline_indent indent level +:+ closing
  end.

(** [floatstr] of the encoder, with [allow_nan=True]. *)
Definition floatstr (x : PyFloat.float) : string :=
  match x with
  | PyFloat.Nan => "NaN"
  | PyFloat.Inf false => "Infinity"
  | PyFloat.Inf true => "-Infinity"
  | PyFloat.Finite _ _ _ => PyFloat.repr x
  end.

Fixpoint dumps_go (indent : option nat) (level : nat) (v : json) : string :=
  match v with
  | JNull => "null"
  | JBool true => "true"
  | JBool false => "false"
  | JInt z => pretty z
  | JFloat x => floatstr x
  | JStr s => encode_str s
  | JArr items =>
      wrap indent level "[" "]" (List.map (dumps_go indent (S level)) items)
  | JObj members =>
      wrap indent level "{" "}"
        (List.map (fun kv => encode_str (fst kv) +:+ ": "
                             +:+ dumps_go indent (S level) (snd kv)) members)
  end.

(** [json.dumps(v, ensure_ascii=False, indent=indent)] *)
Definition dumps (v : json) (indent : option nat) : string := dumps_go indent 0 v.

(** *** The decoder

    Strings are the strings of the model: a text with an escape for a code
    point above 255 is outside it, [wide_escape] tells, and [loads] gives
    [None] there as it does for a text that is not JSON. *)

Definition is_ws (c : ascii) : bool :=
  let n := Char.code c in ((n =? 32) || (n =? 9) || (n =? 10) || (n =? 13))%N.

Definition skip_ws (s : string) : string := Str.lstrip_with is_ws s.

Definition digit_val (c : ascii) : option Z :=
  let n := Char.code c in
  if ((48 <=? n) && (n <=? 57))%N then Some (Z.of_N n - 48)%Z else None.

Definition hex_val (c : ascii) : option N :=
  let n := Char.code c in
  if ((48 <=? n) && (n <=? 57))%N then Some (n - 48)%N
  else if ((97 <=? n) && (n <=? 102))%N then Some (n - 87)%N
  else if ((65 <=? n) && (n <=? 70))%N then Some (n - 55)%N
  else None.

(** The digits at the front of [s], read on from [acc], how many they are
    counted on from [n], and what follows them. *)
Fixpoint digits (acc : Z) (n : nat) (s : string) : Z * nat * string :=
  match s with
  | String c s' =>
      match digit_val c with
      | Some d => digits (10 * acc + d) (S n) s'
      | None => (acc, n, s)
      end
  | EmptyString => (acc, n, s)
  end.

Definition starts_with_digit (s : string) : bool :=
  match s with
  | String c _ => match digit_val c with Some _ => true | None => false end
  | EmptyString => false
  end.

(** [sys.get_int_max_str_digits()]: [int(text)] raises [ValueError] for a
    text of more digits. *)
Definition int_max_str_digits : nat := 4300.

(** A number: an optional minus sign, then zero or a digit string without
    a leading zero; then a fraction, if a digit follows the point, and an
    exponent, if a digit follows the [e] and its sign.  With a fraction or
    an exponent the number is a float, without them an integer. *)
Definition number (s : string) : option (json * string) :=
  let '(negative, body) :=
    match s with
    | String "-" s' => (true, s')
    | _ => (false, s)
    end in
  match body with
  | String c rest =>
      match digit_val c with
      | Some d =>
          let '(whole, whole_len, rest1) :=
            if (d =? 0)%Z then (0%Z, 1, rest) else digits d 1 rest in
          let '(mantissa, frac_len, rest2) :=
            match rest1 with
            | String "." after =>
                if starts_with_digit after then digits whole 0 after
                else (whole, 0, rest1)
            | _ => (whole, 0, rest1)
            end in
          let '(exponent, rest3) :=
            match rest2 with
            | String x after =>
                if Ascii.eqb x "e" || Ascii.eqb x "E" then
                  let '(minus, after') :=
                    match after with
                    | String "-" a => (true, a)
                    | String "+" a => (false, a)
                    | _ => (false, after)
                    end in
                  if starts_with_digit after' then
                    let '(x10, _, rest') := digits 0 0 after' in
                    (Some (if minus then (- x10)%Z else x10), rest')
                  else (None, rest2)
                else (None, rest2)
            | EmptyString => (None, rest2)
            end in
          match frac_len, exponent with
          | O, None =>
              if (int_max_str_digits <? whole_len)%nat then None
              else Some (JInt (if negative then (- whole)%Z else whole), rest3)
          | _, _ =>
              Some (JFloat (PyFloat.of_decimal negative mantissa
                              (default 0%Z exponent - Z.of_nat frac_len)),
                    rest3)
          end
      | None => None
      end
  | EmptyString => None
  end.

(** The character written [\uabcd], when its code point is below 256. *)
Definition unicode_escape (a b c d : ascii) : option ascii :=
  match hex_val a, hex_val b, hex_val c, hex_val d with
  | Some 0%N, Some 0%N, Some h, Some l => Some (ascii_of_N (16 * h + l))
  | _, _, _, _ => None
  end.

(** The body of a string literal, after its opening quote. *)
Fixpoint str_body (acc : string) (s : string) : option (string * string) :=
  match s with
  | EmptyString => None
  | String c s' =>
      if Ascii.eqb c Char.DQ then Some (String.rev acc, s')
      else if Ascii.eqb c Char.BSL then
        match s' with
        | String e s'' =>
            let simple (x : ascii) := str_body (String x acc) s'' in
            if Ascii.eqb e Char.DQ then simple Char.DQ
            else if Ascii.eqb e Char.BSL then simple Char.BSL
            else if Ascii.eqb e "/" then simple "/"%char
            else if Ascii.eqb e "b" then simple "008"%char
            else if Ascii.eqb e "f" then simple "012"%char
            else if Ascii.eqb e "n" then simple "010"%char
            else if Ascii.eqb e "r" then simple "013"%char
            else if Ascii.eqb e "t" then simple "009"%char
            else if Ascii.eqb e "u" then
              match s'' with
              | String a (String b (String c' (String d rest))) =>
                  match unicode_escape a b c' d with
                  | Some x => str_body (String x acc) rest
                  | None => None
                  end
              | _ => None
              end
            else None
        | EmptyString => None
        end
      else if (Char.code c <? 32)%N then None
      else str_body (String c acc) s'
  end.

(** [dict(pairs)]: a repeated key keeps its first place and its last value. *)
Definition dict_of (pairs : list (string * json)) : list (string * json) :=
  fold_left (fun d kv => FS.alist_put (fst kv) (snd kv) d) pairs [].

Fixpoint value (fuel : nat) (s : string) : option (json * string) :=
  match fuel with
  | O => None
  | S fuel' =>
      match s with
      | String "[" rest =>
          match skip_ws rest with
          | String "]" rest' => Some (JArr [], rest')
          | rest' => elements fuel' [] rest'
          end
      | String "{" rest =>
          match skip_ws rest with
          | String "}" rest' => Some (JObj [], rest')
          | rest' => members fuel' [] rest'
          end
      | String "n" _ =>
          if Str.startswith s "null" then Some (JNull, Str.drop 4 s) else None
      | String "t" _ =>
          if Str.startswith s "true" then Some (JBool true, Str.drop 4 s) else None
      | String "f" _ =>
          if Str.startswith s "false" then Some (JBool false, Str.drop 5 s) else None
      | String "N" _ =>
          if Str.startswith s "NaN"
          then Some (JFloat PyFloat.Nan, Str.drop 3 s) else None
      | String "I" _ =>
          if Str.startswith s "Infinity"
          then Some (JFloat (PyFloat.Inf false), Str.drop 8 s) else None
      | String c rest =>
          if Ascii.eqb c Char.DQ then
            match str_body EmptyString rest with
            | Some (t, rest') => Some (JStr t, rest')
            | None => None
            end
          else if Str.startswith s "-Infinity"
          then Some (JFloat (PyFloat.Inf true), Str.drop 9 s)
          else number s
      | EmptyString => None
      end
  end
with elements (fuel : nat) (acc : list json) (s : string)
    : option (json * string) :=
  match fuel with
  | O => None
  | S fuel' =>
      match value fuel' s with
      | Some (v, rest) =>
          match skip_ws rest with
          | String "]" rest' => Some (JArr (rev (v :: acc)), rest')
          | String "," rest' => elements fuel' (v :: acc) (skip_ws rest')
          | _ => None
          end
      | None => None
      end
  end
with members (fuel : nat) (acc : list (string * json)) (s : string)
    : option (json * string) :=
  match fuel with
  | O => None
  | S fuel' =>
      match s with
      | String q rest =>
          if Ascii.eqb q Char.DQ then
            match str_body EmptyString rest with
            | Some (key, rest1) =>
                match skip_ws rest1 with
                | String ":" rest2 =>
                    match value fuel' (skip_ws rest2) with
                    | Some (v, rest3) =>
                        match skip_ws rest3 with
                        | String "}" rest4 =>
                            Some (JObj (dict_of (rev ((key, v) :: acc))), rest4)
                        | String "," rest4 =>
                            members fuel' ((key, v) :: acc) (skip_ws rest4)
                        | _ => None
                        end
                    | None => None
                    end
                | _ => None
                end
            | None => None
            end
          else None
      | EmptyString => None
      end
  end.

(** [json.loads(text)]; [None] stands for the exception raised, a
    [JSONDecodeError] or the [ValueError] of an integer too long. *)
Definition loads (text : string) : option json :=
  let s := skip_ws text in
  match value (2 * Str.len s + 2) s with
  | Some (v, rest) => if Str.is_empty (skip_ws rest) then Some v else None
  | None => None
  end.

(** The text has an escape [\uabcd] whose first two digits are not both
    zero: one for a code point above 255, or not an escape of JSON. *)
Fixpoint wide_escape (s : string) : bool :=
  match s with
  | EmptyString => false
  | String c s' =>
      (Ascii.eqb c Char.BSL
       && match s' with
          | String "u" (String a (String b _)) =>
              negb (Ascii.eqb a "0" && Ascii.eqb b "0")
          | _ => false
          end)
      || wide_escape s'
  end.

End Json.

(** ** Python values read from JSON

    What [json.loads] returns is dynamically typed; these are the
    operations the cron tool applies to it, with the exceptions Python
    raises when the value has another shape. *)

Module Dyn.
Import Json.

(** [bool(v)] *)
Definition truthy (v : json) : bool :=
  match v with
  | JNull => false
  | JBool b => b
  | JInt z => negb (z =? 0)%Z
  | JFloat x => PyFloat.truthy x
  | JStr s => negb (Str.is_empty s)
  | JArr items => match items with [] => false | _ => true end
  | JObj members => match members with [] => false | _ => true end
  end.

Definition type_name (v : json) : string :=
  match v with
  | JNull => "NoneType"
  | JBool _ => "bool"
  | JInt _ => "int"
  | JFloat _ => "float"
  | JStr _ => "str"
  | JArr _ => "list"
  | JObj _ => "dict"
  end.

Fixpoint chars (s : string) : list json :=
  match s with
  | EmptyString => []
  | String c s' => JStr (Str.of_char c) :: chars s'
  end.

(** [iter(v)], run to the end *)
Definition iterate (v : json) : result (list json) :=
  match v with
  | JArr items => Ok items
  | JObj members => Ok ((fun kv => JStr (fst kv)) <$> members)
  | JStr s => Ok (chars s)
  | _ => Raise (TypeError (quoted (type_name v) +:+ " object is not iterable"))
  end.

(** [len(v)] *)
Definition len (v : json) : result nat :=
  match v with
  | JArr items => Ok (length items)
  | JObj members => Ok (length members)
  | JStr s => Ok (Str.len s)
  | _ => Raise (TypeError ("object of type " +:+ quoted (type_name v)
                           +:+ " has no len()"))
  end.

(** [v[key]] for a string key *)
Definition getitem (v : json) (key : string) : result json :=
  match v with
  | JObj members =>
      match FS.alist_get key members with
      | Some x => Ok x
      | None => Raise (KeyError key)
      end
  | JArr _ => Raise (TypeError "list indices must be integers or slices, not str")
  | JStr _ => Raise (TypeError "string indices must be integers, not 'str'")
  | _ => Raise (TypeError (quoted (type_name v) +:+ " object is not subscriptable"))
  end.

(** [v != s] for a string [s] *)
Definition ne_str (v : json) (s : string) : bool :=
  match v with
  | JStr t => negb (String.eqb t s)
  | _ => true
  end.

(** [v.append(x)] *)
Definition append (v x : json) : result json :=
  match v with
  | JArr items => Ok (JArr (items ++ [x]))
  | _ => Raise (AttributeError (quoted (type_name v)
                                +:+ " object has no attribute 'append'"))
  end.

(** [repr(s)] of a string *)
Definition printable (c : ascii) : bool :=
  let n := Char.code c in
  ((32 <=? n) && (n <? 127) || (161 <=? n) && negb (n =? 173))%N.

Definition repr_char (q : ascii) (c : ascii) : string :=
  let n := Char.code c in
  if Ascii.eqb c Char.BSL || Ascii.eqb c q then String Char.BSL (Str.of_char c)
  else if (n =? 9)%N then String Char.BSL "t"
  else if (n =? 10)%N then String Char.BSL "n"
  else if (n =? 13)%N then String Char.BSL "r"
  else if printable c then Str.of_char c
  else String Char.BSL
         (String "x" (String (hex_digit (n / 16))
                        (String (hex_digit (n mod 16)) EmptyString))).

Fixpoint repr_body (q : ascii) (s : string) : string :=
  match s with
  | EmptyString => EmptyString
  | String c s' => repr_char q c +:+ repr_body q s'
  end.

Definition repr_str (s : string) : string :=
  let q :=
    if Str.contains s (Str.of_char Char.SQ) && negb (Str.contains s Str.DQ)
    then Char.DQ else Char.SQ in
  String q (repr_body q s) +:+ Str.of_char q.

Fixpoint repr (v : json) : string :=
  match v with
  | JNull => "None"
  | JBool true => "True"
  | JBool false => "False"
  | JInt z => pretty z
  | JFloat x => PyFloat.repr x
  | JStr s => repr_str s
  | JArr items => "[" +:+ Str.join ", " (List.map repr items) +:+ "]"
  | JObj members =>
      "{" +:+ Str.join ", "
                (List.map (fun kv => repr_str (fst kv) +:+ ": " +:+ repr (snd kv))
                   members) +:+ "}"
  end.

(** [str(v)], what an f-string inserts *)
Definition str (v : json) : string :=
  match v with
  | JStr s => s
  | _ => repr v
  end.

End Dyn.

(** ** [picobot/tools.py]

    [_debug] only traces to the standard error stream when
    [PICOBOT_DEBUG] is set; the trace is not part of the model, and
    [_ret tag value] is [value]. *)

Module Tools.
Import PathLib Json.

Definition getenv (name : string) : M (option string) :=
  get (fun w => environ w !! name).

Definition _ret (tag value : string) : M string := ret value.

Definition _workspace : M abspath :=
  do workspace_env <- getenv "PICOBOT_WORKSPACE";
  let from_cwd := (do here <- get cwd; resolve (absolute here)) in
  match workspace_env with
  | Some e =>
      if negb (Str.is_empty e)
      then (do p <- expanduser (Path e); resolve p)
      else from_cwd
  | None => from_cwd
  end.

Definition _resolve_path (path : string) : M abspath :=
  do p <- expanduser (Path path);
  do p <- (if negb (is_absolute p)
           then (do ws <- _workspace; ret (joinpath (absolute ws) p))
           else ret p);
  resolve p.

Definition read_file (path : string) : M string :=
  try_except
    (do target <- _resolve_path path;
     do found <- exists_ target;
     if negb found
     then _ret "tool.read_file.output" ("Error: File not found: " +:+ path)
     else
       do regular <- is_file target;
       if negb regular
       then _ret "tool.read_file.output" ("Error: Not a file: " +:+ path)
       else
         do result <- read_text target;
         ret result)
    (fun exc =>
       _ret "tool.read_file.output" ("Error reading file: " +:+ str_exn exc)).

Definition write_file (path content : string) : M string :=
  try_except
    (do target <- _resolve_path path;
     run mkdir (FS.parent target);
     run write_text target content;
     let result := "Successfully wrote " +:+ pretty (Str.len content)
                   +:+ " bytes to " +:+ str_path target in
     ret result)
    (fun exc =>
       _ret "tool.write_file.output" ("Error writing file: " +:+ str_exn exc)).

Definition edit_file (path old_text new_text : string) : M string :=
  try_except
    (do target <- _resolve_path path;
     do found <- exists_ target;
     if negb found
     then _ret "tool.edit_file.output" ("Error: File not found: " +:+ path)
     else
       do regular <- is_file target;
       if negb regular
       then _ret "tool.edit_file.output" ("Error: Not a file: " +:+ path)
       else
         do content <- read_text target;
         let count := Str.count content old_text in
         if (count =? 0)%nat
         then _ret "tool.edit_file.output"
                "Error: old_text not found in file. Make sure it matches exactly."
         else if (1 <? count)%nat
         then _ret "tool.edit_file.output"
                ("Warning: old_text appears " +:+ pretty count
                 +:+ " times. Please provide more context to make it unique.")
         else
           run write_text target (Str.replace content old_text new_text (Some 1));
           let result := "Successfully edited " +:+ str_path target in
           ret result)
    (fun exc =>
       _ret "tool.edit_file.output" ("Error editing file: " +:+ str_exn exc)).

(** The key of [sorted] in [list_dir], [(not p.is_dir(), p.name.lower())],
    computed once for every child, in enumeration order. *)
Fixpoint child_keys (target : abspath) (children : list string)
    : M (list ((bool * string) * string)) :=
  match children with
  | [] => ret []
  | child_name :: rest =>
      do d <- is_dir (target ++ [child_name]);
      do keys <- child_keys target rest;
      ret (((negb d, Str.lower child_name), child_name) :: keys)
  end.

(** The order of the keys, as Python compares tuples: by the first
    component ([False] before [True]), then by the second. *)
Definition key_leb (a b : bool * string) : bool :=
  if Bool.eqb (fst a) (fst b) then String.leb (snd a) (snd b)
  else negb (fst a).

Fixpoint insert_child (x : (bool * string) * string)
    (l : list ((bool * string) * string)) : list ((bool * string) * string) :=
  match l with
  | [] => [x]
  | y :: l' =>
      if key_leb (fst x) (fst y) then x :: y :: l'
      else y :: insert_child x l'
  end.

(** [sorted(children, key=...)]: stable. *)
Definition sorted_children (l : list ((bool * string) * string))
    : list ((bool * string) * string) :=
  foldr insert_child [] l.

(** The loop of [list_dir]: one entry for every child, tagged by its kind. *)
Fixpoint dir_entries (target : abspath) (children : list string)
    : M (list string) :=
  match children with
  | [] => ret []
  | child_name :: rest =>
      do d <- is_dir (target ++ [child_name]);
      let kind := if d then "[D]" else "[F]" in
      do entries <- dir_entries target rest;
      ret ((kind +:+ " " +:+ child_name) :: entries)
  end.

Definition list_dir (path : string) : M string :=
  try_except
    (do target <- _resolve_path path;
     do found <- exists_ target;
     if negb found
     then _ret "tool.list_dir.output" ("Error: Directory not found: " +:+ path)
     else
       do d <- is_dir target;
       if negb d
       then _ret "tool.list_dir.output" ("Error: Not a directory: " +:+ path)
       else
         do children <- iterdir target;
         do keys <- child_keys target children;
         do entries <- dir_entries target (snd <$> sorted_children keys);
         let result :=
           match entries with
           | [] => "Directory " +:+ str_path target +:+ " is empty"
           | _ => Str.join Str.NL entries
           end in
         ret result)
    (fun exc =>
       _ret "tool.list_dir.output" ("Error listing directory: " +:+ str_exn exc)).

Definition _DENY_PATTERNS : list Re.regex :=
  let b := Re.WordB in
  [ (* \brm\s+-[rf]{1,2}\b *)
    Re.seq [b; Re.lit "rm"; Re.spaces1; Re.Lit "-"; Re.rep12 (Re.one_of "rf"); b];
    (* \bdel\s+/[fq]\b *)
    Re.seq [b; Re.lit "del"; Re.spaces1; Re.Lit "/"; Re.Class (Re.one_of "fq"); b];
    (* \brmdir\s+/s\b *)
    Re.seq [b; Re.lit "rmdir"; Re.spaces1; Re.lit "/s"; b];
    (* \b(format|mkfs|diskpart)\b *)
    Re.seq [b; Re.alt [Re.lit "format"; Re.lit "mkfs"; Re.lit "diskpart"]; b];
    (* \bdd\s+if= *)
    Re.seq [b; Re.lit "dd"; Re.spaces1; Re.lit "if="];
    (* >\s*/dev/sd *)
    Re.seq [Re.Lit ">"; Re.spaces0; Re.lit "/dev/sd"];
    (* \b(shutdown|reboot|poweroff)\b *)
    Re.seq [b; Re.alt [Re.lit "shutdown"; Re.lit "reboot"; Re.lit "poweroff"]; b];
    (* :\(\)\s*\{.*\};\s*: *)
    Re.seq [Re.lit ":()"; Re.spaces0; Re.Lit "{"; Re.StarClass Re.dot;
            Re.lit "};"; Re.spaces0; Re.Lit ":"] ].

(** [subprocess.run(cmd, shell=True, cwd=..., capture_output=True, text=True,
    timeout=...)] hands the command to the shell of the world. *)
Definition subprocess_run (cmd : string) (dir : abspath) (timeout : Z)
    : M run_outcome :=
  fun w =>
    let '(outcome, tree) := shell w cmd dir timeout (fs w) in
    (Ok outcome, with_spawned (with_fs w tree) (spawned w ++ [(cmd, dir)])).

Definition blocked_message : string :=
  "Error: Command blocked by safety guard (dangerous pattern detected)".

(** Lines 150 to 162 of [exec_command]: what a completed run is reported as. *)
Definition render_output (stdout stderr : string) (returncode : Z) : string :=
  let parts :=
    (if negb (Str.is_empty stdout) then [stdout] else [])
    ++ (if negb (Str.is_empty stderr)
        then ["STDERR:" +:+ Str.NL +:+ stderr] else [])
    ++ (if negb (returncode =? 0)%Z
        then ["Exit code: " +:+ pretty returncode] else []) in
  let result := Str.strip (Str.join Str.NL parts) in
  let result := if Str.is_empty result then "(no output)" else result in
  let max_len := 12000%nat in
  if (max_len <? Str.len result)%nat
  then Str.take max_len result +:+ Str.NL +:+ "... (truncated, "
       +:+ pretty (Str.len result - max_len) +:+ " more chars)"
  else result.

(** [_resolve_path(working_dir) if working_dir else _workspace()] *)
Definition run_dir (working_dir : option string) : M abspath :=
  match working_dir with
  | Some d => if negb (Str.is_empty d) then _resolve_path d else _workspace
  | None => _workspace
  end.

(** Some deny pattern is found in the text. *)
Definition denied (lower : string) : bool :=
  existsb (fun pattern => Re.search pattern lower) _DENY_PATTERNS.

Definition exec_command (command : string) (working_dir : option string)
    (timeout : Z) : M string :=
  let cmd := Str.strip command in
  let lower := Str.lower cmd in
  if denied lower
  then _ret "tool.exec.output" blocked_message
  else
    do dir <- run_dir working_dir;
    do completed <- subprocess_run cmd dir timeout;
    match completed with
    | TimedOut =>
        _ret "tool.exec.output"
          ("Error: Command timed out after " +:+ pretty timeout +:+ " seconds")
    | Failed exc =>
        _ret "tool.exec.output" ("Error executing command: " +:+ str_exn exc)
    | Completed stdout stderr returncode =>
        ret (render_output stdout stderr returncode)
    end.

Definition message (content channel chat_id : string) : M string :=
  do ws <- _workspace;
  let outbox := ws ++ ["messages"; "outbox.log"] in
  run mkdir (FS.parent outbox);
  do ts <- get now;
  let line :=
    dumps (JObj [("timestamp", JStr ts); ("channel", JStr channel);
                 ("chat_id", JStr chat_id); ("content", JStr content)]) None in
  run append_text outbox (line +:+ Str.NL);
  let result := "Message recorded to " +:+ str_path outbox in
  ret result.

Definition _cron_store_path : M abspath :=
  do ws <- _workspace;
  ret (ws ++ [".picobot"; "cron_jobs.json"]).

Definition _load_cron_jobs : M json :=
  do path <- _cron_store_path;
  do found <- exists_ path;
  if negb found then ret (JArr [])
  else
    try_except
      (do text <- read_text path;
       match loads text with
       | Some v => ret v
       | None => raise (ValueError "JSONDecodeError")
       end)
      (fun _ => ret (JArr [])).

Definition _save_cron_jobs (jobs : json) : M unit :=
  do path <- _cron_store_path;
  run mkdir (FS.parent path);
  write_text path (dumps jobs (Some 2)).

(** [uuid.uuid4().hex] *)
Definition uuid4_hex : M string :=
  fun w => (Ok (uuids w (drawn w)), with_drawn w (S (drawn w))).

(** [f"- {j['name']} (id: {j['id']}, {j['schedule']})"] for every job *)
Fixpoint job_lines (jobs : list json) : result (list string) :=
  match jobs with
  | [] => Ok []
  | j :: rest =>
      match Dyn.getitem j "name", Dyn.getitem j "id", Dyn.getitem j "schedule" with
      | Raise e, _, _ | Ok _, Raise e, _ | Ok _, Ok _, Raise e => Raise e
      | Ok name, Ok id, Ok schedule =>
          match job_lines rest with
          | Ok lines =>
              Ok (("- " +:+ Dyn.str name +:+ " (id: " +:+ Dyn.str id +:+ ", "
                   +:+ Dyn.str schedule +:+ ")") :: lines)
          | Raise e => Raise e
          end
      end
  end.

(** [[j for j in jobs if j["id"] != job_id]] *)
Fixpoint jobs_without (job_id : string) (jobs : list json) : result (list json) :=
  match jobs with
  | [] => Ok []
  | j :: rest =>
      match Dyn.getitem j "id" with
      | Raise e => Raise e
      | Ok id =>
          match jobs_without job_id rest with
          | Ok kept => Ok (if Dyn.ne_str id job_id then j :: kept else kept)
          | Raise e => Raise e
          end
      end
  end.

Definition missing_schedule : string :=
  "Error: either every_seconds, cron_expr, or at is required".

Definition cron (action message : string) (every_seconds : option Z)
    (cron_expr at_ job_id : option string) : M string :=
  let given (o : option string) :=
    match o with Some s => negb (Str.is_empty s) | None => false end in
  let text (o : option string) := default EmptyString o in
  do jobs <- _load_cron_jobs;
  if String.eqb action "list" then
    if negb (Dyn.truthy jobs)
    then _ret "tool.cron.output" "No scheduled jobs."
    else
      do items <- lift (Dyn.iterate jobs);
      do lines <- lift (job_lines items);
      let result := Str.join Str.NL ("Scheduled jobs:" :: lines) in
      ret result
  else if String.eqb action "remove" then
    if negb (given job_id)
    then _ret "tool.cron.output" "Error: job_id is required for remove"
    else
      do before <- lift (Dyn.len jobs);
      do items <- lift (Dyn.iterate jobs);
      do kept <- lift (jobs_without (text job_id) items);
      if (length kept =? before)%nat
      then _ret "tool.cron.output" ("Job " +:+ text job_id +:+ " not found")
      else
        run _save_cron_jobs (JArr kept);
        let result := "Removed job " +:+ text job_id in
        ret result
  else if String.eqb action "add" then
    if Str.is_empty message
    then _ret "tool.cron.output" "Error: message is required for add"
    else
      let every :=
        match every_seconds with Some n => negb (n =? 0)%Z | None => false end in
      let schedule :=
        if every then Some ("every:" +:+ pretty (default 0%Z every_seconds) +:+ "s")
        else if given cron_expr then Some ("cron:" +:+ text cron_expr)
        else if given at_ then Some ("at:" +:+ text at_)
        else None in
      match schedule with
      | None => _ret "tool.cron.output" missing_schedule
      | Some schedule =>
          do hex <- uuid4_hex;
          do created_at <- get now;
          let id := Str.take 8 hex in
          let name := Str.take 30 message in
          let new_job :=
            JObj [("id", JStr id); ("name", JStr name); ("message", JStr message);
                  ("schedule", JStr schedule); ("created_at", JStr created_at)] in
          do jobs <- lift (Dyn.append jobs new_job);
          run _save_cron_jobs jobs;
          let result := "Created job " +:+ quoted name +:+ " (id: " +:+ id +:+ ")" in
          ret result
      end
  else _ret "tool.cron.output" ("Unknown action: " +:+ action).

End Tools.

(** ** [picobot/skills.py] *)

Module Skills.
Import PathLib.

Record SkillInfo : Type := mkSkillInfo {
  name : string;
  path : abspath;
  source : string;
  description : string;
}.

Record SkillRegistry : Type := mkSkillRegistry {
  workspace : abspath;
  workspace_skills_dir : abspath;
  builtin_skills_dir : abspath;
}.

(** [SkillRegistry.__init__]; [package_dir] is [Path(__file__).parent]. *)
Definition SkillRegistry_init (package_dir : abspath)
    (workspace builtin_skills_dir : option PurePath) : M SkillRegistry :=
  do here <- get cwd;
  let start := default (absolute here) workspace in
  do ws <- resolve start;
  do builtin <- resolve (default (absolute (package_dir ++ ["skills"]))
                           builtin_skills_dir);
  ret (mkSkillRegistry ws (ws ++ ["skills"]) builtin).

(** [get_registry] *)
Definition get_registry (package_dir : abspath) : M SkillRegistry :=
  let from_env (name : string) : M (option PurePath) :=
    do v <- Tools.getenv name;
    match v with
    | Some e =>
        if negb (Str.is_empty e)
        then (do p <- expanduser (Path e); ret (Some p))
        else ret None
    | None => ret None
    end in
  do workspace <- from_env "PICOBOT_WORKSPACE";
  do builtin_skills_dir <- from_env "PICOBOT_BUILTIN_SKILLS_DIR";
  SkillRegistry_init package_dir workspace builtin_skills_dir.

(** The part of [s] before the first occurrence of [sep], if there is one. *)
Fixpoint before_first (sep : string) (s : string) : option string :=
  if Str.startswith s sep then Some EmptyString
  else
    match s with
    | EmptyString => None
    | String c s' =>
        match before_first sep s' with
        | Some t => Some (String c t)
        | None => None
        end
    end.

(** Group 1 of [re.match(r"^---\n(.*?)\n---", content, re.DOTALL)] *)
Definition front_matter (content : string) : option string :=
  let opening := "---" +:+ Str.NL in
  if Str.startswith content opening
  then before_first (Str.NL +:+ "---") (Str.drop (Str.len opening) content)
  else None.

Definition is_quote (c : ascii) : bool :=
  Ascii.eqb c Char.DQ || Ascii.eqb c Char.SQ.

Fixpoint description_of (lines : list string) : result (option string) :=
  match lines with
  | [] => Ok None
  | line :: rest =>
      if negb (Str.startswith (Str.strip line) "description:")
      then description_of rest
      else
        match Str.split line ":" (Some 1) with
        | [_; value] => Ok (Some (Str.strip_with is_quote (Str.strip value)))
        | _ => Raise (ValueError "not enough values to unpack (expected 2, got 1)")
        end
  end.

Definition _extract_description (skill_file : abspath) : M (option string) :=
  do content <- read_text skill_file;
  if negb (Str.startswith content "---") then ret None
  else
    match front_matter content with
    | None => ret None
    | Some block => lift (description_of (Str.split block Char.NL None))
    end.

(** The body of the loop of [_scan], over the names [iterdir] gave. *)
Fixpoint scan_children (skills_dir : abspath) (source : string)
    (children : list string) : M (list SkillInfo) :=
  match children with
  | [] => ret []
  | child_name :: rest =>
      let child := skills_dir ++ [child_name] in
      do d <- is_dir child;
      if negb d then scan_children skills_dir source rest
      else
        let skill_file := child ++ ["SKILL.md"] in
        do f <- is_file skill_file;
        if negb f then scan_children skills_dir source rest
        else
          do description <- _extract_description skill_file;
          do resolved <- resolve (absolute skill_file);
          let described :=
            match description with
            | Some text => if Str.is_empty text then child_name else text
            | None => child_name
            end in
          do result <- scan_children skills_dir source rest;
          ret (mkSkillInfo child_name resolved source described :: result)
  end.

Definition _scan (skills_dir : abspath) (source : string) : M (list SkillInfo) :=
  do found <- exists_ skills_dir;
  do d <- is_dir skills_dir;
  if negb found || negb d then ret []
  else
    do children <- iterdir skills_dir;
    scan_children skills_dir source children.

(** [sorted(items, key=lambda item: item.name.lower())]: stable. *)
Definition sort_key (item : SkillInfo) : string := Str.lower (name item).

Fixpoint insert_sorted (x : SkillInfo) (l : list SkillInfo) : list SkillInfo :=
  match l with
  | [] => [x]
  | y :: l' =>
      if String.leb (sort_key x) (sort_key y) then x :: y :: l'
      else y :: insert_sorted x l'
  end.

Definition sorted (l : list SkillInfo) : list SkillInfo :=
  foldr insert_sorted [] l.

(** The dictionary [discovered], in insertion order. *)
Definition dict_contains {A} (key : string) (d : list (string * A)) : bool :=
  match FS.alist_get key d with Some _ => true | None => false end.

Definition list_skills (self : SkillRegistry) : M (list SkillInfo) :=
  do from_workspace <- _scan (workspace_skills_dir self) "workspace";
  let discovered :=
    fold_left (fun d info => FS.alist_put (name info) info d) from_workspace [] in
  do from_builtin <- _scan (builtin_skills_dir self) "builtin";
  let discovered :=
    fold_left (fun d info =>
                 if negb (dict_contains (name info) d)
                 then FS.alist_put (name info) info d else d)
      from_builtin discovered in
  let items := sorted (snd <$> discovered) in
  ret items.

Fixpoint first_named (key : string) (items : list SkillInfo) : option SkillInfo :=
  match items with
  | [] => None
  | info :: rest =>
      if String.eqb (name info) key then Some info else first_named key rest
  end.

Definition read_skill (self : SkillRegistry) (name : string) : M string :=
  let key := Str.strip name in
  if Str.is_empty key then raise (ValueError "Skill name cannot be empty.")
  else
    do items <- list_skills self;
    match first_named key items with
    | Some info => read_text (path info)
    | None => raise (ValueError ("Skill " +:+ quoted key +:+ " not found."))
    end.

Definition _xml_escape (text : string) : string :=
  Str.replace (Str.replace (Str.replace text "&" "&amp;" None) "<" "&lt;" None)
    ">" "&gt;" None.

Definition skill_block (info : SkillInfo) : list string :=
  [ "  <skill>";
    "    <name>" +:+ _xml_escape (name info) +:+ "</name>";
    "    <description>" +:+ _xml_escape (description info) +:+ "</description>";
    "    <source>" +:+ source info +:+ "</source>";
    "    <location>" +:+ _xml_escape (str_path (path info)) +:+ "</location>";
    "  </skill>" ].

Definition build_summary (self : SkillRegistry) : M string :=
  do items <- list_skills self;
  let lines := ["<skills>"] ++ concat (skill_block <$> items) ++ ["</skills>"] in
  ret (Str.join Str.NL lines).

(** The record of a skill in the payload of the tool [list_skills]. *)
Definition skill_record (info : SkillInfo) : Json.json :=
  Json.JObj [("name", Json.JStr (name info));
             ("description", Json.JStr (description info));
             ("source", Json.JStr (source info));
             ("location", Json.JStr (str_path (path info)))].

(** The functions [list_skills] and [read_skill] of the module, the tools
    handed to the agent: they build the registry and call its methods. *)
Definition list_skills_tool (package_dir : abspath) : M string :=
  do registry <- get_registry package_dir;
  do items <- list_skills registry;
  let payload := skill_record <$> items in
  let output := Json.dumps (Json.JArr payload) (Some 2) in
  ret output.

Definition read_skill_tool (package_dir : abspath) (name : string) : M string :=
  do registry <- get_registry package_dir;
  do content <- read_skill registry name;
  ret content.

End Skills.

(** ** [picobot/cli.py]: the text of an agent event *)

Module Cli.

(** [types.Part] and [types.Content], as far as [_extract_text] reads
    them: a part may have no [text], a content may have no [parts]. *)
Record Part : Type := mkPart { text : option string }.
Record Content : Type := mkContent { parts : option (list Part) }.

(** The loop of [_extract_text]: the texts that are not empty. *)
Fixpoint chunks_of (ps : list Part) : list string :=
  match ps with
  | [] => []
  | part :: rest =>
      match text part with
      | Some t => if negb (Str.is_empty t) then t :: chunks_of rest else chunks_of rest
      | None => chunks_of rest
      end
  end.

Definition _extract_text (content : option Content) : string :=
  match content with
  | None => EmptyString
  | Some c =>
      match parts c with
      | None | Some [] => EmptyString
      | Some ps => Str.strip (Str.join Str.NL (chunks_of ps))
      end
  end.

(** The loop of [_run_once] over the events of a run, each with its
    [content]: the last text that is not empty. *)
Definition final_text (events : list (option Content)) : string :=
  fold_left
    (fun final event =>
       let text := _extract_text event in
       if negb (Str.is_empty text) then text else final)
    events EmptyString.

(** What [_cmd_message] prints for the final text. *)
Definition printed (final_text : string) : string :=
  if Str.is_empty final_text then "(no response)" else final_text.

End Cli.

(** ** Specification-level notions *)

Module SkillSpec.

(** A valid skill bundle: a subdirectory of [dir] that contains a file
    [SKILL.md]. *)
Definition is_bundle (dir : abspath) (nm : string) (t : node) : bool :=
  FS.is_dir (dir ++ [nm]) t && FS.is_file (dir ++ [nm; "SKILL.md"]) t.

End SkillSpec.

Module SummarySpec.
Import Skills.

(** The escaping the summary is specified to apply: the three characters
    [&], [<] and [>] are written as entities, every other character is
    kept. *)
Definition escape_char (c : ascii) : string :=
  if Ascii.eqb c "&" then "&amp;"
  else if Ascii.eqb c "<" then "&lt;"
  else if Ascii.eqb c ">" then "&gt;"
  else Str.of_char c.

Fixpoint escape_chars (s : string) : string :=
  match s with
  | EmptyString => EmptyString
  | String c s' => escape_char c +:+ escape_chars s'
  end.

Definition block (info : SkillInfo) : list string :=
  [ "  <skill>";
    "    <name>" +:+ escape_chars (name info) +:+ "</name>";
    "    <description>" +:+ escape_chars (description info) +:+ "</description>";
    "    <source>" +:+ source info +:+ "</source>";
    "    <location>" +:+ escape_chars (str_path (path info)) +:+ "</location>";
    "  </skill>" ].

End SummarySpec.

Module CronSpec.
Import Json.



(** An argument Python takes for false: absent, zero or empty. *)
Definition falsy_int (o : option Z) : Prop := o = None \/ o = Some 0%Z.
Definition falsy_str (o : option string) : Prop := o = None \/ o = Some EmptyString.

End CronSpec.

Module Utf8.

(** The number of bytes of [s.encode("utf-8")], for code points below 256. *)
Fixpoint encoded_len (s : string) : nat :=
  match s with
  | EmptyString => 0
  | String c s' => (if (Char.code c <? 128)%N then 1 else 2) + encoded_len s'
  end.

End Utf8.

(** ** Sample worlds, used to run the tools on concrete inputs *)

Module Sample.
Import Json Skills.

(** A shell that knows one command. *)
Definition sh (cmd : string) (dir : abspath) (timeout : Z) (tree : node)
    : run_outcome * node :=
  if String.eqb cmd "echo hello"
  then (Completed ("hello" +:+ Str.NL) EmptyString 0, tree)
  else (Completed EmptyString ("sh: 1: " +:+ cmd +:+ ": not found") 127, tree).

Definition world (tree : node) : World :=
  mkWorld tree ["work"] ∅ "dev" ∅ "2026-01-01T09:00:00"
    (fun n => pretty n +:+ "f00dfeedc0ffee00f00dfeedc0ffee0") 0 sh [].

Definition empty_workspace : World := world (Dir [("work", Dir [])]).

Definition manifest : string :=
  "---" +:+ Str.NL +:+ "description: " +:+ Str.DQ +:+ "Q&A <fast>" +:+ Str.DQ
  +:+ Str.NL +:+ "---" +:+ Str.NL +:+ "# Foo" +:+ Str.NL.

Definition skills_world : World :=
  world
    (Dir [("work", Dir [("skills", Dir [("foo", Dir [("SKILL.md", File manifest)])])]);
          ("opt", Dir [("skills", Dir [("foo", Dir [("SKILL.md", File "# builtin")]);
                                       ("Bar", Dir [("SKILL.md", File "# bar")])])])]).

Definition registry : SkillRegistry :=
  mkSkillRegistry ["work"] ["work"; "skills"] ["opt"; "skills"].

Definition job (id name : string) : json :=
  JObj [("id", JStr id); ("name", JStr name); ("message", JStr name);
        ("schedule", JStr "every:30s"); ("created_at", JStr "2026-01-01T09:00:00")].

Definition stored : list json := [job "ab12cd34" "stand-up"; job "0f0f0f0f" "backup"].

Definition cron_world : World :=
  world
    (Dir [("work", Dir [(".picobot",
                         Dir [("cron_jobs.json", File (dumps (JArr stored) (Some 2)))])])]).

End Sample.

(** ** Notions used in the proofs *)

Module Aux.

(** Every character of [s] satisfies [f]. *)
Fixpoint all (f : ascii -> bool) (s : string) : bool :=
  match s with
  | EmptyString => true
  | String c s' => f c && all f s'
  end.

(** The last atom of a sequence, and what comes before it. *)
Fixpoint split_last (r : Re.regex) : Re.regex * Re.regex :=
  match r with
  | Re.Seq a b => let '(b0, l) := split_last b in (Re.Seq a b0, l)
  | _ => (Re.Eps, r)
  end.

(** The first atom of a sequence. *)
Fixpoint first_atom (r : Re.regex) : Re.regex :=
  match r with
  | Re.Seq a _ => first_atom a
  | _ => r
  end.

(** An atom that no white space satisfies. *)
Definition solid (r : Re.regex) : bool :=
  match r with
  | Re.WordB => true
  | Re.Lit x => negb (Char.isspace x)
  | _ => false
  end.

(** A pattern that begins and ends with such an atom. *)
Definition trims (r : Re.regex) : bool :=
  solid (first_atom r) && solid (snd (split_last r)).

(** [k'] continues on the text with the character [c] appended as [k] does
    on the text without it. *)
Definition extends (c : ascii) (k k' : bool -> string -> bool) : Prop :=
  (forall w v, k' w (v +:+ String c EmptyString) = k w v)
  /\ k' false EmptyString = false.

(** A place where a file can be stored: it holds a file already, or it is
    free and lies in a directory. *)
Definition storable (p : abspath) (n : node) : Prop :=
  (exists d, FS.node_at p n = Some (File d))
  \/ (FS.node_at p n = None /\ exists es, FS.node_at (FS.parent p) n = Some (Dir es)).

(** [m] neither reads nor changes the file tree. *)
Definition env_only {A} (m : M A) : Prop :=
  forall w t, m (with_fs w t) = (fst (m w), with_fs w t).

(** [m] changes nothing. *)
Definition pure {A} (m : M A) : Prop := forall w, m w = (fst (m w), w).

(** The character [c] occurs in [s]. *)
Fixpoint has (c : ascii) (s : string) : bool :=
  match s with
  | EmptyString => false
  | String a s' => Ascii.eqb a c || has c s'
  end.

(** Keys are distinct and every entry is filed under its own name. *)
Definition keyed (d : list (string * Skills.SkillInfo)) : Prop :=
  NoDup d.*1 /\ Forall (fun kv => Skills.name kv.2 = kv.1) d.

(** The two updates of [discovered] in [list_skills]. *)
Definition add_workspace (d : list (string * Skills.SkillInfo)) (info : Skills.SkillInfo) :=
  FS.alist_put (Skills.name info) info d.

Definition add_builtin (d : list (string * Skills.SkillInfo)) (info : Skills.SkillInfo) :=
  if negb (Skills.dict_contains (Skills.name info) d)
  then FS.alist_put (Skills.name info) info d else d.

(** Every character [c] of [s] replaced by the text [f c]. *)
Fixpoint subst (f : ascii -> string) (s : string) : string :=
  match s with
  | EmptyString => EmptyString
  | String c s' => f c +:+ subst f s'
  end.

End Aux.

(** ** More notions used in the proofs *)

Module Notions.


(** Insertion of [x] before the first element that is not below it, and
    the stable sort it gives. *)
Fixpoint insert_by {A} (leb : A -> A -> bool) (x : A) (l : list A) : list A :=
  match l with
  | [] => [x]
  | y :: l' => if leb x y then x :: y :: l' else y :: insert_by leb x l'
  end.

Definition sort_by {A} (leb : A -> A -> bool) (l : list A) : list A :=
  foldr (insert_by leb) [] l.

(** The order of the lower-cased names. *)
Definition lower_leb (a b : string) : bool :=
  String.leb (Str.lower a) (Str.lower b).

(** Whether the text [s], read after a character that is a word character
    or not as [w] says, ends with a word character. *)
Fixpoint ends_word (w : bool) (s : string) : bool :=
  match s with
  | EmptyString => w
  | String a s' => ends_word (Char.isword a) s'
  end.

(** The words of the two deny patterns that are alternatives of words. *)
Definition blocked_words : list string :=
  ["format"; "mkfs"; "diskpart"; "shutdown"; "reboot"; "poweroff"].

(** A JSON value that [json.dumps] and [json.loads] carry over unchanged:
    it has no number in it, and the keys of every object are distinct (a
    Python dictionary has no other). *)
Fixpoint plain (v : Json.json) : bool :=
  match v with
  | Json.JInt _ | Json.JFloat _ => false
  | Json.JArr items => forallb plain items
  | Json.JObj members =>
      bool_decide (NoDup (fst <$> members))
      && forallb (fun kv => plain (snd kv)) members
  | _ => true
  end.

(** Two worlds with the same environment: working directory, variables,
    user and home directories. *)
Definition same_env (w1 w2 : World) : Prop :=
  cwd w1 = cwd w2 /\ environ w1 = environ w2
  /\ login w1 = login w2 /\ passwd w1 = passwd w2.

(** The characters of the JSON syntax outside strings. *)
Definition json_syntax : string :=
  "[]{},: nulltruefalse" +:+ Str.DQ.

(** A character a JSON value can begin with, as far as the decoder tells
    it from white space and from the end of a container. *)
Definition opens (c : ascii) : Prop :=
  Json.is_ws c = false /\ c <> "]"%char /\ c <> "}"%char.

(** [v] is decoded from its encoding at every nesting level, with whatever
    follows left over, given fuel for the length of the encoding. *)
Definition decodes (indent : option nat) (v : Json.json) : Prop :=
  forall level rest fuel,
    Str.len (Json.dumps_go indent level v) <= fuel ->
    Json.value fuel (Json.dumps_go indent level v +:+ rest) = Some (v, rest).

End Notions.

(** * Properties *)

(** ** The tests of the repository, run on the model *)

Module Tests.
Import Json Tools Skills.

Example strip_example : Str.strip "  rm -rf /  " = "rm -rf /".
Proof. reflexivity. Qed.

Example count_does_not_overlap : Str.count "aaaa" "aa" = 2.
Proof. reflexivity. Qed.

Example replace_first_only : Str.replace "a.b.c" "." "::" (Some 1) = "a::b.c".
Proof. reflexivity. Qed.

Example split_once : Str.split "k: v: w" ":" (Some 1) = ["k"; " v: w"].
Proof. reflexivity. Qed.

Example deny_patterns_examples :
  List.map (fun c => denied (Str.lower (Str.strip c)))
    ["rm -rf /"; "RM -R x"; "rm -rfx"; "dd  if=/dev/zero"; "echo > /dev/sda";
     "mkfs.ext4 /dev/x"; "sudo reboot"; "rebooting"; ":(){ :|:& };:";
     "echo hello"; "ls -la"]
  = [true; true; false; true; true; true; true; false; true; false; false].
Proof. reflexivity. Qed.

(** [test_file_tools_roundtrip] *)
Example file_tools_roundtrip :
  fst ((run write_file "tmp/demo.txt" "hello world";
        run edit_file "tmp/demo.txt" "world" "adk";
        read_file "tmp/demo.txt") Sample.empty_workspace)
  = Ok "hello adk".
Proof. reflexivity. Qed.

(** [test_exec_tool] *)
Example exec_tool :
  fst (exec_command "echo hello" None 60 Sample.empty_workspace) = Ok "hello".
Proof. reflexivity. Qed.

(** [test_message_tool_writes_outbox] *)
Example message_tool_writes_outbox :
  let '(r, w) := message "hi" "local" "u1" Sample.empty_workspace in
  r = Ok "Message recorded to /work/messages/outbox.log"
  /\ FS.exists_ ["work"; "messages"; "outbox.log"] (fs w) = true.
Proof. split; reflexivity. Qed.

(** [test_cron_tool_add_list_remove] *)
Example cron_tool_add_list_remove :
  fst ((do created <- cron "add" "remind me" (Some 30%Z) None None None;
        do listing <- cron "list" EmptyString None None None None;
        do removed <- cron "remove" EmptyString None None None (Some "0f00dfee");
        do after <- cron "list" EmptyString None None None None;
        ret [created; listing; removed; after]) Sample.empty_workspace)
  = Ok ["Created job 'remind me' (id: 0f00dfee)";
        "Scheduled jobs:" +:+ Str.NL +:+ "- remind me (id: 0f00dfee, every:30s)";
        "Removed job 0f00dfee";
        "No scheduled jobs."].
Proof. reflexivity. Qed.

(** [test_workspace_skill_overrides_builtin] *)
Example workspace_skill_overrides_builtin :
  (fun info => (name info, source info, description info))
    <$> default [] (match fst (list_skills Sample.registry Sample.skills_world) with
                    | Ok items => Some items
                    | Raise _ => None
                    end)
  = [("Bar", "builtin", "Bar"); ("foo", "workspace", "Q&A <fast>")].
Proof. reflexivity. Qed.

(** [test_summary_escapes_xml_sensitive_chars] *)
Example summary_escapes_xml_sensitive_chars :
  match fst (build_summary Sample.registry Sample.skills_world) with
  | Ok summary => Str.contains summary "Q&amp;A &lt;fast&gt;"
  | Raise _ => false
  end = true.
Proof. reflexivity. Qed.

(** [test_read_skill_raises_for_missing] *)
Example read_skill_raises_for_missing :
  fst (read_skill Sample.registry "does-not-exist" Sample.skills_world)
  = Raise (ValueError "Skill 'does-not-exist' not found.").
Proof. reflexivity. Qed.

Example json_dumps_then_loads :
  loads (dumps (JArr Sample.stored) (Some 2)) = Some (JArr Sample.stored)
  /\ loads (dumps (JArr Sample.stored) None) = Some (JArr Sample.stored).
Proof. split; reflexivity. Qed.

End Tests.

(** ** Facts about strings *)

Module StrFacts.
Import Aux.

Lemma str_app_nil_l (s : string) : EmptyString +:+ s = s.
Proof. reflexivity. Qed.

Lemma str_app_cons (c : ascii) (s t : string) : String c s +:+ t = String c (s +:+ t).
Proof. reflexivity. Qed.

Lemma str_app_nil_r (s : string) : s +:+ EmptyString = s.
Proof. induction s as [|c s IH]; [done|]. by rewrite str_app_cons, IH. Qed.

Lemma str_app_assoc (s t u : string) : (s +:+ t) +:+ u = s +:+ (t +:+ u).
Proof. induction s as [|c s IH]; [done|]. by rewrite !str_app_cons, IH. Qed.

Lemma is_empty_true (s : string) : Str.is_empty s = true -> s = EmptyString.
Proof. by destruct s. Qed.

Lemma is_empty_map (f : ascii -> ascii) (s : string) :
  Str.is_empty (Str.map f s) = Str.is_empty s.
Proof. by destruct s. Qed.

Lemma lstrip_split (f : ascii -> bool) (s : string) :
  exists lead, s = lead +:+ Str.lstrip_with f s /\ all f lead = true.
Proof.
  induction s as [|c s [lead [E A]]]; [by exists EmptyString|].
  simpl. destruct (f c) eqn:Hc.
  - exists (String c lead). rewrite str_app_cons, <- E. simpl. by rewrite Hc.
  - by exists EmptyString.
Qed.

Lemma rstrip_split (f : ascii -> bool) (s : string) :
  exists trail, s = Str.rstrip_with f s +:+ trail /\ all f trail = true.
Proof.
  induction s as [|c s [trail [E A]]]; [by exists EmptyString|].
  simpl. destruct (f c && Str.is_empty (Str.rstrip_with f s)) eqn:Hc.
  - apply andb_true_iff in Hc as [Hc He]. apply is_empty_true in He.
    rewrite He, str_app_nil_l in E. subst trail. exists (String c s).
    rewrite str_app_nil_l. simpl. by rewrite Hc.
  - exists trail. by rewrite str_app_cons, <- E.
Qed.

Lemma strip_split (f : ascii -> bool) (s : string) :
  exists lead trail,
    s = lead +:+ Str.strip_with f s +:+ trail
    /\ all f lead = true /\ all f trail = true.
Proof.
  destruct (lstrip_split f s) as [lead [E1 A1]].
  destruct (rstrip_split f (Str.lstrip_with f s)) as [trail [E2 A2]].
  exists lead, trail. unfold Str.strip_with. by rewrite <- E2.
Qed.

Lemma lstrip_map (f : ascii -> bool) (g : ascii -> ascii) (s : string) :
  (forall c, f (g c) = f c) ->
  Str.lstrip_with f (Str.map g s) = Str.map g (Str.lstrip_with f s).
Proof.
  intros H. induction s as [|c s IH]; [done|].
  simpl. rewrite H. by destruct (f c).
Qed.

Lemma rstrip_map (f : ascii -> bool) (g : ascii -> ascii) (s : string) :
  (forall c, f (g c) = f c) ->
  Str.rstrip_with f (Str.map g s) = Str.map g (Str.rstrip_with f s).
Proof.
  intros H. induction s as [|c s IH]; [done|].
  simpl. rewrite H, IH, is_empty_map.
  by destruct (f c && Str.is_empty (Str.rstrip_with f s)).
Qed.

Lemma isspace_lower (c : ascii) : Char.isspace (Char.lower c) = Char.isspace c.
Proof. by destruct c as [[] [] [] [] [] [] [] []]. Qed.

Lemma isspace_not_word (c : ascii) : Char.isspace c = true -> Char.isword c = false.
Proof. by destruct c as [[] [] [] [] [] [] [] []]. Qed.

Lemma lower_strip (s : string) :
  Str.lower (Str.strip s) = Str.strip (Str.lower s).
Proof.
  unfold Str.lower, Str.strip, Str.strip_with.
  rewrite lstrip_map by apply isspace_lower.
  by rewrite rstrip_map by apply isspace_lower.
Qed.

End StrFacts.

(** ** Facts about the matcher: surrounding white space does not matter *)

Module ReFacts.
Import Re Aux StrFacts.

(** *** The matcher against the relation it decides *)

Lemma star_spec p k :
  forall s w,
    star p k w s = true
    <-> exists w' s', consumes (StarClass p) w s w' s' /\ k w' s' = true.
Proof.
  induction s as [|a s IH]; intros w; cbn [star].
  - rewrite orb_false_r. split.
    + intros H. exists w, EmptyString. split; [constructor|done].
    + intros (w' & s' & Hc & Hk). by inversion Hc; subst.
  - rewrite orb_true_iff, andb_true_iff, IH. split.
    + intros [H|[Hp (w' & s' & Hc & Hk)]].
      * exists w, (String a s). split; [constructor|done].
      * exists w', s'. split; [by constructor|done].
    + intros (w' & s' & Hc & Hk). inversion Hc; subst; [by left|].
      right. eauto.
Qed.

(** The matcher decides the relation. *)
Lemma matches_spec r :
  forall w s k,
    matches r w s k = true
    <-> exists w' s', consumes r w s w' s' /\ k w' s' = true.
Proof.
  induction r as [|c|p| |r1 IH1 r2 IH2|r1 IH1 r2 IH2|p]; intros w s k;
    cbn [matches].
  - split.
    + intros H. exists w, s. split; [constructor|done].
    + intros (w' & s' & Hc & Hk). by inversion Hc; subst.
  - destruct s as [|a s].
    + split; [done|]. intros (w' & s' & Hc & _). inversion Hc.
    + rewrite andb_true_iff, Ascii.eqb_eq. split.
      * intros [-> Hk]. eexists _, _. split; [constructor|done].
      * intros (w' & s' & Hc & Hk). by inversion Hc; subst.
  - destruct s as [|a s].
    + split; [done|]. intros (w' & s' & Hc & _). inversion Hc.
    + rewrite andb_true_iff. split.
      * intros [Hp Hk]. eexists _, _. split; [by constructor|done].
      * intros (w' & s' & Hc & Hk). by inversion Hc; subst.
  - rewrite andb_true_iff. split.
    + intros [Hb Hk]. exists w, s. split; [by constructor|done].
    + intros (w' & s' & Hc & Hk). by inversion Hc; subst.
  - rewrite IH1. split.
    + intros (w1 & s1 & H1 & (w2 & s2 & H2 & Hk)%IH2).
      exists w2, s2. split; [by econstructor|done].
    + intros (w2 & s2 & Hc & Hk). inversion Hc; subst.
      eexists _, _. split; [done|]. apply IH2. eauto.
  - rewrite orb_true_iff, IH1, IH2. split.
    + intros [(w' & s' & Hc & Hk)|(w' & s' & Hc & Hk)];
        exists w', s'; (split; [|done]).
      * by apply consumes_alt_l.
      * by apply consumes_alt_r.
    + intros (w' & s' & Hc & Hk). inversion Hc; subst; [left|right]; eauto.
  - apply star_spec.
Qed.

(** [re.search] finds a match exactly where there is one. *)
Lemma search_from_spec r :
  forall s w, search_from r w s = true <-> found r w s.
Proof.
  induction s as [|a s IH]; intros w; cbn [search_from];
    rewrite orb_true_iff, matches_spec.
  - split.
    + intros [(w' & s' & Hc & _)|]; [|done]. by econstructor.
    + intros H. inversion H; subst. left. unfold accept. eauto.
  - rewrite IH. split.
    + intros [(w' & s' & Hc & _)|H]; [by econstructor|by constructor].
    + intros H. inversion H; subst; [left|by right]. unfold accept. eauto.
Qed.

(** *** White space around the text *)

Lemma star_ext p k k' :
  (forall w s, k w s = k' w s) -> forall s w, star p k w s = star p k' w s.
Proof.
  intros H. induction s as [|a s IH]; intros w; simpl; rewrite H; [done|].
  by rewrite IH.
Qed.

Lemma matches_ext r :
  forall w s k k',
    (forall w' s', k w' s' = k' w' s') -> matches r w s k = matches r w s k'.
Proof.
  induction r as [|x|p| |r1 IH1 r2 IH2|r1 IH1 r2 IH2|p]; intros w s k k' H; simpl.
  - apply H.
  - destruct s; [done|]. by rewrite H.
  - destruct s; [done|]. by rewrite H.
  - by rewrite H.
  - apply IH1. intros w' s'. by apply IH2.
  - by rewrite (IH1 _ _ k k'), (IH2 _ _ k k').
  - by apply star_ext.
Qed.

(** On the empty text a pattern can only hand over to its continuation. *)
Lemma matches_empty r :
  forall k, k false EmptyString = false -> matches r false EmptyString k = false.
Proof.
  induction r as [|x|p| |r1 IH1 r2 IH2|r1 IH1 r2 IH2|p]; intros k H; simpl; try done.
  - apply IH1. by apply IH2.
  - by rewrite IH1, IH2.
  - by rewrite H.
Qed.

Lemma split_last_matches r :
  forall w s k,
    matches r w s k =
    matches (fst (split_last r)) w s
      (fun w' s' => matches (snd (split_last r)) w' s' k).
Proof.
  induction r as [|x|p| |r1 IH1 r2 IH2|r1 IH1 r2 IH2|p]; intros w s k; try done.
  simpl. destruct (split_last r2) as [b0 l] eqn:E. simpl.
  apply matches_ext. intros w' s'. by rewrite IH2.
Qed.

Section Space.
Variable c : ascii.
Hypothesis Hc : Char.isspace c = true.

Lemma star_append p k k' :
  extends c k k' -> forall v w, star p k' w (v +:+ String c EmptyString) = star p k w v.
Proof.
  intros [H1 H2]. induction v as [|a v IH]; intros w.
  - specialize (H1 w EmptyString). rewrite str_app_nil_l in *. simpl in *.
    rewrite H1, (isspace_not_word _ Hc), H2.
    by rewrite orb_false_r, andb_false_r, !orb_false_r.
  - rewrite str_app_cons. simpl. rewrite <- str_app_cons, H1. by rewrite IH.
Qed.

Lemma matches_append r :
  forall k k', extends c k k' ->
  forall w v, matches r w (v +:+ String c EmptyString) k' = matches r w v k.
Proof.
  induction r as [|x|p| |r1 IH1 r2 IH2|r1 IH1 r2 IH2|p];
    intros k k' [H1 H2] w v; simpl.
  - apply H1.
  - destruct v as [|a v]; simpl.
    + by rewrite (isspace_not_word _ Hc), H2, andb_false_r.
    + by rewrite H1.
  - destruct v as [|a v]; simpl.
    + by rewrite (isspace_not_word _ Hc), H2, andb_false_r.
    + by rewrite H1.
  - rewrite H1. f_equal. f_equal. destruct v; [|done].
    simpl. by rewrite (isspace_not_word _ Hc).
  - apply IH1. split.
    + intros w' v'. by apply IH2.
    + by apply matches_empty.
  - by rewrite (IH1 k k'), (IH2 k k').
  - by apply star_append.
Qed.

Lemma solid_extends l :
  solid l = true ->
  extends c (fun w s => matches l w s accept) (fun w s => matches l w s accept).
Proof.
  destruct l as [|x|p| |r1 r2|r1 r2|p]; try done; intros Hl; split; try done.
  - intros w [|a v]; [|done]. simpl.
    destruct (Ascii.eqb_spec c x) as [->|]; [|done].
    simpl in Hl. by rewrite Hc in Hl.
  - intros w [|a v]; [|done]. simpl. by rewrite (isspace_not_word _ Hc).
Qed.

Lemma matches_append_accept r w v :
  solid (snd (split_last r)) = true ->
  matches r w (v +:+ String c EmptyString) accept = matches r w v accept.
Proof.
  intros Hl. rewrite !(split_last_matches r).
  by apply matches_append, solid_extends.
Qed.

Lemma matches_empty_accept r :
  solid (snd (split_last r)) = true ->
  matches r false EmptyString accept = false.
Proof.
  intros Hl. rewrite split_last_matches.
  apply matches_empty. by apply solid_extends.
Qed.

Lemma search_from_append r :
  solid (snd (split_last r)) = true ->
  forall v w, search_from r w (v +:+ String c EmptyString) = search_from r w v.
Proof.
  intros Hl. induction v as [|a v IH]; intros w.
  - rewrite str_app_nil_l. simpl.
    pose proof (matches_append_accept r w EmptyString Hl) as E.
    rewrite str_app_nil_l in E. simpl in E. rewrite E.
    by rewrite (isspace_not_word _ Hc), (matches_empty_accept r Hl).
  - rewrite str_app_cons. simpl. rewrite <- str_app_cons.
    by rewrite matches_append_accept, IH.
Qed.

Lemma matches_head r :
  solid (first_atom r) = true ->
  forall t k, matches r false (String c t) k = false.
Proof.
  induction r as [|x|p| |r1 IH1 r2 IH2|r1 IH1 r2 IH2|p]; try done;
    intros Hh t k; simpl in *.
  - destruct (Ascii.eqb_spec c x) as [->|]; [|done]. by rewrite Hc in Hh.
  - by rewrite (isspace_not_word _ Hc).
  - by apply IH1.
Qed.
End Space.

Lemma search_from_trail r (trail : string) :
  solid (snd (split_last r)) = true -> all Char.isspace trail = true ->
  forall v w, search_from r w (v +:+ trail) = search_from r w v.
Proof.
  intros Hl. induction trail as [|c trail IH]; intros A v w.
  - by rewrite str_app_nil_r.
  - simpl in A. apply andb_true_iff in A as [Hc A].
    change (String c trail) with (String c EmptyString +:+ trail).
    rewrite <- str_app_assoc, IH by done. by apply search_from_append.
Qed.

Lemma search_lead r (lead : string) :
  solid (first_atom r) = true -> all Char.isspace lead = true ->
  forall t, search r (lead +:+ t) = search r t.
Proof.
  intros Hh. unfold search. induction lead as [|c lead IH]; intros A t; [done|].
  simpl in A. apply andb_true_iff in A as [Hc A].
  rewrite str_app_cons. simpl.
  by rewrite (matches_head c Hc r Hh), (isspace_not_word _ Hc), IH.
Qed.

(** [re.search] does not see the white space that [str.strip] removes. *)
Lemma search_strip r (s : string) :
  trims r = true -> search r (Str.strip s) = search r s.
Proof.
  intros [Hh Hl]%andb_true_iff.
  destruct (strip_split Char.isspace s) as (lead & trail & E & A1 & A2).
  rewrite E at 2. rewrite search_lead by done.
  unfold search. by rewrite search_from_trail.
Qed.

Lemma deny_patterns_trim : forallb trims Tools._DENY_PATTERNS = true.
Proof. reflexivity. Qed.

Lemma denied_strip (s : string) :
  Tools.denied (Str.strip s) = Tools.denied s.
Proof.
  unfold Tools.denied. pose proof deny_patterns_trim as H.
  induction Tools._DENY_PATTERNS as [|r l IH]; [done|].
  simpl in *. apply andb_true_iff in H as [Hr Hl].
  by rewrite search_strip, IH.
Qed.

End ReFacts.

(** ** Facts about the file tree *)

Module FSFacts.
Import FS Aux.

Lemma alist_get_put {A} (k : string) (v : A) (l : list (string * A)) :
  alist_get k (alist_put k v l) = Some v.
Proof.
  induction l as [|[k' v'] l IH]; simpl.
  - by rewrite String.eqb_refl.
  - destruct (String.eqb k k') eqn:E; simpl.
    + by rewrite String.eqb_refl.
    + by rewrite E.
Qed.

Lemma alist_get_put_ne {A} (k k' : string) (v : A) (l : list (string * A)) :
  k <> k' -> alist_get k' (alist_put k v l) = alist_get k' l.
Proof.
  intros Hne. induction l as [|[k0 v0] l IH]; simpl.
  - apply String.eqb_neq in Hne. by rewrite String.eqb_sym, Hne.
  - destruct (String.eqb k k0) eqn:E; simpl.
    + apply String.eqb_eq in E as <-.
      apply String.eqb_neq in Hne. by rewrite String.eqb_sym, Hne.
    + by rewrite IH.
Qed.

Lemma alist_put_id {A} (k : string) (v : A) (l : list (string * A)) :
  alist_get k l = Some v -> alist_put k v l = l.
Proof.
  induction l as [|[k' v'] l IH]; simpl; [done|].
  destruct (String.eqb k k') eqn:E.
  - apply String.eqb_eq in E as <-. by intros [= ->].
  - intros H. by rewrite IH.
Qed.

Lemma parent_cons (c x : string) (p : abspath) :
  parent (c :: x :: p) = c :: parent (x :: p).
Proof. reflexivity. Qed.

Lemma node_at_set_at (p : abspath) :
  forall n new, storable p n -> node_at p (set_at p new n) = Some new.
Proof.
  induction p as [|c p IH]; intros n new H; [done|].
  destruct n as [d|es].
  { destruct H as [[d' H]|[_ [es H]]]; [done|].
    destruct p; simpl in H; done. }
  simpl. destruct (alist_get c es) as [child|] eqn:E.
  - simpl. rewrite alist_get_put. apply IH.
    destruct H as [[d H]|[H [es' H']]].
    + left. exists d. simpl in H. by rewrite E in H.
    + right. simpl in H. rewrite E in H. split; [done|].
      destruct p as [|x p].
      * by destruct child; simpl in *; eauto.
      * rewrite parent_cons in H'. simpl in H'. rewrite E in H'. eauto.
  - destruct p as [|x p].
    + simpl. by rewrite alist_get_put.
    + destruct H as [[d H]|[_ [es' H']]].
      * simpl in H. by rewrite E in H.
      * rewrite parent_cons in H'. simpl in H'. by rewrite E in H'.
Qed.

Lemma store_node_at keep (p : abspath) (data : string) (n n' : node) :
  store keep p data n = Ok n' ->
  exists content, node_at p n' = Some (File content)
    /\ (content = data
        \/ exists old, node_at p n = Some (File old) /\ content = keep old +:+ data).
Proof.
  unfold store. destruct (node_at p n) as [[old|es]|] eqn:E; [|done|].
  - intros [= <-]. eexists. split.
    + apply node_at_set_at. left. eauto.
    + right. eauto.
  - destruct (node_at (parent p) n) as [[d|es]|] eqn:E'; try done.
    intros [= <-]. eexists. split; [|by left].
    apply node_at_set_at. right. eauto.
Qed.

Lemma write_text_node_at (p : abspath) (data : string) (n n' : node) :
  write_text p data n = Ok n' -> node_at p n' = Some (File data).
Proof.
  intros H. apply store_node_at in H as (content & H & [->|(old & _ & ->)]); done.
Qed.

Lemma mkdir_go_existing (full p : abspath) :
  forall n es, node_at p n = Some (Dir es) -> mkdir_go full p n = Ok n.
Proof.
  induction p as [|c p IH]; intros n es H.
  - simpl in H. injection H as ->. done.
  - destruct n as [d|es']; [done|]. simpl in *.
    destruct (alist_get c es') as [child|] eqn:E; [|done]. simpl.
    rewrite (IH _ _ H). by rewrite alist_put_id.
Qed.

Lemma contains_char_cons (x c : ascii) (s : string) :
  Str.contains (String c s) (Str.of_char x)
  = Ascii.eqb x c || Str.contains s (Str.of_char x).
Proof.
  cbn [Str.contains Str.startswith Str.of_char].
  by destruct s; rewrite andb_true_r.
Qed.

Lemma universal_newlines_id (s : string) :
  Str.contains s (Str.of_char Char.CR) = false -> universal_newlines s = s.
Proof.
  induction s as [|c s IH]; [done|].
  rewrite contains_char_cons. intros [H1 H2]%orb_false_iff.
  cbn [universal_newlines]. rewrite Ascii.eqb_sym, H1. by rewrite IH.
Qed.

End FSFacts.

(** ** Facts about effects: what a computation reads and leaves alone *)

Module Effects.
Import Aux.

Lemma with_fs_id (w : World) : with_fs w (fs w) = w.
Proof. by destruct w. Qed.

Lemma env_only_pure {A} (m : M A) : env_only m -> pure m.
Proof. intros H w. specialize (H w (fs w)). by rewrite with_fs_id in H. Qed.

Lemma env_only_bind {A B} (m : M A) (f : A -> M B) :
  env_only m -> (forall a, env_only (f a)) -> env_only (bind m f).
Proof.
  intros Hm Hf w t. unfold bind.
  rewrite (Hm w t), (env_only_pure m Hm w).
  destruct (fst (m w)) as [a|e]; [|done]. apply Hf.
Qed.

Lemma bind_ok {A B} (m : M A) (f : A -> M B) w a w' :
  m w = (Ok a, w') -> bind m f w = f a w'.
Proof. intros H. unfold bind. by rewrite H. Qed.

Lemma bind_raise {A B} (m : M A) (f : A -> M B) w e w' :
  m w = (Raise e, w') -> bind m f w = (Raise e, w').
Proof. intros H. unfold bind. by rewrite H. Qed.

Lemma pure_run {A} (m : M A) w a w' : pure m -> m w = (a, w') -> w' = w.
Proof. intros H E. rewrite (H w) in E. by injection E. Qed.

Import PathLib Tools.

Lemma env_only_expanduser p : env_only (expanduser p).
Proof.
  unfold expanduser. destruct (rooted p); [done|].
  destruct (parts p) as [|h tl]; [done|].
  destruct (Str.startswith h "~"); [|done].
  apply env_only_bind; [done|]. intros a.
  by destruct (Str.startswith a "~").
Qed.

Lemma env_only_workspace : env_only _workspace.
Proof.
  unfold _workspace. apply env_only_bind; [done|]. intros [e|].
  - destruct (negb (Str.is_empty e)); [|done].
    apply env_only_bind; [apply env_only_expanduser|]. intros. done.
  - done.
Qed.

Lemma env_only_resolve_path path : env_only (_resolve_path path).
Proof.
  unfold _resolve_path.
  apply env_only_bind; [apply env_only_expanduser|]. intros p.
  apply env_only_bind; [|done].
  destruct (negb (is_absolute p)); [|done].
  apply env_only_bind; [apply env_only_workspace|done].
Qed.

Lemma resolve_path_run path w r w' :
  _resolve_path path w = (r, w') -> w' = w.
Proof. apply pure_run, env_only_pure, env_only_resolve_path. Qed.

End Effects.

Module ExecFacts.
Import Tools StrFacts ReFacts Effects.

Lemma denied_lower_strip (command : string) :
  denied (Str.lower (Str.strip command)) = denied (Str.lower command).
Proof. by rewrite lower_strip, denied_strip. Qed.

Lemma render_stdout (stdout : string) :
  Str.strip stdout <> EmptyString ->
  Str.len (Str.strip stdout) <= 12000 ->
  render_output stdout EmptyString 0 = Str.strip stdout.
Proof.
  intros Hne Hlen. unfold render_output.
  destruct stdout as [|c s]; [done|].
  cbn [Str.is_empty negb Z.eqb app Str.join].
  destruct (Str.strip (String c s)) as [|c' s'] eqn:E; [done|].
  cbn [Str.is_empty].
  destruct (Nat.ltb_spec 12000 (Str.len (String c' s'))) as [H|H]; [lia|done].
Qed.

(** C1: A command that, lower-cased, matches a deny pattern is answered with
    the safety-block message and the world is left as it was: nothing is
    handed to the shell and the file tree is untouched.  A command that
    matches none is handed to the shell once its directory is resolved, and
    a completed run is reported from its output; standard output alone is
    reported as it is, stripped.  [rm -rf /] is blocked and [echo hello]
    is not. *)
Theorem exec_command_deny_guard :
  (forall command working_dir timeout w pattern,
      In pattern _DENY_PATTERNS ->
      Re.search pattern (Str.lower command) = true ->
      exec_command command working_dir timeout w = (Ok blocked_message, w))
  /\ (forall command working_dir timeout w dir stdout stderr returncode tree,
      (forall pattern, In pattern _DENY_PATTERNS ->
                       Re.search pattern (Str.lower command) = false) ->
      run_dir working_dir w = (Ok dir, w) ->
      shell w (Str.strip command) dir timeout (fs w)
        = (Completed stdout stderr returncode, tree) ->
      exec_command command working_dir timeout w
        = (Ok (render_output stdout stderr returncode),
           with_spawned (with_fs w tree)
             (spawned w ++ [(Str.strip command, dir)]))
        /\ (stderr = EmptyString -> returncode = 0%Z ->
            Str.strip stdout <> EmptyString ->
            Str.len (Str.strip stdout) <= 12000 ->
            render_output stdout stderr returncode = Str.strip stdout))
  /\ denied (Str.lower "rm -rf /") = true
  /\ denied (Str.lower "echo hello") = false.
Proof.
  split; [|split; [|split; reflexivity]].
  - intros command working_dir timeout w pattern Hin Hm.
    unfold exec_command. rewrite denied_lower_strip.
    assert (denied (Str.lower command) = true) as ->; [|done].
    apply existsb_exists. eauto.
  - intros command working_dir timeout w dir stdout stderr returncode tree
      Hnone Hdir Hrun.
    split; [|intros -> ->; apply render_stdout].
    unfold exec_command. rewrite denied_lower_strip.
    assert (denied (Str.lower command) = false) as ->.
    { apply not_true_is_false. intros (p & Hin & Hp)%existsb_exists.
      by rewrite (Hnone p Hin) in Hp. }
    rewrite (bind_ok _ _ _ _ _ Hdir).
    unfold bind at 1, subprocess_run. by rewrite Hrun.
Qed.

Lemma exec_command_deny_guard_witness :
  let w := Sample.empty_workspace in
  (exists pattern, In pattern _DENY_PATTERNS
                   /\ Re.search pattern (Str.lower "rm -rf /") = true)
  /\ exec_command "rm -rf /" None 60 w = (Ok blocked_message, w)
  /\ exec_command "  echo hello" None 60 w
     = (Ok "hello", with_spawned w [("echo hello", ["work"])]).
Proof.
  intros w. split; [|split].
  - eexists. split; [left; reflexivity|reflexivity].
  - eapply (proj1 exec_command_deny_guard); [left; reflexivity|reflexivity].
  - refine (proj1 (proj1 (proj2 exec_command_deny_guard) "  echo hello" None 60%Z w
              ["work"] ("hello" +:+ Str.NL) EmptyString 0%Z (fs w) _ _ _)).
    + intros pattern Hin. simpl in Hin.
      repeat (destruct Hin as [<-|Hin]; [reflexivity|]). destruct Hin.
    + reflexivity.
    + reflexivity.
Defined.

End ExecFacts.

Module ReplaceFacts.
Import StrFacts.

Lemma startswith_split (s p : string) :
  Str.startswith s p = true -> s = p +:+ Str.drop (Str.len p) s.
Proof.
  revert s. induction p as [|a p IH]; intros s H; [by destruct s|].
  destruct s as [|b s]; [done|]. cbn [Str.startswith] in H.
  apply andb_true_iff in H as [E H]. apply Ascii.eqb_eq in E as ->.
  rewrite str_app_cons. cbn [Str.len String.length Str.drop]. f_equal. by apply IH.
Qed.

Lemma replace_go_spent (old new : string) (s : string) :
  forall skip, Str.replace_go old new (Some 0) skip s = Str.drop skip s.
Proof.
  induction s as [|c s IH]; intros [|k]; try done.
  - cbn [Str.replace_go Str.spent negb andb Str.drop]. by rewrite IH; destruct s.
  - cbn [Str.replace_go Str.drop]. apply IH.
Qed.

Lemma replace_go_first (old new : string) (s : string) :
  old <> EmptyString ->
  1 <= Str.count_go old 0 s ->
  exists before after,
    s = before +:+ old +:+ after
    /\ Str.replace_go old new (Some 1) 0 s = before +:+ new +:+ after.
Proof.
  intros Hold. induction s as [|c s IH]; [simpl; lia|].
  cbn [Str.count_go Str.replace_go Str.spent negb andb].
  destruct (Str.startswith (String c s) old) eqn:E.
  - intros _. exists EmptyString, (Str.drop (Str.len old) (String c s)).
    rewrite !str_app_nil_l. split; [by apply startswith_split|].
    cbn [Str.dec_limit fmap option_fmap option_map Nat.pred].
    rewrite replace_go_spent. destruct old as [|a old]; [done|].
    replace (Str.len (String a old) - 1) with (Str.len old) by (simpl; lia).
    done.
  - intros H. destruct (IH H) as (before & after & -> & ->).
    by exists (String c before), after.
Qed.

(** Replacing once puts [new] where the first occurrence of [old] was. *)
Lemma replace_first (s old new : string) :
  1 <= Str.count s old ->
  (old = EmptyString -> s = EmptyString) ->
  exists before after,
    s = before +:+ old +:+ after
    /\ Str.replace s old new (Some 1) = before +:+ new +:+ after.
Proof.
  unfold Str.count, Str.replace. destruct old as [|a old].
  - intros _ ->; [|done]. exists EmptyString, EmptyString. split; [done|].
    cbn. by rewrite str_app_nil_r.
  - cbn [Str.is_empty]. intros H _. by apply replace_go_first.
Qed.

End ReplaceFacts.

Module FileToolFacts.
Import Tools StrFacts FSFacts Effects ReplaceFacts.



End FileToolFacts.

Module WriteFacts.
Import Tools StrFacts FSFacts Effects.

Lemma write_file_success path content w r w' :
  write_file path content w = (Ok r, w') ->
  Str.startswith r "Successfully wrote" = true ->
  exists target t1 t2,
    _resolve_path path w = (Ok target, w)
    /\ FS.mkdir (FS.parent target) (fs w) = Ok t1
    /\ FS.write_text target content t1 = Ok t2
    /\ w' = with_fs w t2
    /\ r = "Successfully wrote " +:+ pretty (Str.len content)
           +:+ " bytes to " +:+ str_path target.
Proof.
  unfold write_file, try_except.
  destruct (_resolve_path path w) as [[target|e] w0] eqn:Hres;
    pose proof (resolve_path_run _ _ _ _ Hres) as ->.
  2:{ rewrite (bind_raise _ _ _ _ _ Hres). intros [= <- <-]. done. }
  rewrite (bind_ok _ _ _ _ _ Hres).
  unfold bind, mkdir, write_text, update_fs.
  destruct (FS.mkdir (FS.parent target) (fs w)) as [t1|e] eqn:H1.
  2:{ intros [= <- <-]. done. }
  cbn [fs with_fs].
  destruct (FS.write_text target content t1) as [t2|e] eqn:H2.
  2:{ intros [= <- <-]. done. }
  intros [= <- <-] _. exists target, t1, t2. done.
Qed.

(** C4 (amended): When [write_file] reports success and the content has no
    carriage return, [read_file] on the same path gives the content back
    unchanged. *)
Theorem write_then_read :
  forall path content w r w',
    write_file path content w = (Ok r, w') ->
    Str.startswith r "Successfully wrote" = true ->
    Str.contains content (Str.of_char Char.CR) = false ->
    read_file path w' = (Ok content, w').
Proof.
  intros path content w r w' Hw Hs Hcr.
  destruct (write_file_success _ _ _ _ _ Hw Hs)
    as (target & t1 & t2 & Hres & _ & H2 & -> & _).
  apply write_text_node_at in H2.
  unfold read_file, try_except.
  pose proof (env_only_resolve_path path w t2) as Hres'.
  rewrite Hres in Hres'. cbn [fst] in Hres'.
  rewrite (bind_ok _ _ _ _ _ Hres').
  unfold bind at 1, exists_, get, FS.exists_.
  cbn [fs with_fs]. rewrite H2. cbn [negb].
  unfold bind at 1, is_file, get, FS.is_file.
  cbn [fs with_fs]. rewrite H2. cbn [negb].
  unfold bind, read_text, FS.read_text.
  cbn [fs with_fs]. rewrite H2.
  by rewrite universal_newlines_id.
Qed.

Lemma write_then_read_witness :
  let w := Sample.empty_workspace in
  let w' := Sample.world
              (Dir [("work", Dir [("notes", Dir [("today.txt", File "buy milk")])])]) in
  write_file "notes/today.txt" "buy milk" w
  = (Ok "Successfully wrote 8 bytes to /work/notes/today.txt", w')
  /\ read_file "notes/today.txt" w' = (Ok "buy milk", w').
Proof.
  intros w w'. split; [reflexivity|].
  apply (write_then_read _ _ w
           "Successfully wrote 8 bytes to /work/notes/today.txt");
    reflexivity.
Defined.

(** C4, counterexample: the round trip fails where the write fails, as on
    the workspace directory itself, and where the content has a carriage
    return, which comes back as a newline: the file is read in text mode
    with universal newlines. *)
Lemma write_then_read_fails :
  let w := Sample.empty_workspace in
  let content := "a" +:+ Str.of_char Char.CR +:+ "b" in
  let round_trip path c :=
    fst (bind (write_file path c) (fun _ => read_file path) w) in
  round_trip EmptyString "x" = Ok "Error: Not a file: "
  /\ round_trip EmptyString "x" <> Ok "x"
  /\ fst (write_file "notes.txt" content w)
     = Ok "Successfully wrote 3 bytes to /work/notes.txt"
  /\ round_trip "notes.txt" content = Ok ("a" +:+ Str.NL +:+ "b")
  /\ round_trip "notes.txt" content <> Ok content.
Proof. repeat split; (reflexivity || discriminate). Qed.

(** C8: The number in the success message of [write_file] is [len(content)],
    the number of characters; for content outside ASCII that is not the
    number of bytes written. *)
Lemma write_file_counts_characters :
  let w := Sample.empty_workspace in
  let content := String "233" EmptyString in
  fst (write_file "e.txt" content w) = Ok "Successfully wrote 1 bytes to /work/e.txt"
  /\ Utf8.encoded_len content = 2.
Proof. split; reflexivity. Qed.

End WriteFacts.

Module MessageFacts.
Import Tools.

(** C6: [message] has no handler around its file operations: where
    [messages] is a regular file, creating the directory raises and the
    exception reaches the caller. *)
Lemma message_raises :
  let w := Sample.world (Dir [("work", Dir [("messages", File "notes")])]) in
  message "hi" "local" "default" w
  = (Raise (FileExistsError ["work"; "messages"]), w).
Proof. reflexivity. Qed.

End MessageFacts.

Module SkillFacts.
Import Skills PathLib SkillSpec Aux FSFacts Effects ReplaceFacts.

(** ** The description line always splits in two *)

Lemma has_lstrip f c s : has c (Str.lstrip_with f s) = true -> has c s = true.
Proof.
  induction s as [|a s IH]; [done|]. cbn [Str.lstrip_with has].
  destruct (f a); [|done]. intros H. by rewrite IH, orb_true_r.
Qed.

Lemma has_rstrip f c s : has c (Str.rstrip_with f s) = true -> has c s = true.
Proof.
  induction s as [|a s IH]; [done|]. cbn [Str.rstrip_with has].
  destruct (f a && Str.is_empty (Str.rstrip_with f s)); [done|].
  cbn [has]. intros [H|H]%orb_true_iff; [by rewrite H|].
  by rewrite IH, orb_true_r.
Qed.

Lemma split_go_spent sep cur s : exists x, Str.split_go sep (Some 0) cur s = [x].
Proof.
  revert cur. induction s as [|a s IH]; intros cur; [by eexists|].
  cbn [Str.split_go Str.spent negb andb]. apply IH.
Qed.

Lemma split_go_once sep s :
  has sep s = true ->
  forall cur, exists a b, Str.split_go sep (Some 1) cur s = [a; b].
Proof.
  induction s as [|c s IH]; [done|]. cbn [has]. intros H cur.
  cbn [Str.split_go Str.spent negb andb].
  destruct (Ascii.eqb c sep).
  - cbn [Str.dec_limit fmap option_fmap option_map Nat.pred].
    destruct (split_go_spent sep EmptyString s) as [x ->]. eauto.
  - apply IH. by rewrite orb_false_l in H.
Qed.

Lemma description_line_has_colon line :
  Str.startswith (Str.strip line) "description:" = true -> has ":" line = true.
Proof.
  intros H. apply (has_lstrip Char.isspace), (has_rstrip Char.isspace).
  apply startswith_split in H. fold (Str.strip_with Char.isspace line).
  fold (Str.strip line). rewrite H. reflexivity.
Qed.

Lemma description_of_ok lines : exists d, description_of lines = Ok d.
Proof.
  induction lines as [|line lines IH]; [by eexists|].
  cbn [description_of].
  destruct (Str.startswith (Str.strip line) "description:") eqn:E; [|done].
  cbn [negb]. unfold Str.split.
  destruct (split_go_once ":" line (description_line_has_colon _ E) EmptyString)
    as (a & b & ->).
  by eexists.
Qed.

Lemma extract_description_run p w :
  FS.is_file p (fs w) = true ->
  exists d, _extract_description p w = (Ok d, w).
Proof.
  unfold FS.is_file, _extract_description, bind, read_text, FS.read_text.
  destruct (FS.node_at p (fs w)) as [[data|]|]; try done. intros _.
  destruct (negb _); [by eexists|].
  destruct (front_matter _) as [block|]; [|by eexists].
  unfold lift. destruct (description_of_ok (Str.split block Char.NL None)) as [d ->].
  by eexists.
Qed.

(** ** What a scan returns *)

Lemma scan_children_run dir src names w :
  exists l,
    scan_children dir src names w = (Ok l, w)
    /\ Forall (fun i => source i = src) l
    /\ (forall nm, nm ∈ names -> is_bundle dir nm (fs w) = true ->
        exists i, i ∈ l /\ name i = nm).
Proof.
  induction names as [|nm names (l & E & Hsrc & Hin)].
  { exists []. split; [done|]. split; [done|]. by intros nm ?%elem_of_nil. }
  cbn [scan_children]. unfold bind at 1, is_dir, get.
  destruct (FS.is_dir (dir ++ [nm]) (fs w)) eqn:Hd; cbn [negb].
  2:{ exists l. split; [done|]. split; [done|].
      intros nm' [->|H]%elem_of_cons Hb; [|by apply Hin].
      unfold is_bundle in Hb. by rewrite Hd in Hb. }
  unfold bind at 1, is_file, get.
  rewrite <- (List.app_assoc dir [nm] ["SKILL.md"]). cbn [app].
  destruct (FS.is_file (dir ++ [nm; "SKILL.md"]) (fs w)) eqn:Hf; cbn [negb].
  2:{ exists l. split; [done|]. split; [done|].
      intros nm' [->|H]%elem_of_cons Hb; [|by apply Hin].
      unfold is_bundle in Hb. by rewrite Hd, Hf in Hb. }
  destruct (extract_description_run _ _ Hf) as [d Ed].
  rewrite (bind_ok _ _ _ _ _ Ed).
  unfold bind at 1, resolve. unfold bind at 1, get, ret.
  unfold bind. rewrite E. eexists. split; [done|].
  split; [by constructor|].
  intros nm' [->|H]%elem_of_cons Hb.
  - eexists. split; [by left|done].
  - destruct (Hin nm' H Hb) as (i & Hi & Hn). exists i. split; [by right|done].
Qed.

Lemma node_at_snoc (p : abspath) (c : string) :
  forall n,
    FS.node_at (p ++ [c]) n
    = match FS.node_at p n with
      | Some (Dir es) => FS.alist_get c es
      | _ => None
      end.
Proof.
  induction p as [|x p IH]; intros n.
  - simpl. destruct n as [|es]; [done|]. by destruct (FS.alist_get c es).
  - simpl. destruct n as [|es]; [done|].
    destruct (FS.alist_get x es); [apply IH|done].
Qed.

Lemma alist_get_in {A} (k : string) (v : A) (l : list (string * A)) :
  FS.alist_get k l = Some v -> k ∈ l.*1.
Proof.
  induction l as [|[k' v'] l IH]; [done|]. simpl.
  destruct (String.eqb_spec k k') as [->|_]; [intros _; by left|].
  intros H. right. by apply IH.
Qed.

Lemma scan_run dir src w :
  exists l,
    _scan dir src w = (Ok l, w)
    /\ Forall (fun i => source i = src) l
    /\ (forall nm, is_bundle dir nm (fs w) = true ->
        exists i, i ∈ l /\ name i = nm).
Proof.
  unfold _scan, bind at 1, exists_, get, FS.exists_.
  unfold bind at 1, is_dir, get, FS.is_dir.
  destruct (FS.node_at dir (fs w)) as [[data|es]|] eqn:Hn; cbn [negb orb].
  1,3: exists []; split; [done|]; split; [done|];
       intros nm [Hb _]%andb_true_iff; unfold FS.is_dir in Hb;
       by rewrite node_at_snoc, Hn in Hb.
  unfold bind, iterdir, FS.iterdir. rewrite Hn.
  destruct (scan_children_run dir src es.*1 w) as (l & -> & Hsrc & Hin).
  exists l. split; [done|]. split; [done|].
  intros nm Hb. apply Hin; [|done].
  apply andb_true_iff in Hb as [Hb _]. unfold FS.is_dir in Hb.
  rewrite node_at_snoc, Hn in Hb.
  destruct (FS.alist_get nm es) eqn:E; [|done]. by eapply alist_get_in.
Qed.

(** ** The dictionary [discovered] *)

Lemma alist_put_keys {A} k (v : A) l :
  (FS.alist_put k v l).*1 = if decide (k ∈ l.*1) then l.*1 else l.*1 ++ [k].
Proof.
  induction l as [|[k' v'] l IH]; [done|]. cbn [FS.alist_put].
  destruct (String.eqb_spec k k') as [->|Hne]; rewrite !fmap_cons; cbn [fst].
  - rewrite decide_True; [done|by left].
  - rewrite IH. destruct (decide (k ∈ l.*1)) as [Hin|Hout].
    + rewrite decide_True; [done|by right].
    + rewrite decide_False; [done|]. by intros [?|?]%elem_of_cons.
Qed.

Lemma alist_put_values {A} (P : string * A -> Prop) k (v : A) l :
  P (k, v) -> Forall P l -> Forall P (FS.alist_put k v l).
Proof.
  intros Hv. induction 1 as [|[k' v'] l Hx Hl IH]; simpl; [by constructor|].
  destruct (String.eqb k k'); by constructor.
Qed.

Lemma keyed_put d info : keyed d -> keyed (FS.alist_put (name info) info d).
Proof.
  intros [Hnd Hk]. split.
  - rewrite alist_put_keys. case_decide; [done|].
    apply NoDup_app. split; [done|]. split; [|apply NoDup_singleton].
    intros x Hx ->%list_elem_of_singleton. done.
  - by apply alist_put_values.
Qed.

Lemma fold_workspace (found : list SkillInfo) :
  forall d, keyed d ->
    keyed (fold_left add_workspace found d)
    /\ forall nm,
        (exists i, i ∈ found /\ name i = nm) ->
        exists i, FS.alist_get nm (fold_left add_workspace found d) = Some i
                  /\ i ∈ found.
Proof.
  induction found as [|x found IH] using rev_ind; intros d Hd.
  { split; [done|]. by intros nm (i & ?%elem_of_nil & _). }
  rewrite fold_left_app. cbn [fold_left].
  destruct (IH d Hd) as [Hk Hget]. split; [by apply keyed_put|].
  intros nm (i & Hi & Hn). unfold add_workspace at 1.
  destruct (decide (name x = nm)) as [<-|Hne].
  - exists x. rewrite alist_get_put. split; [done|].
    apply elem_of_app. right. by left.
  - rewrite alist_get_put_ne by done.
    apply elem_of_app in Hi as [Hi|Hi%list_elem_of_singleton]; [|by subst].
    destruct (Hget nm) as (j & Hj & Hjin); [by eauto|].
    exists j. split; [done|]. apply elem_of_app. by left.
Qed.

Lemma fold_builtin (found : list SkillInfo) :
  forall d, keyed d ->
    keyed (fold_left add_builtin found d)
    /\ forall nm i, FS.alist_get nm d = Some i ->
                    FS.alist_get nm (fold_left add_builtin found d) = Some i.
Proof.
  induction found as [|x found IH]; intros d Hd; [done|].
  cbn [fold_left].
  assert (keyed (add_builtin d x)) as Hk.
  { unfold add_builtin. destruct (negb _); [by apply keyed_put|done]. }
  destruct (IH _ Hk) as [Hk' Hget]. split; [done|].
  intros nm i Hi. apply Hget. unfold add_builtin, dict_contains.
  destruct (FS.alist_get (name x) d) eqn:E; cbn [negb]; [done|].
  rewrite alist_get_put_ne; [done|]. intros Heq. by rewrite Heq, Hi in E.
Qed.

Lemma keyed_filter d nm i :
  keyed d -> FS.alist_get nm d = Some i ->
  filter (fun j => name j = nm) d.*2 = [i].
Proof.
  intros [Hnd Hk]. induction d as [|[k v] d IH]; [done|].
  apply NoDup_cons in Hnd as [Hout Hnd]. apply Forall_cons in Hk as [Hv Hk].
  simpl in *. destruct (String.eqb_spec nm k) as [->|Hne].
  - intros [= ->]. rewrite filter_cons_True by done. f_equal.
    clear IH. induction d as [|[k' v'] d IH]; [done|].
    apply Forall_cons in Hk as [Hv' Hk]. apply NoDup_cons in Hnd as [_ Hnd].
    simpl in *. rewrite filter_cons_False.
    + apply IH; [|done..]. intros H. apply Hout. by right.
    + rewrite Hv'. intros ->. apply Hout. by left.
  - intros H. rewrite filter_cons_False by (by rewrite Hv). by apply IH.
Qed.

(** ** Sorting keeps the elements *)

Lemma insert_sorted_perm x l : insert_sorted x l ≡ₚ x :: l.
Proof.
  induction l as [|y l IH]; [done|]. simpl.
  destruct (String.leb _ _); [done|]. rewrite IH. apply Permutation_swap.
Qed.

Lemma sorted_perm l : sorted l ≡ₚ l.
Proof.
  induction l as [|x l IH]; [done|]. simpl.
  by rewrite insert_sorted_perm, IH.
Qed.

(** ** [list_skills] *)

Lemma list_skills_run self w :
  exists from_workspace from_builtin,
    _scan (workspace_skills_dir self) "workspace" w = (Ok from_workspace, w)
    /\ _scan (builtin_skills_dir self) "builtin" w = (Ok from_builtin, w)
    /\ list_skills self w
       = (Ok (sorted (fold_left add_builtin from_builtin
                        (fold_left add_workspace from_workspace [])).*2), w).
Proof.
  destruct (scan_run (workspace_skills_dir self) "workspace" w) as (W & EW & _).
  destruct (scan_run (builtin_skills_dir self) "builtin" w) as (B & EB & _).
  exists W, B. split; [done|]. split; [done|].
  unfold list_skills. rewrite (bind_ok _ _ _ _ _ EW), (bind_ok _ _ _ _ _ EB).
  done.
Qed.

Lemma list_skills_total self w : exists items, list_skills self w = (Ok items, w).
Proof. destruct (list_skills_run self w) as (W & B & _ & _ & ->). eauto. Qed.

(** C3: a name that is a valid skill bundle under both the workspace root
    and the builtin root is listed exactly once, and the entry listed has
    source [workspace]; the entry that the scan of the builtin root finds
    under that name is not listed. *)
Theorem list_skills_workspace_precedence :
  forall self w nm,
    is_bundle (workspace_skills_dir self) nm (fs w) = true ->
    is_bundle (builtin_skills_dir self) nm (fs w) = true ->
    exists items info from_builtin shadowed,
      list_skills self w = (Ok items, w)
      /\ filter (fun i => name i = nm) items = [info]
      /\ source info = "workspace"
      /\ _scan (builtin_skills_dir self) "builtin" w = (Ok from_builtin, w)
      /\ shadowed ∈ from_builtin
      /\ name shadowed = nm
      /\ source shadowed = "builtin"
      /\ shadowed ∉ items.
Proof.
  intros self w nm Hw Hb.
  destruct (scan_run (workspace_skills_dir self) "workspace" w)
    as (W & EW & Hsrc & Hin).
  destruct (scan_run (builtin_skills_dir self) "builtin" w)
    as (B & EB & HsrcB & HinB).
  destruct (list_skills_run self w) as (W' & B' & EW' & EB' & ->).
  rewrite EW in EW'. injection EW' as <-.
  rewrite EB in EB'. injection EB' as <-.
  assert (keyed (@nil (string * SkillInfo))) as H0.
  { split; constructor. }
  destruct (fold_workspace W [] H0) as [Hk Hget].
  destruct (Hget nm (Hin nm Hw)) as (info & Hinfo & HinW).
  destruct (fold_builtin B _ Hk) as [Hk' Hkeep].
  destruct (HinB nm Hb) as (shadowed & Hsh & Hname).
  assert (source info = "workspace") as Hinfo_src.
  { by eapply Forall_forall in Hsrc. }
  assert (source shadowed = "builtin") as Hsh_src.
  { by eapply Forall_forall in HsrcB. }
  assert (filter (fun i => name i = nm)
            (sorted (fold_left add_builtin B (fold_left add_workspace W [])).*2)
          = [info]) as Hone.
  { apply Permutation_singleton_r.
    rewrite sorted_perm. apply Permutation_singleton_r.
    by apply keyed_filter, Hkeep. }
  eexists _, info, B, shadowed. repeat (split; [done|]).
  intros Hlisted.
  assert (shadowed ∈ [info]) as ->%list_elem_of_singleton.
  { rewrite <- Hone. by apply list_elem_of_filter. }
  by rewrite Hinfo_src in Hsh_src.
Qed.

Lemma list_skills_workspace_precedence_witness :
  let w := Sample.skills_world in
  is_bundle ["work"; "skills"] "foo" (fs w) = true
  /\ is_bundle ["opt"; "skills"] "foo" (fs w) = true
  /\ exists items info from_builtin shadowed,
      list_skills Sample.registry w = (Ok items, w)
      /\ filter (fun i => name i = "foo") items = [info]
      /\ source info = "workspace"
      /\ _scan ["opt"; "skills"] "builtin" w = (Ok from_builtin, w)
      /\ shadowed ∈ from_builtin
      /\ name shadowed = "foo"
      /\ source shadowed = "builtin"
      /\ shadowed ∉ items.
Proof.
  intros w. split; [reflexivity|]. split; [reflexivity|].
  apply (list_skills_workspace_precedence Sample.registry w "foo"); reflexivity.
Defined.

End SkillFacts.

Module SummaryFacts.
Import Skills SummarySpec Aux StrFacts Effects SkillFacts.

Lemma subst_app f s t : subst f (s +:+ t) = subst f s +:+ subst f t.
Proof.
  induction s as [|c s IH]; [done|].
  rewrite str_app_cons. cbn [subst]. by rewrite IH, str_app_assoc.
Qed.

Lemma subst_subst f g s : subst g (subst f s) = subst (fun c => subst g (f c)) s.
Proof.
  induction s as [|c s IH]; [done|]. cbn [subst]. by rewrite subst_app, IH.
Qed.

(** Replacing one character everywhere is a substitution on characters. *)
Lemma replace_char (x : ascii) (new s : string) :
  Str.replace s (Str.of_char x) new None
  = subst (fun c => if Ascii.eqb x c then new else Str.of_char c) s.
Proof.
  unfold Str.replace, Str.of_char. cbn [Str.is_empty].
  induction s as [|c s IH]; [done|].
  cbn [Str.replace_go Str.spent negb andb Str.startswith subst Str.dec_limit
         fmap option_fmap option_map].
  change (Str.len (String x EmptyString) - 1) with 0.
  rewrite andb_true_r. destruct (Ascii.eqb x c); by rewrite IH.
Qed.

Lemma xml_escape_chars (text : string) : _xml_escape text = escape_chars text.
Proof.
  unfold _xml_escape.
  change "&" with (Str.of_char "&"). change "<" with (Str.of_char "<").
  change ">" with (Str.of_char ">").
  rewrite !replace_char, !subst_subst.
  induction text as [|c s IH]; [done|]. cbn [subst escape_chars]. rewrite IH.
  f_equal. by destruct c as [[] [] [] [] [] [] [] []].
Qed.

Lemma skill_block_spec info : skill_block info = block info.
Proof. unfold skill_block, block. by rewrite !xml_escape_chars. Qed.

(** C9: [_xml_escape] writes [&], [<] and [>] as [&amp;], [&lt;] and [&gt;]
    and keeps every other character, quotes included; [build_summary]
    applies it to the name, the description and the location of every
    listed skill, between fixed tags. *)
Theorem build_summary_escapes :
  (forall text, _xml_escape text = escape_chars text)
  /\ (forall self w,
        exists items,
          list_skills self w = (Ok items, w)
          /\ build_summary self w
             = (Ok (Str.join Str.NL
                      (["<skills>"] ++ concat (block <$> items) ++ ["</skills>"])),
                w))
  /\ _xml_escape (Str.DQ +:+ "it's" +:+ Str.DQ) = Str.DQ +:+ "it's" +:+ Str.DQ.
Proof.
  split; [apply xml_escape_chars|]. split; [|reflexivity].
  intros self w. destruct (list_skills_total self w) as [items E].
  exists items. split; [done|].
  unfold build_summary. rewrite (bind_ok _ _ _ _ _ E). unfold ret.
  assert (skill_block <$> items = block <$> items) as ->; [|done].
  apply list_fmap_ext. intros _ info _. apply skill_block_spec.
Qed.

End SummaryFacts.

Module ReadSkillFacts.
Import Skills Effects SkillFacts.

Lemma first_named_none key items :
  first_named key items = None <-> forall info, info ∈ items -> name info <> key.
Proof.
  induction items as [|x items IH]; simpl.
  - split; [|done]. by intros _ info ?%elem_of_nil.
  - destruct (String.eqb_spec (name x) key) as [E|Hne].
    + split; [done|]. intros H. exfalso. apply (H x); [by left|done].
    + rewrite IH. split.
      * intros H info [->|Hin]%elem_of_cons; [done|by apply H].
      * intros H info Hin. apply H. by right.
Qed.

(** C5 (amended): [read_skill] looks for [name.strip()]: it raises the
    empty-name error when that is empty, the not-found error when no listed
    skill has exactly that name, and otherwise reads the manifest of the
    listed skill of that name.  It raises a value error in the first two
    cases only. *)
Theorem read_skill_by_stripped_name :
  forall self nm w,
    let key := Str.strip nm in
    exists items,
      list_skills self w = (Ok items, w)
      /\ read_skill self nm w
         = (if Str.is_empty key
            then Raise (ValueError "Skill name cannot be empty.")
            else match first_named key items with
                 | Some info => FS.read_text (path info) (fs w)
                 | None =>
                     Raise (ValueError ("Skill " +:+ quoted key +:+ " not found."))
                 end, w)
      /\ ((exists msg, fst (read_skill self nm w) = Raise (ValueError msg))
          <-> key = EmptyString
              \/ forall info, info ∈ items -> name info <> key).
Proof.
  intros self nm w key. destruct (SkillFacts.list_skills_total self w) as [items E].
  exists items. split; [done|].
  assert (read_skill self nm w
          = (if Str.is_empty key
             then Raise (ValueError "Skill name cannot be empty.")
             else match first_named key items with
                  | Some info => FS.read_text (path info) (fs w)
                  | None =>
                      Raise (ValueError ("Skill " +:+ quoted key +:+ " not found."))
                  end, w)) as R.
  { unfold read_skill. fold key. destruct (Str.is_empty key); [done|].
    rewrite (bind_ok _ _ _ _ _ E). by destruct (first_named key items). }
  split; [done|]. rewrite R. cbn [fst].
  destruct key as [|c key'] eqn:K; cbn [Str.is_empty].
  { split; [by left|by eexists]. }
  rewrite <- K. rewrite <- first_named_none.
  destruct (first_named key items) as [info|].
  - split.
    + intros [msg H]. unfold FS.read_text, FS.missing in H.
      destruct (FS.node_at _ _) as [[|]|]; [done..|]. by destruct (FS.under_file _ _).
    + intros [H|H]; [by rewrite K in H|done].
  - split; [by right|by eexists].
Qed.

(** C5, counterexample: a name with white space around it is looked up
    without it: [" foo "] finds the skill [foo], although no listed skill
    is named [" foo "]. *)
Lemma read_skill_padded_name :
  let w := Sample.skills_world in
  let self := Sample.registry in
  Str.strip " foo " <> EmptyString
  /\ (forall items, fst (list_skills self w) = Ok items ->
                    Forall (fun info => name info <> " foo ") items)
  /\ read_skill self " foo " w = (Ok Sample.manifest, w).
Proof.
  split; [done|]. split; [|reflexivity].
  intros items H. vm_compute in H. injection H as <-.
  repeat constructor; done.
Qed.

End ReadSkillFacts.

Module CronFacts.
Import Json Tools CronSpec FSFacts Effects SkillFacts.

Lemma store_path_run w ws :
  _workspace w = (Ok ws, w) ->
  _cron_store_path w = (Ok (ws ++ [".picobot"; "cron_jobs.json"]), w).
Proof. intros H. unfold _cron_store_path. by rewrite (bind_ok _ _ _ _ _ H). Qed.

Lemma load_run w ws :
  _workspace w = (Ok ws, w) ->
  exists v, _load_cron_jobs w = (Ok v, w).
Proof.
  intros H. unfold _load_cron_jobs.
  rewrite (bind_ok _ _ _ _ _ (store_path_run _ _ H)).
  unfold bind at 1, exists_, get.
  destruct (FS.exists_ _ _); cbn [negb]; [|by eexists].
  unfold try_except, bind, read_text.
  destruct (FS.read_text _ _) as [text|e]; [|by eexists].
  destruct (loads text); by eexists.
Qed.










(** C10: With a non-empty message, [cron] with action [add] takes a
    schedule argument that is absent, zero or empty for missing: when all
    three are, it answers with the missing-schedule error and creates no
    job. *)
Theorem cron_add_schedule_truthiness :
  forall message every_seconds cron_expr at_ job_id w ws,
    _workspace w = (Ok ws, w) ->
    message <> EmptyString ->
    falsy_int every_seconds -> falsy_str cron_expr -> falsy_str at_ ->
    cron "add" message every_seconds cron_expr at_ job_id w
    = (Ok missing_schedule, w).
Proof.
  intros message every_seconds cron_expr at_ job_id w ws Hws Hm He Hc Ha.
  destruct (load_run w ws Hws) as [jobs Hload].
  unfold cron. rewrite (bind_ok _ _ _ _ _ Hload).
  change (String.eqb "add" "list") with false.
  change (String.eqb "add" "remove") with false.
  change (String.eqb "add" "add") with true. cbn iota.
  destruct message as [|c m]; [done|]. cbn [Str.is_empty].
  by destruct He as [-> | ->], Hc as [-> | ->], Ha as [-> | ->].
Qed.

Lemma cron_add_schedule_truthiness_witness :
  let w := Sample.empty_workspace in
  cron "add" "water the plants" (Some 0%Z) None None None w = (Ok missing_schedule, w)
  /\ cron "add" "water the plants" None (Some EmptyString) None None w
     = (Ok missing_schedule, w)
  /\ cron "add" "water the plants" None None (Some EmptyString) None w
     = (Ok missing_schedule, w).
Proof.
  intros w.
  pose proof (fun e c a He Hc Ha =>
                cron_add_schedule_truthiness "water the plants" e c a None w ["work"]
                  eq_refl ltac:(discriminate) He Hc Ha) as H.
  unfold falsy_int, falsy_str in H.
  repeat split; apply H; auto.
Defined.

End CronFacts.

(** ** More facts about the file tree: what an operation leaves alone *)

Module TreeFacts.
Import FS Aux FSFacts.

Lemma node_at_app (p k : abspath) :
  forall n, node_at (p ++ k) n = node_at p n ≫= node_at k.
Proof.
  induction p as [|c p IH]; intros n; [done|].
  destruct n as [d|es]; [done|]. simpl.
  destruct (alist_get c es); [apply IH|done].
Qed.

(** Whatever lies below a path lies in a directory. *)
Lemma below_is_dir (p : abspath) (c : string) (k : abspath) (n x : node) :
  node_at (p ++ c :: k) n = Some x -> exists es, node_at p n = Some (Dir es).
Proof.
  rewrite node_at_app. destruct (node_at p n) as [[d|es]|]; [done|eauto|done].
Qed.

Lemma set_at_frame (p : abspath) :
  forall q n new d,
    node_at q n = Some (File d) -> ~ p `prefix_of` q ->
    node_at q (set_at p new n) = Some (File d).
Proof.
  induction p as [|c p IH]; intros q n new d Hq Hp.
  { destruct Hp. apply prefix_nil. }
  destruct n as [d'|es]; [done|].
  destruct q as [|c' q]; [done|].
  simpl in Hq. destruct (alist_get c' es) as [child'|] eqn:E'; [|done].
  simpl. destruct (String.eqb_spec c c') as [->|Hne].
  - rewrite E'. simpl. rewrite alist_get_put. apply IH; [done|].
    intros [k ->]. apply Hp. by exists k.
  - destruct (alist_get c es) as [child|] eqn:E.
    + simpl. rewrite alist_get_put_ne, E' by done. done.
    + destruct p; simpl; [rewrite alist_get_put_ne by done|]; by rewrite E'.
Qed.

(** Storing a file keeps every other file. *)
Lemma store_frame keep (p : abspath) (data : string) (n n' : node) q d :
  store keep p data n = Ok n' ->
  node_at q n = Some (File d) -> q <> p ->
  node_at q n' = Some (File d).
Proof.
  intros Hs Hq Hne.
  assert (~ p `prefix_of` q) as Hp.
  { intros [[|c k] ->]; [by rewrite app_nil_r in Hne|].
    apply below_is_dir in Hq as [es Hq]. unfold store in Hs.
    rewrite Hq in Hs. done. }
  unfold store in Hs.
  destruct (node_at p n) as [[old|es]|]; [|done|].
  - injection Hs as <-. by apply set_at_frame.
  - destruct (node_at (parent p) n) as [[?|?]|]; try done.
    injection Hs as <-. by apply set_at_frame.
Qed.

(** Making directories keeps every file. *)
Lemma mkdir_go_frame (full p : abspath) :
  forall n n' q d,
    mkdir_go full p n = Ok n' ->
    node_at q n = Some (File d) -> node_at q n' = Some (File d).
Proof.
  induction p as [|c p IH]; intros n n' q d Hm Hq.
  - destruct n; [done|]. by injection Hm as <-.
  - destruct n as [d'|es]; [done|]. simpl in Hm.
    destruct (mkdir_go full p (default (Dir []) (alist_get c es)))
      as [child|e] eqn:E; [|done].
    injection Hm as <-.
    destruct q as [|c' q]; [done|].
    simpl in Hq. destruct (alist_get c' es) as [child'|] eqn:E'; [|done].
    simpl. destruct (String.eqb_spec c c') as [->|Hne].
    + rewrite alist_get_put. rewrite E' in E. simpl in E. eauto.
    + rewrite alist_get_put_ne, E' by done. done.
Qed.


Lemma under_file_nil (n : node) : under_file [] n = false.
Proof. by destruct n. Qed.



(** Making the directories down to [p] adds nothing below [p]. *)
Lemma mkdir_go_child (full p : abspath) (x : string) :
  forall n n',
    mkdir_go full p n = Ok n' -> node_at (p ++ [x]) n' = node_at (p ++ [x]) n.
Proof.
  induction p as [|c p IH]; intros n n' H.
  - destruct n; [done|]. by injection H as <-.
  - destruct n as [d|es]; [done|]. simpl in H.
    destruct (mkdir_go full p (default (Dir []) (alist_get c es)))
      as [child|e] eqn:E; [|done].
    injection H as <-. simpl. rewrite alist_get_put.
    rewrite (IH _ _ E).
    destruct (alist_get c es) as [child0|]; [done|].
    simpl. by destruct p.
Qed.

Lemma parent_snoc (p : abspath) (x : string) : parent (p ++ [x]) = p.
Proof. apply removelast_last. Qed.

End TreeFacts.

(** ** [write_file] *)

Module FileToolsMore.
Import Tools StrFacts FSFacts Effects TreeFacts Notions.

Lemma resolve_path_at path w t :
  _resolve_path path (with_fs w t) = (fst (_resolve_path path w), with_fs w t).
Proof. apply env_only_resolve_path. Qed.

Lemma resolve_path_fst path w :
  _resolve_path path w = (fst (_resolve_path path w), w).
Proof. apply env_only_pure, env_only_resolve_path. Qed.

(** What [write_file] does, step by step. *)
Lemma write_file_cases path content w :
  write_file path content w
  = match fst (_resolve_path path w) with
    | Raise e => (Ok ("Error writing file: " +:+ str_exn e), w)
    | Ok target =>
        match FS.mkdir (FS.parent target) (fs w) with
        | Raise e => (Ok ("Error writing file: " +:+ str_exn e), w)
        | Ok t1 =>
            match FS.write_text target content t1 with
            | Raise e => (Ok ("Error writing file: " +:+ str_exn e), with_fs w t1)
            | Ok t2 =>
                (Ok ("Successfully wrote " +:+ pretty (Str.len content)
                     +:+ " bytes to " +:+ str_path target), with_fs w t2)
            end
        end
    end.
Proof.
  unfold write_file, try_except, bind at 1.
  rewrite (resolve_path_fst path w).
  destruct (fst (_resolve_path path w)) as [target|e]; cbn [fst]; [|done].
  unfold bind, mkdir, write_text, update_fs.
  destruct (FS.mkdir (FS.parent target) (fs w)) as [t1|e]; [|done].
  cbn [fs with_fs].
  destruct (FS.write_text target content t1) as [t2|e]; done.
Qed.








(** X3: [write_file] touches one file only: every other regular file is
    where it was and holds what it held, whether the write succeeds or
    not, and nothing but the file tree changes. *)
Theorem write_file_frame :
  forall path content w r w' q d,
    write_file path content w = (r, w') ->
    FS.node_at q (fs w) = Some (File d) ->
    fst (_resolve_path path w) <> Ok q ->
    FS.node_at q (fs w') = Some (File d) /\ w' = with_fs w (fs w').
Proof.
  intros path content w r w' q d. rewrite write_file_cases.
  destruct (fst (_resolve_path path w)) as [target|e].
  2:{ intros [= <- <-] Hq _. by rewrite with_fs_id. }
  destruct (FS.mkdir (FS.parent target) (fs w)) as [t1|e] eqn:Hm.
  2:{ intros [= <- <-] Hq _. by rewrite with_fs_id. }
  intros H Hq Hne.
  pose proof (mkdir_go_frame _ _ _ _ _ _ Hm Hq) as Hq1.
  destruct (FS.write_text target content t1) as [t2|e] eqn:Hw;
    injection H as <- <-; cbn [fs with_fs]; split; try done.
  eapply store_frame; [exact Hw|done|]. by intros ->.
Qed.

Lemma write_file_frame_witness :
  let w := Sample.world (Dir [("work", Dir [("a.txt", File "x"); ("b.txt", File "y")])]) in
  FS.node_at ["work"; "b.txt"] (fs (snd (write_file "a.txt" "new" w)))
  = Some (File "y").
Proof.
  intros w.
  refine (proj1 (write_file_frame "a.txt" "new" w
                   (fst (write_file "a.txt" "new" w)) _
                   ["work"; "b.txt"] "y" _ eq_refl _)).
  - by destruct (write_file "a.txt" "new" w).
  - vm_compute. by intros [=].
Defined.

(** X4: Where [write_file] has succeeded once, it succeeds again with any
    content, and the file then holds the content written last. *)
Theorem write_file_overwrites :
  forall path first second w r w',
    write_file path first w = (Ok r, w') ->
    Str.startswith r "Successfully wrote" = true ->
    exists target w'',
      write_file path second w'
      = (Ok ("Successfully wrote " +:+ pretty (Str.len second)
             +:+ " bytes to " +:+ str_path target), w'')
      /\ FS.node_at target (fs w'') = Some (File second).
Proof.
  intros path first second w r w'. rewrite write_file_cases.
  destruct (fst (_resolve_path path w)) as [target|e] eqn:Hres;
    [|by intros [= <- <-]].
  destruct (FS.mkdir (FS.parent target) (fs w)) as [t1|e] eqn:Hm;
    [|by intros [= <- <-]].
  destruct (FS.write_text target first t1) as [t2|e] eqn:Hw;
    [|by intros [= <- <-]].
  intros [= <- <-] _. exists target.
  rewrite write_file_cases, resolve_path_at, Hres. cbn [fst fs with_fs].
  pose proof (write_text_node_at _ _ _ _ Hw) as Hn.
  assert (FS.mkdir (FS.parent target) t2 = Ok t2) as ->.
  { unfold FS.mkdir. destruct target as [|x p _] using rev_ind.
    - unfold FS.mkdir in Hm. simpl in Hm.
      destruct (fs w); [done|]. by injection Hm as <-.
    - rewrite parent_snoc.
      destruct (below_is_dir p x [] _ _ Hn) as [es0 H0].
      apply (mkdir_go_existing _ _ _ _ H0). }
  unfold FS.write_text at 1, FS.store. rewrite Hn.
  eexists. split; [done|]. cbn [fs with_fs].
  apply node_at_set_at. left. eauto.
Qed.

Lemma write_file_overwrites_witness :
  let w := Sample.empty_workspace in
  exists target w'',
    write_file "n.txt" "two" (snd (write_file "n.txt" "one" w))
    = (Ok ("Successfully wrote " +:+ pretty (Str.len "two")
           +:+ " bytes to " +:+ str_path target), w'')
    /\ FS.node_at target (fs w'') = Some (File "two").
Proof.
  intros w.
  apply (write_file_overwrites "n.txt" "one" "two" w
           "Successfully wrote 3 bytes to /work/n.txt"); reflexivity.
Defined.

End FileToolsMore.

(** ** Orders and sorting *)

Module OrderFacts.
Import Notions.

Lemma ascii_compare_refl (a : ascii) : Ascii.compare a a = Eq.
Proof. unfold Ascii.compare. apply N.compare_refl. Qed.

Lemma ascii_compare_lt_trans (a b c : ascii) :
  Ascii.compare a b = Lt -> Ascii.compare b c = Lt -> Ascii.compare a c = Lt.
Proof.
  unfold Ascii.compare. rewrite !N.compare_lt_iff. lia.
Qed.

Lemma compare_lt_trans (s1 : string) :
  forall s2 s3,
    String.compare s1 s2 = Lt -> String.compare s2 s3 = Lt ->
    String.compare s1 s3 = Lt.
Proof.
  induction s1 as [|a s1 IH]; intros [|b s2] [|c s3]; simpl; try done.
  destruct (Ascii.compare a b) eqn:Hab; try done.
  - apply Ascii.compare_eq_iff in Hab as ->.
    destruct (Ascii.compare b c); try done. apply IH.
  - destruct (Ascii.compare b c) eqn:Hbc; try done.
    + apply Ascii.compare_eq_iff in Hbc as <-. by rewrite Hab.
    + by rewrite (ascii_compare_lt_trans _ _ _ Hab Hbc).
Qed.

Lemma leb_trans (s1 s2 s3 : string) :
  String.leb s1 s2 = true -> String.leb s2 s3 = true -> String.leb s1 s3 = true.
Proof.
  unfold String.leb.
  destruct (String.compare s1 s2) eqn:H12; try done;
    destruct (String.compare s2 s3) eqn:H23; try done; intros _ _.
  - apply String.compare_eq_iff in H12 as ->. by rewrite H23.
  - apply String.compare_eq_iff in H12 as ->. by rewrite H23.
  - apply String.compare_eq_iff in H23 as <-. by rewrite H12.
  - by rewrite (compare_lt_trans _ _ _ H12 H23).
Qed.

Section Sort.
Context {A : Type} (leb : A -> A -> bool).
Hypothesis leb_total : forall x y, leb x y = true \/ leb y x = true.
Hypothesis leb_transitive :
  forall x y z, leb x y = true -> leb y z = true -> leb x z = true.

Lemma insert_by_perm x l : insert_by leb x l ≡ₚ x :: l.
Proof.
  induction l as [|y l IH]; [done|]. simpl.
  destruct (leb x y); [done|]. rewrite IH. apply Permutation_swap.
Qed.

Lemma sort_by_perm l : sort_by leb l ≡ₚ l.
Proof.
  induction l as [|x l IH]; [done|]. simpl.
  by rewrite insert_by_perm, IH.
Qed.

Lemma insert_by_sorted x l :
  StronglySorted (fun a b => leb a b = true) l ->
  StronglySorted (fun a b => leb a b = true) (insert_by leb x l).
Proof.
  induction 1 as [|y l Hs IH Hy]; simpl.
  - by repeat constructor.
  - destruct (leb x y) eqn:E.
    + constructor; [by constructor|]. constructor; [done|].
      eapply Forall_impl; [exact Hy|]. intros z Hz. eauto.
    + constructor; [done|].
      rewrite (insert_by_perm x l). constructor; [|done].
      destruct (leb_total x y) as [H|H]; [congruence|done].
Qed.

Lemma sort_by_sorted l : StronglySorted (fun a b => leb a b = true) (sort_by leb l).
Proof.
  induction l as [|x l IH]; simpl; [constructor|by apply insert_by_sorted].
Qed.

End Sort.



End OrderFacts.

(** ** [list_dir] *)

Module ListDirFacts.
Import Tools StrFacts FSFacts Effects TreeFacts Notions OrderFacts FileToolsMore.

Lemma child_keys_run target names w :
  child_keys target names w
  = (Ok ((fun n => ((negb (FS.is_dir (target ++ [n]) (fs w)), Str.lower n), n))
           <$> names), w).
Proof.
  induction names as [|n names IH]; [done|].
  cbn [child_keys]. unfold bind at 1, is_dir, get.
  unfold bind at 1. by rewrite IH.
Qed.

Lemma dir_entries_run target names w :
  dir_entries target names w
  = (Ok ((fun n => (if FS.is_dir (target ++ [n]) (fs w) then "[D]" else "[F]")
                   +:+ " " +:+ n) <$> names), w).
Proof.
  induction names as [|n names IH]; [done|].
  cbn [dir_entries]. unfold bind at 1, is_dir, get.
  unfold bind at 1. by rewrite IH.
Qed.

Lemma sorted_children_sort_by l :
  sorted_children l = sort_by (fun x y => key_leb (fst x) (fst y)) l.
Proof.
  unfold sorted_children, sort_by. induction l as [|x l IH]; [done|].
  simpl. rewrite IH. generalize (foldr (insert_by (fun x y => key_leb x.1 y.1)) [] l).
  intros l'. induction l' as [|y l' IH']; [done|]. simpl. by rewrite IH'.
Qed.

Lemma key_leb_total a b : key_leb a b = true \/ key_leb b a = true.
Proof.
  destruct a as [[] s], b as [[] t]; unfold key_leb; simpl; auto;
    apply String.leb_total.
Qed.

Lemma key_leb_trans a b c :
  key_leb a b = true -> key_leb b c = true -> key_leb a c = true.
Proof.
  destruct a as [[] s], b as [[] t], c as [[] u]; unfold key_leb; simpl;
    try done; apply leb_trans.
Qed.

(** A list sorted by a key whose first component is a flag has the
    elements without the flag first. *)
Lemma flag_partition {A} (l : list ((bool * string) * A)) :
  StronglySorted (fun x y => key_leb (fst x) (fst y) = true) l ->
  l = filter (fun x => x.1.1 = false) l ++ filter (fun x => x.1.1 = true) l.
Proof.
  induction 1 as [|x l Hs IH Hx]; [done|].
  destruct (x.1.1) eqn:E.
  - rewrite filter_cons_False by congruence.
    rewrite filter_cons_True by done.
    assert (filter (fun x => x.1.1 = false) l = []) as ->.
    { clear -Hx E. induction Hx as [|y l Hy Hl IH]; [done|].
      rewrite filter_cons_False; [done|].
      unfold key_leb in Hy. rewrite E in Hy.
      destruct (y.1.1); [done|]. simpl in Hy. done. }
    simpl. f_equal.
    clear -Hx E. induction Hx as [|y l Hy Hl IH]; [done|].
    rewrite filter_cons_True; [by f_equal|].
    unfold key_leb in Hy. rewrite E in Hy. by destruct (y.1.1).
  - rewrite filter_cons_True by done.
    rewrite filter_cons_False by congruence.
    simpl. by f_equal.
Qed.

(** What [list_dir] answers on a directory. *)
Lemma list_dir_run path w target es :
  _resolve_path path w = (Ok target, w) ->
  FS.node_at target (fs w) = Some (Dir es) ->
  list_dir path w
  = (Ok (match
            (fun n => (if FS.is_dir (target ++ [n]) (fs w) then "[D]" else "[F]")
                      +:+ " " +:+ n)
            <$> (sorted_children
                   ((fun n => ((negb (FS.is_dir (target ++ [n]) (fs w)),
                                Str.lower n), n)) <$> es.*1)).*2
          with
          | [] => "Directory " +:+ str_path target +:+ " is empty"
          | entries => Str.join Str.NL entries
          end), w).
Proof.
  intros Hres Hnode.
  unfold list_dir, try_except. rewrite (bind_ok _ _ _ _ _ Hres).
  unfold bind at 1, exists_, get, FS.exists_. rewrite Hnode. cbn [negb].
  unfold bind at 1, is_dir, get, FS.is_dir. rewrite Hnode. cbn [negb].
  unfold bind at 1, iterdir, FS.iterdir. rewrite Hnode.
  unfold bind at 1. rewrite child_keys_run.
  unfold bind at 1. rewrite dir_entries_run.
  unfold bind, ret. f_equal. f_equal.
  by destruct (_ <$> _).
Qed.

Lemma sorted_fmap_on {A B} (P : A -> Prop) (R : relation A) (R' : relation B)
    (f : A -> B) (l : list A) :
  StronglySorted R l -> Forall P l ->
  (forall x y, P x -> P y -> R x y -> R' (f x) (f y)) ->
  StronglySorted R' (f <$> l).
Proof.
  intros Hs Hp Himp. induction Hs as [|x l Hs IH Hx]; [constructor|].
  apply Forall_cons in Hp as [Hpx Hp]. simpl. constructor; [by apply IH|].
  apply Forall_fmap, Forall_forall. intros y Hy.
  apply Himp; [done| |].
  - by apply (proj1 (Forall_forall _ _) Hp).
  - by apply (proj1 (Forall_forall _ _) Hx).
Qed.

(** X5: [list_dir] on a directory lists every child once, the directories
    first and then the files, each group in the order of the lower-cased
    names, one line for each child with its kind in front; an empty
    directory is reported as such.  The world is left as it was. *)
Theorem list_dir_sorted_listing :
  forall path w target es,
    _resolve_path path w = (Ok target, w) ->
    FS.node_at target (fs w) = Some (Dir es) ->
    exists dirs files,
      list_dir path w
      = (Ok (match es with
             | [] => "Directory " +:+ str_path target +:+ " is empty"
             | _ => Str.join Str.NL
                      ((String.append "[D] " <$> dirs)
                       ++ (String.append "[F] " <$> files))
             end), w)
      /\ dirs ++ files ≡ₚ es.*1
      /\ Forall (fun n => FS.is_dir (target ++ [n]) (fs w) = true) dirs
      /\ Forall (fun n => FS.is_dir (target ++ [n]) (fs w) = false) files
      /\ StronglySorted (fun a b => lower_leb a b = true) dirs
      /\ StronglySorted (fun a b => lower_leb a b = true) files.
Proof.
  intros path w target es Hres Hnode.
  set (key := fun n => ((negb (FS.is_dir (target ++ [n]) (fs w)), Str.lower n), n)).
  set (L := sorted_children (key <$> es.*1)).
  exists (snd <$> filter (fun x => x.1.1 = false) L),
         (snd <$> filter (fun x => x.1.1 = true) L).
  assert (L ≡ₚ key <$> es.*1) as Hperm.
  { unfold L. rewrite sorted_children_sort_by. apply sort_by_perm. }
  assert (StronglySorted (fun x y => key_leb (fst x) (fst y) = true) L) as Hsorted.
  { unfold L. rewrite sorted_children_sort_by.
    apply sort_by_sorted; intros; [apply key_leb_total|by eapply key_leb_trans]. }
  assert (Forall (fun x => x = key x.2) L) as Hkey.
  { rewrite Hperm. apply Forall_fmap, Forall_true. done. }
  pose proof (flag_partition L Hsorted) as Hpart.
  assert (forall b, Forall (fun x => x = key x.2) (filter (fun x => x.1.1 = b) L))
    as Hkey'.
  { intros b. apply Forall_forall. intros x [_ Hx]%list_elem_of_filter.
    by apply (proj1 (Forall_forall _ _) Hkey). }
  split; [|split; [|split; [|split; [|split]]]].
  - rewrite (list_dir_run path w target es Hres Hnode). fold key. fold L.
    f_equal. f_equal.
    destruct es as [|e es'].
    { done. }
    assert (L <> []) as HL.
    { intros HL. rewrite HL in Hperm. by apply Permutation_nil_l in Hperm. }
    set (tag := fun n : string => _).
    assert (tag <$> L.*2
            = (String.append "[D] " <$> (filter (fun x => x.1.1 = false) L).*2)
              ++ (String.append "[F] " <$> (filter (fun x => x.1.1 = true) L).*2))
      as ->.
    { rewrite Hpart at 1. rewrite !fmap_app. f_equal.
      - apply Forall_fmap_ext_1. apply Forall_fmap. apply Forall_forall.
        intros x [Hf Hx]%list_elem_of_filter.
        apply (proj1 (Forall_forall _ _) Hkey) in Hx. rewrite Hx in Hf.
        simpl in Hf. unfold tag. simpl.
        by destruct (FS.is_dir (target ++ [x.2]) (fs w)).
      - apply Forall_fmap_ext_1. apply Forall_fmap. apply Forall_forall.
        intros x [Hf Hx]%list_elem_of_filter.
        apply (proj1 (Forall_forall _ _) Hkey) in Hx. rewrite Hx in Hf.
        simpl in Hf. unfold tag. simpl.
        by destruct (FS.is_dir (target ++ [x.2]) (fs w)). }
    destruct ((String.append "[D] " <$> _) ++ _) eqn:E; [|done].
    apply app_eq_nil in E as [E1 E2].
    apply fmap_nil_inv, fmap_nil_inv in E1.
    apply fmap_nil_inv, fmap_nil_inv in E2.
    rewrite E1, E2 in Hpart. done.
  - rewrite <- fmap_app, <- Hpart, Hperm, <- list_fmap_compose.
    by rewrite list_fmap_id.
  - apply Forall_fmap, Forall_forall. intros x [Hf Hx]%list_elem_of_filter.
    apply (proj1 (Forall_forall _ _) Hkey) in Hx. rewrite Hx in Hf.
    simpl in *. by destruct (FS.is_dir (target ++ [x.2]) (fs w)).
  - apply Forall_fmap, Forall_forall. intros x [Hf Hx]%list_elem_of_filter.
    apply (proj1 (Forall_forall _ _) Hkey) in Hx. rewrite Hx in Hf.
    simpl in *. by destruct (FS.is_dir (target ++ [x.2]) (fs w)).
  - rewrite Hpart in Hsorted. apply StronglySorted_app_1_l in Hsorted.
    eapply sorted_fmap_on; [exact Hsorted| |].
    + apply Forall_forall. intros x Hx.
      exact (conj (proj1 (Forall_forall _ _) (Hkey' false) x Hx)
               (proj1 (proj1 (list_elem_of_filter _ _ _) Hx))).
    + intros x y [Hx Hfx] [Hy Hfy]. unfold key_leb, lower_leb.
      rewrite Hfx, Hfy, Hx, Hy. done.
  - rewrite Hpart in Hsorted. apply StronglySorted_app_1_r in Hsorted.
    eapply sorted_fmap_on; [exact Hsorted| |].
    + apply Forall_forall. intros x Hx.
      exact (conj (proj1 (Forall_forall _ _) (Hkey' true) x Hx)
               (proj1 (proj1 (list_elem_of_filter _ _ _) Hx))).
    + intros x y [Hx Hfx] [Hy Hfy]. unfold key_leb, lower_leb.
      rewrite Hfx, Hfy, Hx, Hy. done.
Qed.

Lemma list_dir_sorted_listing_witness :
  let w := Sample.world
             (Dir [("work", Dir [("b.txt", File "x"); ("Zoo", Dir []);
                                 ("a.txt", File "y"); ("apps", Dir [])])]) in
  list_dir "." w
  = (Ok ("[D] apps" +:+ Str.NL +:+ "[D] Zoo" +:+ Str.NL
         +:+ "[F] a.txt" +:+ Str.NL +:+ "[F] b.txt"), w)
  /\ exists dirs files,
      dirs ++ files ≡ₚ ["b.txt"; "Zoo"; "a.txt"; "apps"]
      /\ StronglySorted (fun a b => lower_leb a b = true) dirs.
Proof.
  intros w. split; [reflexivity|].
  destruct (list_dir_sorted_listing "." w ["work"] _ eq_refl eq_refl)
    as (dirs & files & _ & Hp & _ & _ & Hd & _).
  by exists dirs, files.
Defined.

End ListDirFacts.

(** ** [edit_file], and the file tools together *)

Module EditFacts.
Import Tools StrFacts FSFacts Effects TreeFacts Notions ReplaceFacts FileToolsMore.

(** What [edit_file] does, step by step. *)
Lemma edit_file_cases path old_text new_text w :
  edit_file path old_text new_text w
  = match fst (_resolve_path path w) with
    | Raise e => (Ok ("Error editing file: " +:+ str_exn e), w)
    | Ok target =>
        match FS.node_at target (fs w) with
        | None => (Ok ("Error: File not found: " +:+ path), w)
        | Some (Dir _) => (Ok ("Error: Not a file: " +:+ path), w)
        | Some (File data) =>
            let content := FS.universal_newlines data in
            let count := Str.count content old_text in
            if (count =? 0)%nat
            then (Ok "Error: old_text not found in file. Make sure it matches exactly.", w)
            else if (1 <? count)%nat
            then (Ok ("Warning: old_text appears " +:+ pretty count
                      +:+ " times. Please provide more context to make it unique."), w)
            else (Ok ("Successfully edited " +:+ str_path target),
                  with_fs w (FS.set_at target
                               (File (Str.replace content old_text new_text (Some 1)))
                               (fs w)))
        end
    end.
Proof.
  unfold edit_file, try_except, bind at 1.
  rewrite (resolve_path_fst path w).
  destruct (fst (_resolve_path path w)) as [target|e]; cbn [fst]; [|done].
  unfold bind at 1, exists_, get, FS.exists_.
  destruct (FS.node_at target (fs w)) as [[data|es]|] eqn:E; cbn [negb]; [| |done].
  - unfold bind at 1, is_file, get, FS.is_file. rewrite E. cbn [negb].
    unfold bind at 1, read_text, FS.read_text. rewrite E. cbv zeta.
    destruct (_ =? 0)%nat; [done|]. destruct (1 <? _)%nat; [done|].
    unfold bind, write_text, update_fs, FS.write_text, FS.store. by rewrite E.
  - unfold bind at 1, is_file, get, FS.is_file. by rewrite E.
Qed.

(** X6: [edit_file] never raises, and unless it answers with the success
    message it changes nothing. *)
Theorem edit_file_changes_only_on_success :
  forall path old_text new_text w r w',
    edit_file path old_text new_text w = (r, w') ->
    exists s, r = Ok s
              /\ (Str.startswith s "Successfully edited" = false -> w' = w).
Proof.
  intros path old_text new_text w r w'. rewrite edit_file_cases.
  destruct (fst (_resolve_path path w)) as [target|e];
    [|intros [= <- <-]; eauto].
  destruct (FS.node_at target (fs w)) as [[data|es]|];
    [|intros [= <- <-]; eauto..].
  cbv zeta. destruct (_ =? 0)%nat; [intros [= <- <-]; eauto|].
  destruct (1 <? _)%nat; intros [= <- <-]; eauto.
  eexists. split; [done|]. done.
Qed.

Lemma edit_file_changes_only_on_success_witness :
  let w := Sample.world (Dir [("work", Dir [("a.txt", File "x")])]) in
  snd (edit_file "a.txt" "y" "z" w) = w.
Proof.
  intros w.
  destruct (edit_file_changes_only_on_success "a.txt" "y" "z" w
              (fst (edit_file "a.txt" "y" "z" w)) (snd (edit_file "a.txt" "y" "z" w)))
    as (s & Hs & H).
  - by destruct (edit_file "a.txt" "y" "z" w).
  - apply H. vm_compute in Hs. injection Hs as <-. reflexivity.
Defined.

(** X7: [edit_file] touches one file only: every other regular file is
    where it was and holds what it held. *)
Theorem edit_file_frame :
  forall path old_text new_text w r w' q d,
    edit_file path old_text new_text w = (r, w') ->
    FS.node_at q (fs w) = Some (File d) ->
    fst (_resolve_path path w) <> Ok q ->
    FS.node_at q (fs w') = Some (File d) /\ w' = with_fs w (fs w').
Proof.
  intros path old_text new_text w r w' q d. rewrite edit_file_cases.
  assert (forall r0, (r0, w) = (r, w') ->
            FS.node_at q (fs w) = Some (File d) ->
            FS.node_at q (fs w') = Some (File d) /\ w' = with_fs w (fs w')) as Hsame.
  { intros r0 [= <- <-] Hq. by rewrite with_fs_id. }
  destruct (fst (_resolve_path path w)) as [target|e]; [|by eauto].
  destruct (FS.node_at target (fs w)) as [[data|es]|] eqn:E; [|by eauto..].
  cbv zeta. destruct (_ =? 0)%nat; [by eauto|].
  destruct (1 <? _)%nat; [by eauto|].
  intros [= <- <-] Hq Hne. cbn [fs with_fs]. split; [|done].
  apply set_at_frame; [done|].
  intros [[|c k] ->]; [by rewrite app_nil_r in Hne|].
  apply below_is_dir in Hq as [es Hq]. by rewrite Hq in E.
Qed.

Lemma edit_file_frame_witness :
  let w := Sample.world (Dir [("work", Dir [("a.txt", File "x"); ("b.txt", File "y")])]) in
  FS.node_at ["work"; "b.txt"] (fs (snd (edit_file "a.txt" "x" "z" w)))
  = Some (File "y").
Proof.
  intros w.
  refine (proj1 (edit_file_frame "a.txt" "x" "z" w
                   (fst (edit_file "a.txt" "x" "z" w)) _
                   ["work"; "b.txt"] "y" _ eq_refl _)).
  - by destruct (edit_file "a.txt" "x" "z" w).
  - vm_compute. by intros [=].
Defined.

Lemma has_app c (a b : string) : Aux.has c (a +:+ b) = Aux.has c a || Aux.has c b.
Proof.
  induction a as [|x a IH]; [done|]. simpl. by rewrite IH, orb_assoc.
Qed.

Lemma has_contains c (s : string) : Str.contains s (Str.of_char c) = Aux.has c s.
Proof.
  induction s as [|x s IH]; [done|].
  rewrite contains_char_cons, IH. simpl. by rewrite Ascii.eqb_sym.
Qed.

(** Text read with universal newlines has no carriage return. *)
Lemma universal_newlines_no_cr (s : string) :
  Aux.has Char.CR (FS.universal_newlines s) = false.
Proof.
  assert (forall n s, String.length s <= n ->
            Aux.has Char.CR (FS.universal_newlines s) = false) as H.
  { clear s. induction n as [|n IH]; intros [|c s] Hn; simpl in Hn; try done; [lia|].
    cbn [FS.universal_newlines].
    destruct (Ascii.eqb c Char.CR) eqn:E.
    - destruct s as [|c' s]; [done|].
      destruct (Ascii.eqb c' Char.NL); cbn [Aux.has]; rewrite IH; try done;
        simpl in *; lia.
    - cbn [Aux.has]. rewrite E. apply IH. lia. }
  by apply (H (String.length s)).
Qed.

(** X8: After a successful [edit_file], [read_file] gives the text it gave
    before with the one occurrence of [old_text] replaced by [new_text]
    (which is to have no carriage return). *)
Theorem edit_then_read :
  forall path old_text new_text w s w',
    edit_file path old_text new_text w = (Ok s, w') ->
    Str.startswith s "Successfully edited" = true ->
    Str.contains new_text (Str.of_char Char.CR) = false ->
    exists before after,
      read_file path w = (Ok (before +:+ old_text +:+ after), w)
      /\ read_file path w' = (Ok (before +:+ new_text +:+ after), w').
Proof.
  intros path old_text new_text w s w'. rewrite edit_file_cases.
  destruct (fst (_resolve_path path w)) as [target|e] eqn:Hres;
    [|by intros [= <- <-]].
  destruct (FS.node_at target (fs w)) as [[data|es]|] eqn:E;
    [|by intros [= <- <-]..].
  cbv zeta.
  destruct (Nat.eqb_spec (Str.count (FS.universal_newlines data) old_text) 0)
    as [|Hc0]; [by intros [= <- <-]|].
  destruct (Nat.ltb_spec 1 (Str.count (FS.universal_newlines data) old_text))
    as [|Hc1]; [by intros [= <- <-]|].
  intros [= <- <-] _ Hcr.
  destruct (replace_first (FS.universal_newlines data) old_text new_text)
    as (before & after & Hsplit & Hrep); [lia| |].
  { intros ->. unfold Str.count in Hc1. cbn [Str.is_empty] in Hc1.
    destruct (FS.universal_newlines data); [done|]. simpl in Hc1. lia. }
  exists before, after.
  pose proof (resolve_path_fst path w) as Hr. rewrite Hres in Hr.
  split.
  - unfold read_file, try_except. rewrite (bind_ok _ _ _ _ _ Hr).
    unfold bind at 1, exists_, get, FS.exists_. rewrite E. cbn [negb].
    unfold bind at 1, is_file, get, FS.is_file. rewrite E. cbn [negb].
    unfold bind, read_text, FS.read_text. by rewrite E, Hsplit.
  - set (t := FS.set_at _ _ _).
    assert (FS.node_at target t
            = Some (File (Str.replace (FS.universal_newlines data) old_text
                            new_text (Some 1)))) as Hn.
    { apply node_at_set_at. left. eauto. }
    pose proof (resolve_path_at path w t) as Hr'. rewrite Hres in Hr'.
    unfold read_file, try_except. rewrite (bind_ok _ _ _ _ _ Hr').
    unfold bind at 1, exists_, get, FS.exists_. cbn [fs with_fs].
    rewrite Hn. cbn [negb].
    unfold bind at 1, is_file, get, FS.is_file. cbn [fs with_fs].
    rewrite Hn. cbn [negb].
    unfold bind, read_text, FS.read_text. cbn [fs with_fs]. rewrite Hn, Hrep.
    rewrite universal_newlines_id; [done|].
    rewrite has_contains, !has_app.
    pose proof (universal_newlines_no_cr data) as Hu.
    rewrite Hsplit, !has_app in Hu.
    apply orb_false_iff in Hu as [-> [_ ->]%orb_false_iff].
    by rewrite <- has_contains, Hcr.
Qed.

Lemma edit_then_read_witness :
  let w := Sample.world (Dir [("work", Dir [("todo.txt", File "milk, eggs")])]) in
  exists before after,
    read_file "todo.txt" w = (Ok (before +:+ "eggs" +:+ after), w)
    /\ read_file "todo.txt" (snd (edit_file "todo.txt" "eggs" "tea" w))
       = (Ok (before +:+ "tea" +:+ after), snd (edit_file "todo.txt" "eggs" "tea" w)).
Proof.
  intros w.
  apply (edit_then_read "todo.txt" "eggs" "tea" w "Successfully edited /work/todo.txt");
    reflexivity.
Defined.

(** X9: The file tools answer with a string whatever goes wrong: none of
    [read_file], [write_file], [edit_file] and [list_dir] raises, and
    [read_file] and [list_dir] leave the world as it was. *)
Theorem file_tools_never_raise :
  forall path content old_text new_text w,
    (exists s, read_file path w = (Ok s, w))
    /\ (exists s, list_dir path w = (Ok s, w))
    /\ (exists s w', write_file path content w = (Ok s, w'))
    /\ (exists s w', edit_file path old_text new_text w = (Ok s, w')).
Proof.
  intros path content old_text new_text w.
  pose proof (resolve_path_fst path w) as Hr.
  split; [|split; [|split]].
  - unfold read_file, try_except, bind at 1. rewrite Hr.
    destruct (fst (_resolve_path path w)) as [target|e]; [|(eexists; reflexivity)].
    unfold bind at 1, exists_, get, FS.exists_.
    destruct (FS.node_at target (fs w)) as [[data|es]|] eqn:E; cbn [negb];
      [| |(eexists; reflexivity)].
    + unfold bind at 1, is_file, get, FS.is_file. rewrite E. cbn [negb].
      unfold bind, read_text, FS.read_text. rewrite E. (eexists; reflexivity).
    + unfold bind at 1, is_file, get, FS.is_file. rewrite E. (eexists; reflexivity).
  - destruct (fst (_resolve_path path w)) as [target|e] eqn:Hres.
    + destruct (FS.node_at target (fs w)) as [[data|es]|] eqn:E.
      * unfold list_dir, try_except. rewrite (bind_ok _ _ _ _ _ Hr).
        unfold bind at 1, exists_, get, FS.exists_. rewrite E. cbn [negb].
        unfold bind at 1, is_dir, get, FS.is_dir. rewrite E. (eexists; reflexivity).
      * rewrite (ListDirFacts.list_dir_run path w target es Hr E). (eexists; reflexivity).
      * unfold list_dir, try_except. rewrite (bind_ok _ _ _ _ _ Hr).
        unfold bind at 1, exists_, get, FS.exists_. rewrite E. (eexists; reflexivity).
    + unfold list_dir, try_except. rewrite (bind_raise _ _ _ _ _ Hr). (eexists; reflexivity).
  - rewrite write_file_cases.
    destruct (fst (_resolve_path path w)); [|(do 2 eexists; reflexivity)].
    destruct (FS.mkdir _ _); [|(do 2 eexists; reflexivity)].
    destruct (FS.write_text _ _ _); (do 2 eexists; reflexivity).
  - rewrite edit_file_cases.
    destruct (fst (_resolve_path path w)); [|(do 2 eexists; reflexivity)].
    destruct (FS.node_at _ _) as [[data|es]|]; [|(do 2 eexists; reflexivity)..].
    cbv zeta. destruct (_ =? 0)%nat; [(do 2 eexists; reflexivity)|].
    destruct (1 <? _)%nat; (do 2 eexists; reflexivity).
Qed.

End EditFacts.

(** ** [_resolve_path] *)

Module PathFacts.
Import PathLib Tools Effects.

Lemma normalize_no_dotdot (todo : list string) :
  forall seen,
    Forall (fun c => c <> "..") seen ->
    Forall (fun c => c <> "..") (normalize seen todo).
Proof.
  induction todo as [|c todo IH]; intros seen Hs; simpl.
  - by apply Forall_rev.
  - destruct (String.eqb_spec c "..") as [->|Hne]; apply IH.
    + destruct seen; [done|]. by apply Forall_cons in Hs as [_ Hs].
    + by constructor.
Qed.

Lemma normalize_plain (todo : list string) :
  forall seen,
    Forall (fun c => c <> "..") todo ->
    normalize seen todo = rev seen ++ todo.
Proof.
  induction todo as [|c todo IH]; intros seen Ht; simpl.
  - by rewrite app_nil_r.
  - apply Forall_cons in Ht as [Hc Ht].
    destruct (String.eqb_spec c "..") as [->|_]; [done|].
    rewrite IH by done. simpl. by rewrite <- List.app_assoc.
Qed.

Lemma resolve_no_dotdot p w target w' :
  resolve p w = (Ok target, w') -> Forall (fun c => c <> "..") target.
Proof.
  unfold resolve, bind, get, ret. intros [= <- _].
  by apply normalize_no_dotdot.
Qed.


(** X10: The path [_resolve_path] returns has no [..] component, whatever
    the argument, the workspace and the working directory are. *)
Theorem resolve_path_no_dotdot :
  forall path w target w',
    _resolve_path path w = (Ok target, w') -> ".." ∉ target.
Proof.
  intros path w target w'. unfold _resolve_path.
  unfold bind at 1. destruct (expanduser (Path path) w) as [[p|e] w0]; [|done].
  unfold bind at 1.
  match goal with
  | |- context [(if ?b then ?x else ?y) w0] =>
      destruct ((if b then x else y) w0) as [[p'|e] w1]; [|done]
  end.
  intros H%resolve_no_dotdot Hin.
  by apply (proj1 (Forall_forall _ _) H) in Hin.
Qed.

Lemma resolve_path_no_dotdot_witness :
  _resolve_path "a/../../../etc/passwd" Sample.empty_workspace
  = (Ok ["etc"; "passwd"], Sample.empty_workspace)
  /\ ".." ∉ ["etc"; "passwd"].
Proof.
  split; [reflexivity|].
  exact (resolve_path_no_dotdot "a/../../../etc/passwd" Sample.empty_workspace
           _ _ eq_refl).
Defined.





End PathFacts.

(** ** The deny patterns on whole words, and what [exec_command] runs *)

Module GuardFacts.
Import Re Tools StrFacts ReFacts Effects ExecFacts Notions.

Lemma search_from_skip r (pre : string) :
  forall w s,
    search_from r (ends_word w pre) s = true ->
    search_from r w (pre +:+ s) = true.
Proof.
  induction pre as [|a pre IH]; intros w s H; [done|].
  rewrite str_app_cons. cbn [search_from]. rewrite (IH _ _ H).
  apply orb_true_r.
Qed.

Lemma consumes_lit_text (word : string) :
  forall w post, consumes (lit word) w (word +:+ post) (ends_word w word) post.
Proof.
  induction word as [|c word IH]; intros w post; [constructor|].
  destruct word as [|c' word'].
  - apply consumes_lit.
  - change (lit (String c (String c' word')))
      with (Seq (Lit c) (lit (String c' word'))).
    eapply consumes_seq; [apply consumes_lit|apply IH].
Qed.

Lemma consumes_alt_in (rs : list regex) r w s w' s' :
  r ∈ rs -> consumes r w s w' s' -> consumes (alt rs) w s w' s'.
Proof.
  intros Hin Hc. induction rs as [|r0 rs IH]; [by apply elem_of_nil in Hin|].
  destruct rs as [|r1 rs].
  - by apply list_elem_of_singleton in Hin as ->.
  - change (alt (r0 :: r1 :: rs)) with (Alt r0 (alt (r1 :: rs))).
    apply elem_of_cons in Hin as [->|Hin].
    + by apply consumes_alt_l.
    + apply consumes_alt_r. by apply IH.
Qed.

Lemma next_is_word_app (word post : string) :
  word <> EmptyString -> next_is_word (word +:+ post) = next_is_word word.
Proof. by destruct word. Qed.

(** A word among the alternatives of [\b(...)\b] is found wherever it
    stands as a whole word. *)
Lemma whole_word_found (words : list string) (word pre post : string) :
  word ∈ words ->
  next_is_word word = true -> ends_word false word = true ->
  ends_word false pre = false -> next_is_word post = false ->
  search (Seq WordB (Seq (alt (lit <$> words)) WordB)) (pre +:+ word +:+ post)
  = true.
Proof.
  intros Hin Hfirst Hlast Hpre Hpost. unfold search.
  apply search_from_skip. rewrite Hpre.
  apply search_from_spec. eapply found_here.
  assert (word <> EmptyString) as Hne by (by intros ->).
  eapply consumes_seq.
  { apply consumes_wordb. by rewrite next_is_word_app, Hfirst. }
  eapply consumes_seq.
  { eapply consumes_alt_in; [|apply consumes_lit_text].
    apply list_elem_of_fmap. eauto. }
  apply consumes_wordb. by rewrite Hlast, Hpost.
Qed.

(** X13: A command that has [format], [mkfs], [diskpart], [shutdown],
    [reboot] or [poweroff] as a whole word, in any letter case and at any
    place, is blocked: the answer is the safety message and nothing is
    run. *)
Theorem exec_command_blocks_whole_words :
  forall command working_dir timeout w pre word post,
    word ∈ blocked_words ->
    Str.lower command = pre +:+ word +:+ post ->
    ends_word false pre = false ->
    Re.next_is_word post = false ->
    exec_command command working_dir timeout w = (Ok blocked_message, w).
Proof.
  intros command working_dir timeout w pre word post Hin Hlow Hpre Hpost.
  unfold exec_command. rewrite denied_lower_strip, Hlow.
  assert (denied (pre +:+ word +:+ post) = true) as ->; [|done].
  assert (next_is_word word = true /\ ends_word false word = true) as [Hf Hl].
  { unfold blocked_words in Hin.
    repeat (apply elem_of_cons in Hin as [->|Hin]; [by split|]).
    by apply elem_of_nil in Hin. }
  apply existsb_exists.
  assert (word ∈ ["format"; "mkfs"; "diskpart"]
          \/ word ∈ ["shutdown"; "reboot"; "poweroff"]) as [H|H].
  { unfold blocked_words in Hin.
    repeat (apply elem_of_cons in Hin as [->|Hin];
            [first [by left; repeat constructor|by right; repeat constructor]|]).
    by apply elem_of_nil in Hin. }
  - exists (Seq WordB (Seq (alt (lit <$> ["format"; "mkfs"; "diskpart"])) WordB)).
    split; [do 3 right; by left|]. by apply whole_word_found.
  - exists (Seq WordB (Seq (alt (lit <$> ["shutdown"; "reboot"; "poweroff"])) WordB)).
    split; [do 6 right; by left|]. by apply whole_word_found.
Qed.

Lemma exec_command_blocks_whole_words_witness :
  exec_command "sudo SHUTDOWN -h now" None 60 Sample.empty_workspace
  = (Ok blocked_message, Sample.empty_workspace).
Proof.
  apply (exec_command_blocks_whole_words _ _ _ _ "sudo " "shutdown" " -h now");
    [|reflexivity..].
  unfold blocked_words. do 3 right. left.
Defined.

Lemma str_app_not_empty (a : string) (c : ascii) (b : string) :
  a +:+ String c b <> EmptyString.
Proof. by destruct a. Qed.

Lemma render_output_not_empty stdout stderr returncode :
  render_output stdout stderr returncode <> EmptyString.
Proof.
  unfold render_output. cbv zeta.
  set (r := Str.strip _).
  destruct (Nat.ltb _ _).
  - apply str_app_not_empty.
  - by destruct r.
Qed.

(** X14: A command that no deny pattern matches is handed to the shell
    exactly once, stripped and in the resolved directory, and
    [exec_command] answers with a string that is not empty whatever the
    run does: complete, time out or fail.  Where the directory cannot be
    resolved the exception is raised and nothing is run. *)
Theorem exec_command_runs_once :
  forall command working_dir timeout w,
    denied (Str.lower command) = false ->
    (forall dir,
        run_dir working_dir w = (Ok dir, w) ->
        exists s,
          exec_command command working_dir timeout w
          = (Ok s,
             with_spawned
               (with_fs w (snd (shell w (Str.strip command) dir timeout (fs w))))
               (spawned w ++ [(Str.strip command, dir)]))
          /\ s <> EmptyString)
    /\ (forall e,
          run_dir working_dir w = (Raise e, w) ->
          exec_command command working_dir timeout w = (Raise e, w)).
Proof.
  intros command working_dir timeout w Hd.
  unfold exec_command. rewrite denied_lower_strip, Hd. split.
  - intros dir Hdir. rewrite (bind_ok _ _ _ _ _ Hdir).
    unfold bind at 1, subprocess_run.
    destruct (shell w (Str.strip command) dir timeout (fs w))
      as [[stdout stderr returncode| |e] tree]; cbn [snd];
      eexists; (split; [reflexivity|]).
    + apply render_output_not_empty.
    + done.
    + done.
  - intros e He. by rewrite (bind_raise _ _ _ _ _ He).
Qed.

Lemma exec_command_runs_once_witness :
  exists s,
    exec_command " ls " None 60 Sample.empty_workspace
    = (Ok s, with_spawned Sample.empty_workspace [("ls", ["work"])])
    /\ s <> EmptyString.
Proof.
  exact (proj1 (exec_command_runs_once " ls " None 60 Sample.empty_workspace eq_refl)
           ["work"] eq_refl).
Defined.

End GuardFacts.

(** ** What [list_skills] lists *)

Module RegistryFacts.
Import PathLib Skills SkillSpec Aux Notions StrFacts FSFacts Effects SkillFacts OrderFacts.

(** What a scan puts in an entry. *)
Lemma scan_children_sound dir src names w :
  forall l,
    scan_children dir src names w = (Ok l, w) ->
    Forall (fun i => name i ∈ names
                     /\ is_bundle dir (name i) (fs w) = true
                     /\ source i = src
                     /\ path i = normalize [] (dir ++ [name i; "SKILL.md"])
                     /\ (name i <> EmptyString -> description i <> EmptyString)) l.
Proof.
  induction names as [|nm names IH]; intros l.
  { intros [= <-]. constructor. }
  assert (forall l0,
            Forall (fun i => name i ∈ names
                     /\ is_bundle dir (name i) (fs w) = true
                     /\ source i = src
                     /\ path i = normalize [] (dir ++ [name i; "SKILL.md"])
                     /\ (name i <> EmptyString -> description i <> EmptyString)) l0 ->
            Forall (fun i => name i ∈ nm :: names
                     /\ is_bundle dir (name i) (fs w) = true
                     /\ source i = src
                     /\ path i = normalize [] (dir ++ [name i; "SKILL.md"])
                     /\ (name i <> EmptyString -> description i <> EmptyString)) l0)
    as Hweak.
  { intros l0 H. eapply Forall_impl; [exact H|]. intros i (? & ? & ? & ? & ?).
    split; [by right|done]. }
  cbn [scan_children]. unfold bind at 1, is_dir, get.
  destruct (FS.is_dir (dir ++ [nm]) (fs w)) eqn:Hd; cbn [negb].
  2:{ intros H. by apply Hweak, IH. }
  unfold bind at 1, is_file, get.
  rewrite <- (List.app_assoc dir [nm] ["SKILL.md"]). cbn [app].
  destruct (FS.is_file (dir ++ [nm; "SKILL.md"]) (fs w)) eqn:Hf; cbn [negb].
  2:{ intros H. by apply Hweak, IH. }
  destruct (extract_description_run _ _ Hf) as [d Ed].
  rewrite (bind_ok _ _ _ _ _ Ed).
  unfold bind at 1, resolve. unfold bind at 1, get, ret.
  destruct (scan_children_run dir src names w) as (l0 & E & _).
  unfold bind. rewrite E. intros [= <-].
  constructor; [|by apply Hweak, IH].
  cbn [name source path description absolute rooted parts app].
  split; [by left|]. split; [unfold is_bundle; by rewrite Hd, Hf|].
  split; [done|]. split; [done|].
  intros Hne. destruct d as [text|]; [|done].
  by destruct text.
Qed.

Lemma scan_sound dir src w l :
  _scan dir src w = (Ok l, w) ->
  Forall (fun i => is_bundle dir (name i) (fs w) = true
                   /\ source i = src
                   /\ path i = normalize [] (dir ++ [name i; "SKILL.md"])
                   /\ (name i <> EmptyString -> description i <> EmptyString)) l.
Proof.
  unfold _scan, bind at 1, exists_, get, FS.exists_.
  unfold bind at 1, is_dir, get, FS.is_dir.
  destruct (FS.node_at dir (fs w)) as [[data|es]|] eqn:Hn; cbn [negb orb];
    [by intros [= <-]| |by intros [= <-]].
  unfold bind, iterdir, FS.iterdir. rewrite Hn.
  intros H%scan_children_sound.
  eapply Forall_impl; [exact H|]. by intros i (_ & ?).
Qed.

(** The values of [discovered] come from the scans. *)
Lemma alist_put_in {A} k (v x : A) l :
  x ∈ (FS.alist_put k v l).*2 -> x = v \/ x ∈ l.*2.
Proof.
  induction l as [|[k' v'] l IH]; simpl.
  - intros ->%list_elem_of_singleton. by left.
  - destruct (String.eqb k k'); simpl.
    + intros [->|H]%elem_of_cons; [by left|right; by right].
    + intros [->|H]%elem_of_cons; [right; by left|].
      destruct (IH H) as [->|?]; [by left|right; by right].
Qed.

Lemma fold_workspace_in found :
  forall d x, x ∈ (fold_left add_workspace found d).*2 -> x ∈ d.*2 \/ x ∈ found.
Proof.
  induction found as [|i found IH]; intros d x; simpl; [by left|].
  intros [H|H]%IH; [|right; by right].
  apply alist_put_in in H as [->|H]; [right; by left|by left].
Qed.

Lemma fold_builtin_in found :
  forall d x, x ∈ (fold_left add_builtin found d).*2 -> x ∈ d.*2 \/ x ∈ found.
Proof.
  induction found as [|i found IH]; intros d x; simpl; [by left|].
  intros [H|H]%IH; [|right; by right].
  unfold add_builtin in H. destruct (negb _); [|by left].
  apply alist_put_in in H as [->|H]; [right; by left|by left].
Qed.

Lemma fold_builtin_has found :
  forall d i, i ∈ found ->
    exists j, FS.alist_get (name i) (fold_left add_builtin found d) = Some j.
Proof.
  induction found as [|x found IH]; intros d i Hi; [by apply elem_of_nil in Hi|].
  cbn [fold_left]. apply elem_of_cons in Hi as [->|Hi]; [|by apply IH].
  assert (exists j, FS.alist_get (name x) (add_builtin d x) = Some j) as [j Hj].
  { unfold add_builtin, dict_contains.
    destruct (FS.alist_get (name x) d) eqn:E; cbn [negb]; [eauto|].
    rewrite alist_get_put. eauto. }
  clear IH. revert Hj. generalize (add_builtin d x). clear d.
  induction found as [|y found IH]; intros d Hj; [eauto|].
  cbn [fold_left]. apply IH. unfold add_builtin, dict_contains.
  destruct (FS.alist_get (name y) d) eqn:E; cbn [negb]; [done|].
  rewrite alist_get_put_ne; [done|]. intros Heq. by rewrite Heq, Hj in E.
Qed.

Lemma alist_get_values {A} k (v : A) l : FS.alist_get k l = Some v -> v ∈ l.*2.
Proof.
  induction l as [|[k' v'] l IH]; [done|]. simpl.
  destruct (String.eqb k k'); [intros [= ->]; by left|].
  intros H. right. by apply IH.
Qed.

Lemma keyed_get d i : keyed d -> i ∈ d.*2 -> FS.alist_get (name i) d = Some i.
Proof.
  intros [Hnd Hk]. induction d as [|[k v] d IH]; [by intros ?%elem_of_nil|].
  apply NoDup_cons in Hnd as [Hout Hnd]. apply Forall_cons in Hk as [Hv Hk].
  simpl in *. intros [->|Hi]%elem_of_cons.
  - by rewrite Hv, String.eqb_refl.
  - destruct (String.eqb_spec (name i) k) as [<-|_]; [|by apply IH].
    destruct Hout. specialize (IH Hnd Hk Hi). by eapply alist_get_in.
Qed.

Lemma keyed_get_name d nm i : keyed d -> FS.alist_get nm d = Some i -> name i = nm.
Proof.
  intros [_ Hk]. induction Hk as [|[k v] d Hv Hk IH]; [done|]. simpl in *.
  destruct (String.eqb_spec nm k) as [->|_]; [by intros [= <-]|done].
Qed.

Lemma keyed_names d : keyed d -> NoDup (name <$> d.*2).
Proof.
  intros [Hnd Hk].
  assert (name <$> d.*2 = d.*1) as ->; [|done].
  clear Hnd. induction Hk as [|[k v] d Hv Hk IH]; [done|].
  rewrite !fmap_cons. cbn [fst snd] in *. by rewrite Hv, IH.
Qed.


Lemma keyed_nil : keyed [].
Proof. split; constructor. Qed.


(** X16: A name is listed by [list_skills] exactly when it is a skill
    bundle (a directory with a file [SKILL.md] in it) under the workspace
    root or under the builtin root; the entry listed comes from the
    workspace exactly when the name is a bundle there, and its location is
    the [SKILL.md] of the bundle in the root it comes from. *)
Theorem list_skills_lists_bundles :
  forall self w,
    exists items,
      list_skills self w = (Ok items, w)
      /\ (forall nm,
            (exists i, i ∈ items /\ name i = nm)
            <-> is_bundle (workspace_skills_dir self) nm (fs w) = true
                \/ is_bundle (builtin_skills_dir self) nm (fs w) = true)
      /\ (forall i, i ∈ items ->
            let root := if is_bundle (workspace_skills_dir self) (name i) (fs w)
                        then workspace_skills_dir self
                        else builtin_skills_dir self in
            source i = (if is_bundle (workspace_skills_dir self) (name i) (fs w)
                        then "workspace" else "builtin")
            /\ path i = normalize [] (root ++ [name i; "SKILL.md"])).
Proof.
  intros self w.
  destruct (list_skills_run self w) as (W & B & EW & EB & ->).
  destruct (scan_run (workspace_skills_dir self) "workspace" w) as (W' & EW' & _ & HWc).
  destruct (scan_run (builtin_skills_dir self) "builtin" w) as (B' & EB' & _ & HBc).
  rewrite EW in EW'. injection EW' as <-. rewrite EB in EB'. injection EB' as <-.
  pose proof (scan_sound _ _ _ _ EW) as HWs.
  pose proof (scan_sound _ _ _ _ EB) as HBs.
  set (dW := fold_left add_workspace W []).
  set (d := fold_left add_builtin B dW).
  destruct (fold_workspace W [] keyed_nil) as [HkW HgetW]. fold dW in HkW, HgetW.
  destruct (fold_builtin B dW HkW) as [Hk Hkeep]. fold d in Hk, Hkeep.
  assert (forall i, i ∈ d.*2 ->
            i ∈ W
            \/ (i ∈ B /\ is_bundle (workspace_skills_dir self) (name i) (fs w) = false))
    as Hfrom.
  { intros i Hi.
    pose proof (fold_builtin_in _ _ _ Hi) as [HidW|HiB].
    - apply fold_workspace_in in HidW as [?%elem_of_nil|?]; [done|by left].
    - destruct (is_bundle (workspace_skills_dir self) (name i) (fs w)) eqn:Hb;
        [left|by right].
      destruct (HWc _ Hb) as (j & Hj & Hn).
      destruct (HgetW (name i)) as (k & Hget & HkW'); [by eauto|].
      apply Hkeep in Hget. rewrite (keyed_get d i Hk Hi) in Hget.
      by injection Hget as ->. }
  eexists. split; [done|]. split.
  - intros nm. split.
    + intros (i & Hi & <-). rewrite sorted_perm in Hi.
      destruct (Hfrom i Hi) as [HiW|[HiB _]].
      * left. by apply (proj1 (Forall_forall _ _) HWs) in HiW as (? & _).
      * right. by apply (proj1 (Forall_forall _ _) HBs) in HiB as (? & _).
    + assert (forall k, FS.alist_get nm d = Some k ->
                exists i, i ∈ sorted d.*2 /\ name i = nm) as Hfound.
      { intros k Hget. exists k. split.
        - rewrite sorted_perm. by eapply alist_get_values.
        - by eapply keyed_get_name. }
      intros [Hb|Hb].
      * destruct (HWc nm Hb) as (i & Hi & Hn).
        destruct (HgetW nm) as (k & Hget & _); [by eauto|].
        apply Hkeep in Hget. eauto.
      * destruct (HBc nm Hb) as (i & Hi & <-).
        destruct (fold_builtin_has B dW i Hi) as [j Hj]. eauto.
  - intros i Hi root. rewrite sorted_perm in Hi. unfold root.
    destruct (Hfrom i Hi) as [HiW|[HiB ->]].
    + apply (proj1 (Forall_forall _ _) HWs) in HiW as (-> & ? & ? & _). done.
    + by apply (proj1 (Forall_forall _ _) HBs) in HiB as (_ & ? & ? & _).
Qed.

(** X17: Every skill that [list_skills] returns has a description that is
    not empty: where the manifest gives none, or an empty one, the name of
    the skill stands in (a name is not empty). *)
Theorem list_skills_descriptions :
  forall self w,
    exists items,
      list_skills self w = (Ok items, w)
      /\ forall i, i ∈ items -> name i <> EmptyString -> description i <> EmptyString.
Proof.
  intros self w.
  destruct (list_skills_run self w) as (W & B & EW & EB & ->).
  pose proof (scan_sound _ _ _ _ EW) as HWs.
  pose proof (scan_sound _ _ _ _ EB) as HBs.
  eexists. split; [done|]. intros i Hi. rewrite sorted_perm in Hi.
  apply fold_builtin_in in Hi as [Hi|Hi].
  - apply fold_workspace_in in Hi as [?%elem_of_nil|Hi]; [done|].
    by apply (proj1 (Forall_forall _ _) HWs) in Hi as (_ & _ & _ & ?).
  - by apply (proj1 (Forall_forall _ _) HBs) in Hi as (_ & _ & _ & ?).
Qed.

End RegistryFacts.

(** ** [_xml_escape], and reading a listed skill *)

Module EscapeFacts.
Import Skills SummarySpec Aux StrFacts SummaryFacts EditFacts.

Lemma escape_char_cases (c : ascii) :
  (c = "&"%char /\ escape_char c = "&amp;")
  \/ (c = "<"%char /\ escape_char c = "&lt;")
  \/ (c = ">"%char /\ escape_char c = "&gt;")
  \/ (c <> "&"%char /\ c <> "<"%char /\ c <> ">"%char
      /\ escape_char c = Str.of_char c).
Proof.
  unfold escape_char.
  destruct (Ascii.eqb_spec c "&") as [->|H1]; [by left|].
  destruct (Ascii.eqb_spec c "<") as [->|H2]; [by right; left|].
  destruct (Ascii.eqb_spec c ">") as [->|H3]; [by right; right; left|].
  by right; right; right.
Qed.

Lemma escape_chars_injective (a : string) :
  forall b, escape_chars a = escape_chars b -> a = b.
Proof.
  induction a as [|x a IH]; intros [|y b]; cbn [escape_chars].
  - done.
  - by destruct (escape_char_cases y) as [[_ ->]|[[_ ->]|[[_ ->]|(_ & _ & _ & ->)]]].
  - by destruct (escape_char_cases x) as [[_ ->]|[[_ ->]|[[_ ->]|(_ & _ & _ & ->)]]].
  - destruct (escape_char_cases x) as [[-> ->]|[[-> ->]|[[-> ->]|(Hx1 & Hx2 & Hx3 & ->)]]];
      destruct (escape_char_cases y) as [[-> ->]|[[-> ->]|[[-> ->]|(Hy1 & Hy2 & Hy3 & ->)]]];
      cbn [String.append Str.of_char]; intros H; try discriminate H;
      try (injection H as H; f_equal; by apply IH);
      try (injection H as H0 H; congruence).
    injection H as -> H. f_equal. by apply IH.
Qed.

Lemma escape_chars_no_brackets (s : string) :
  has "<" (escape_chars s) = false /\ has ">" (escape_chars s) = false.
Proof.
  induction s as [|c s [IH1 IH2]]; [done|]. cbn [escape_chars].
  rewrite !has_app, IH1, IH2.
  destruct (escape_char_cases c) as [[_ ->]|[[_ ->]|[[_ ->]|(_ & H2 & H3 & ->)]]];
    try done.
  cbn [has Str.of_char]. rewrite !orb_false_r.
  by split; apply Ascii.eqb_neq.
Qed.

(** X18: [_xml_escape] loses nothing and leaves no angle bracket: two
    texts with the same escaped form are the same text, and the escaped
    form has neither [<] nor [>], so that a name, a description or a
    location cannot open or close a tag of the summary. *)
Theorem xml_escape_lossless :
  (forall a b, _xml_escape a = _xml_escape b -> a = b)
  /\ (forall text,
        Str.contains (_xml_escape text) "<" = false
        /\ Str.contains (_xml_escape text) ">" = false).
Proof.
  split.
  - intros a b. rewrite !xml_escape_chars. apply escape_chars_injective.
  - intros text. rewrite xml_escape_chars.
    change "<" with (Str.of_char "<"). change ">" with (Str.of_char ">").
    rewrite !has_contains. apply escape_chars_no_brackets.
Qed.

End EscapeFacts.

Module ReadListedFacts.
Import PathLib Skills SkillSpec Aux Notions StrFacts FSFacts Effects SkillFacts
  OrderFacts RegistryFacts PathFacts.

Lemma first_named_in (items : list SkillInfo) (i : SkillInfo) :
  NoDup (name <$> items) -> i ∈ items -> first_named (name i) items = Some i.
Proof.
  induction items as [|x items IH]; [by intros _ ?%elem_of_nil|].
  rewrite fmap_cons. intros [Hout Hnd]%NoDup_cons Hi. cbn [first_named].
  apply elem_of_cons in Hi as [->|Hi]; [by rewrite String.eqb_refl|].
  destruct (String.eqb_spec (name x) (name i)) as [E|_]; [|by apply IH].
  destruct Hout. rewrite E. apply list_elem_of_fmap. eauto.
Qed.

Lemma registry_init_dirs package_dir ws b w self w' :
  SkillRegistry_init package_dir ws b w = (Ok self, w') ->
  w' = w
  /\ Forall (fun c => c <> "..") (workspace_skills_dir self)
  /\ Forall (fun c => c <> "..") (builtin_skills_dir self).
Proof.
  unfold SkillRegistry_init, bind at 1, get.
  unfold bind at 1, resolve at 1. unfold bind at 1, get, ret.
  unfold bind at 1, resolve. unfold bind at 1, get, ret. unfold bind.
  intros [= <- <-]. split; [done|]. cbn [workspace_skills_dir builtin_skills_dir].
  split.
  - apply Forall_app. split; [by apply normalize_no_dotdot|by repeat constructor].
  - by apply normalize_no_dotdot.
Qed.

Lemma from_env_run nm w r w0 :
  (do v <- Tools.getenv nm;
   match v with
   | Some e =>
       if negb (Str.is_empty e)
       then (do p <- expanduser (Path e); ret (Some p))
       else ret None
   | None => ret None
   end) w = (r, w0) ->
  w0 = w.
Proof.
  unfold bind at 1. unfold Tools.getenv, get.
  destruct (environ w !! nm) as [e|]; [|by intros [= _ <-]].
  destruct (negb _); [|by intros [= _ <-]].
  unfold bind. destruct (expanduser (Path e) w) as [[p|x] w1] eqn:E;
    intros [= _ <-];
    by apply (pure_run _ _ _ _ (env_only_pure _ (env_only_expanduser _)) E).
Qed.

Lemma get_registry_dirs package_dir w self w' :
  get_registry package_dir w = (Ok self, w') ->
  w' = w
  /\ Forall (fun c => c <> "..") (workspace_skills_dir self)
  /\ Forall (fun c => c <> "..") (builtin_skills_dir self).
Proof.
  unfold get_registry. cbv zeta beta.
  unfold bind at 1.
  match goal with
  | |- context [bind (Tools.getenv "PICOBOT_WORKSPACE") ?k w] =>
      destruct (bind (Tools.getenv "PICOBOT_WORKSPACE") k w)
        as [[ws|e] w0] eqn:E1; [|done]
  end.
  apply from_env_run in E1 as ->.
  unfold bind at 1.
  match goal with
  | |- context [bind (Tools.getenv "PICOBOT_BUILTIN_SKILLS_DIR") ?k w] =>
      destruct (bind (Tools.getenv "PICOBOT_BUILTIN_SKILLS_DIR") k w)
        as [[b|e] w0] eqn:E2; [|done]
  end.
  apply from_env_run in E2 as ->.
  apply registry_init_dirs.
Qed.

(** X19: Every skill that [list_skills] returns can be read by its name:
    for a registry that [get_registry] built, [read_skill] on the name of
    a listed skill (a name that has no white space around it, as
    [read_skill] strips its argument) gives the text of the manifest at
    the listed location. *)
Theorem listed_skill_is_readable :
  forall package_dir w self items i,
    get_registry package_dir w = (Ok self, w) ->
    list_skills self w = (Ok items, w) ->
    i ∈ items ->
    Str.strip (name i) = name i ->
    name i <> EmptyString ->
    name i <> ".." ->
    exists data,
      FS.node_at (path i) (fs w) = Some (File data)
      /\ read_skill self (name i) w = (Ok (FS.universal_newlines data), w).
Proof.
  intros package_dir w self items i Hreg Hlist Hi Hstrip Hne Hdots.
  apply get_registry_dirs in Hreg as (_ & HW & HB).
  destruct (list_skills_run self w) as (W & B & EW & EB & Hrun).
  rewrite Hlist in Hrun. injection Hrun as ->.
  pose proof (scan_sound _ _ _ _ EW) as HWs.
  pose proof (scan_sound _ _ _ _ EB) as HBs.
  assert (NoDup (name <$> sorted
                   (fold_left add_builtin B (fold_left add_workspace W [])).*2))
    as Hnd.
  { rewrite sorted_perm. apply keyed_names.
    apply fold_builtin, fold_workspace, keyed_nil. }
  assert (exists root,
            Forall (fun c => c <> "..") root
            /\ is_bundle root (name i) (fs w) = true
            /\ path i = normalize [] (root ++ [name i; "SKILL.md"]))
    as (root & Hroot & Hb & Hp).
  { pose proof Hi as Hi'. rewrite sorted_perm in Hi'.
    apply fold_builtin_in in Hi' as [Hi'|Hi'].
    - apply fold_workspace_in in Hi' as [?%elem_of_nil|Hi']; [done|].
      apply (proj1 (Forall_forall _ _) HWs) in Hi' as (? & _ & ? & _). eauto.
    - apply (proj1 (Forall_forall _ _) HBs) in Hi' as (? & _ & ? & _). eauto. }
  rewrite normalize_plain in Hp.
  2:{ apply Forall_app. split; [done|]. by repeat constructor. }
  cbn [rev app] in Hp.
  apply andb_true_iff in Hb as [_ Hf]. unfold FS.is_file in Hf.
  destruct (FS.node_at (root ++ [name i; "SKILL.md"]) (fs w)) as [[data|]|] eqn:E;
    try done.
  exists data. rewrite Hp. split; [done|].
  unfold read_skill. rewrite Hstrip.
  destruct (name i) eqn:En; [done|]. cbn [Str.is_empty]. rewrite <- En.
  rewrite (bind_ok _ _ _ _ _ Hlist), (first_named_in _ _ Hnd Hi), Hp.
  unfold read_text, FS.read_text. by rewrite E.
Qed.

Lemma listed_skill_is_readable_witness :
  let w := Sample.skills_world in
  let i := mkSkillInfo "Bar" ["opt"; "skills"; "Bar"; "SKILL.md"] "builtin" "Bar" in
  exists data,
    FS.node_at (path i) (fs w) = Some (File data)
    /\ read_skill Sample.registry "Bar" w = (Ok (FS.universal_newlines data), w).
Proof.
  intros w i.
  refine (listed_skill_is_readable ["opt"] w Sample.registry _ i
            eq_refl eq_refl _ eq_refl _ _); [|done..].
  left.
Defined.

End ReadListedFacts.

(** ** [json.loads] after [json.dumps] *)

Module JsonFacts.
Import Json Aux Notions StrFacts FSFacts EditFacts.

(** Induction on JSON values, with the items of a container at hand. *)
Lemma json_induction (P : json -> Prop) :
  P JNull -> (forall b, P (JBool b)) -> (forall z, P (JInt z)) ->
  (forall x, P (JFloat x)) -> (forall s, P (JStr s)) ->
  (forall items, Forall P items -> P (JArr items)) ->
  (forall members, Forall (fun kv => P (snd kv)) members -> P (JObj members)) ->
  forall v, P v.
Proof.
  intros Hnull Hbool Hint Hfloat Hstr Harr Hobj. fix IH 1.
  intros [| b | z | x | s | items | members].
  - exact Hnull.
  - apply Hbool.
  - apply Hint.
  - apply Hfloat.
  - apply Hstr.
  - apply Harr. induction items as [|x items IHl]; constructor; [apply IH|exact IHl].
  - apply Hobj. induction members as [|[k x] members IHl]; constructor;
      [apply IH|exact IHl].
Qed.

Lemma len_app (a b : string) : Str.len (a +:+ b) = Str.len a + Str.len b.
Proof. induction a as [|c a IH]; [done|]. simpl. by rewrite <- IH. Qed.

(** *** Strings *)

Lemma rev_app_app (s1 : string) :
  forall s2 t, String.rev_app s1 s2 +:+ t = String.rev_app s1 (s2 +:+ t).
Proof. induction s1 as [|c s1 IH]; intros s2 t; [done|]. apply IH. Qed.

Lemma rev_cons (c : ascii) (acc s : string) :
  String.rev (String c acc) +:+ s = String.rev acc +:+ String c s.
Proof. unfold String.rev. cbn [String.rev_app]. by rewrite !rev_app_app. Qed.

Lemma str_body_escape_char (c : ascii) (acc tail : string) :
  str_body acc (escape_char c +:+ tail) = str_body (String c acc) tail.
Proof. by destruct c as [[] [] [] [] [] [] [] []]. Qed.

Lemma str_body_escape (s : string) :
  forall acc rest,
    str_body acc (escape s +:+ String Char.DQ rest)
    = Some (String.rev acc +:+ s, rest).
Proof.
  induction s as [|c s IH]; intros acc rest.
  - cbn. by rewrite str_app_nil_r.
  - cbn [escape]. rewrite str_app_assoc, str_body_escape_char, IH.
    by rewrite rev_cons.
Qed.

(** *** White space between the tokens *)

Lemma skip_ws_solid (c : ascii) (t : string) :
  is_ws c = false -> skip_ws (String c t) = String c t.
Proof. intros H. unfold skip_ws. cbn [Str.lstrip_with]. by rewrite H. Qed.

Lemma skip_ws_app (ws t : string) :
  all is_ws ws = true -> skip_ws (ws +:+ t) = skip_ws t.
Proof.
  induction ws as [|c ws IH]; [done|]. cbn [all].
  intros [Hc H]%andb_true_iff. rewrite str_app_cons.
  unfold skip_ws in *. cbn [Str.lstrip_with]. rewrite Hc. by apply IH.
Qed.

Lemma all_ws_spaces (n : nat) : all is_ws (spaces n) = true.
Proof. induction n as [|n IH]; [done|]. cbn [spaces all]. by rewrite IH. Qed.

Lemma all_ws_newline_indent indent level :
  all is_ws (newline_indent indent level) = true.
Proof.
  destruct indent as [k|]; [|done]. cbn [newline_indent].
  change (Str.NL +:+ spaces (k * level)) with (String Char.NL (spaces (k * level))).
  cbn [all]. by rewrite all_ws_spaces.
Qed.

Lemma item_sep_comma indent level :
  exists ws, item_sep indent level = String "," ws /\ all is_ws ws = true.
Proof.
  destruct indent as [k|].
  - exists (newline_indent (Some k) level). split; [done|].
    apply all_ws_newline_indent.
  - by exists " ".
Qed.

(** *** The first character of an encoded value *)

Lemma dumps_go_first indent level v :
  plain v = true ->
  exists c t, dumps_go indent level v = String c t /\ opens c.
Proof.
  destruct v as [| [] | z | x | s | items | members]; try done; intros _.
  - by exists "n"%char, "ull".
  - by exists "t"%char, "rue".
  - by exists "f"%char, "alse".
  - exists Char.DQ, (escape s +:+ Str.DQ). by split.
  - cbn [dumps_go]. unfold wrap. destruct (List.map _ items); by eexists _, _.
  - cbn [dumps_go]. unfold wrap. destruct (List.map _ members); by eexists _, _.
Qed.

(** *** One step of the decoder *)

Lemma value_array f r c t :
  skip_ws r = String c t -> c <> "]"%char ->
  value (S f) (String "[" r) = elements f [] (String c t).
Proof.
  intros H Hc. cbn [value]. rewrite H.
  by destruct c as [[] [] [] [] [] [] [] []].
Qed.

Lemma value_object f r c t :
  skip_ws r = String c t -> c <> "}"%char ->
  value (S f) (String "{" r) = members f [] (String c t).
Proof.
  intros H Hc. cbn [value]. rewrite H.
  by destruct c as [[] [] [] [] [] [] [] []].
Qed.

Lemma value_string f body :
  value (S f) (String Char.DQ body)
  = match str_body EmptyString body with
    | Some (t, r) => Some (JStr t, r)
    | None => None
    end.
Proof. reflexivity. Qed.

Lemma elements_last f acc s v r r' :
  value f s = Some (v, r) -> skip_ws r = String "]" r' ->
  elements (S f) acc s = Some (JArr (rev (v :: acc)), r').
Proof. intros H1 H2. cbn [elements]. by rewrite H1, H2. Qed.

Lemma elements_more f acc s v r r' :
  value f s = Some (v, r) -> skip_ws r = String "," r' ->
  elements (S f) acc s = elements f (v :: acc) (skip_ws r').
Proof. intros H1 H2. cbn [elements]. by rewrite H1, H2. Qed.

Lemma members_last f acc body key r1 r2 v r3 r4 :
  str_body EmptyString body = Some (key, r1) ->
  skip_ws r1 = String ":" r2 ->
  value f (skip_ws r2) = Some (v, r3) ->
  skip_ws r3 = String "}" r4 ->
  members (S f) acc (String Char.DQ body)
  = Some (JObj (dict_of (rev ((key, v) :: acc))), r4).
Proof.
  intros H1 H2 H3 H4. cbn [members].
  by rewrite Ascii.eqb_refl, H1, H2, H3, H4.
Qed.

Lemma members_more f acc body key r1 r2 v r3 r4 :
  str_body EmptyString body = Some (key, r1) ->
  skip_ws r1 = String ":" r2 ->
  value f (skip_ws r2) = Some (v, r3) ->
  skip_ws r3 = String "," r4 ->
  members (S f) acc (String Char.DQ body)
  = members f ((key, v) :: acc) (skip_ws r4).
Proof.
  intros H1 H2 H3 H4. cbn [members].
  by rewrite Ascii.eqb_refl, H1, H2, H3, H4.
Qed.

(** *** Containers *)

Lemma skip_ws_to (ws : string) (c : ascii) (t : string) :
  all is_ws ws = true -> is_ws c = false ->
  skip_ws (ws +:+ String c t) = String c t.
Proof. intros H Hc. by rewrite skip_ws_app, skip_ws_solid. Qed.

Lemma elements_join indent level (sepws : string) (items : list json) :
  all is_ws sepws = true ->
  Forall (decodes indent) items -> forallb plain items = true ->
  items <> [] ->
  forall acc fuel tail rest,
    skip_ws tail = String "]" rest ->
    Str.len (Str.join (String "," sepws) (List.map (dumps_go indent level) items)) < fuel ->
    elements fuel acc
      (Str.join (String "," sepws) (List.map (dumps_go indent level) items) +:+ tail)
    = Some (JArr (rev acc ++ items), rest).
Proof.
  intros Hws Hdec. induction Hdec as [|x items Hx Hitems IH]; [done|].
  cbn [forallb]. intros [Hpx Hp]%andb_true_iff _ acc fuel tail rest Htail Hfuel.
  destruct fuel as [|f]; [lia|].
  destruct items as [|y items].
  - cbn [List.map Str.join] in *.
    rewrite (elements_last f acc _ x tail rest); [|apply Hx; lia|done].
    cbn [rev]. done.
  - change (Str.join (String "," sepws) (List.map (dumps_go indent level) (x :: y :: items)))
      with (dumps_go indent level x +:+ String "," sepws
            +:+ Str.join (String "," sepws) (List.map (dumps_go indent level) (y :: items)))
      in *.
    set (J := Str.join _ (List.map _ (y :: items))) in *.
    rewrite !len_app in Hfuel. cbn [Str.len String.length] in Hfuel.
    rewrite !str_app_assoc, str_app_cons.
    rewrite (elements_more f acc _ x (String "," (sepws +:+ J +:+ tail)) (sepws +:+ J +:+ tail));
      [|apply Hx; lia|done].
    assert (exists c t, J = String c t /\ is_ws c = false) as (c & t & EJ & Hc).
    { unfold J. cbn [List.map Str.join].
      apply andb_true_iff in Hp as [Hpy _].
      destruct (dumps_go_first indent level y Hpy) as (c & t & -> & Hc & _).
      destruct (List.map _ items); by eexists _, _. }
    rewrite skip_ws_app by done. rewrite EJ, str_app_cons, skip_ws_solid by done.
    rewrite <- str_app_cons, <- EJ.
    rewrite (IH Hp ltac:(done) (x :: acc) f tail rest Htail); [|fold J; lia].
    cbn [rev]. by rewrite <- List.app_assoc.
Qed.

Lemma alist_put_fresh {A} k (v : A) l :
  k ∉ l.*1 -> FS.alist_put k v l = l ++ [(k, v)].
Proof.
  induction l as [|[k' v'] l IH]; [done|]. rewrite fmap_cons. cbn [fst].
  intros H. cbn [FS.alist_put].
  destruct (String.eqb_spec k k') as [->|_]; [destruct H; by left|].
  rewrite IH; [done|]. intros Hin. apply H. by right.
Qed.

Lemma dict_of_distinct (l : list (string * json)) :
  NoDup l.*1 -> dict_of l = l.
Proof.
  unfold dict_of.
  assert (forall d, NoDup (d ++ l).*1 ->
            fold_left (fun d kv => FS.alist_put (fst kv) (snd kv) d) l d = d ++ l)
    as H; [|apply (H [])].
  induction l as [|[k v] l IH]; intros d Hnd; [by rewrite app_nil_r|].
  cbn [fold_left fst snd]. rewrite alist_put_fresh.
  - rewrite IH; [by rewrite <- List.app_assoc|].
    by rewrite <- List.app_assoc.
  - rewrite fmap_app in Hnd. apply NoDup_app in Hnd as (_ & Hd & _).
    intros Hk. apply (Hd k Hk). by left.
Qed.

Lemma skip_ws_space (t : string) : skip_ws (String " " t) = skip_ws t.
Proof. reflexivity. Qed.

Lemma members_join indent level (sepws : string) (ms : list (string * json)) :
  all is_ws sepws = true ->
  Forall (fun kv => decodes indent (snd kv)) ms ->
  forallb (fun kv => plain (snd kv)) ms = true ->
  ms <> [] ->
  let entry := fun kv : string * json =>
                 encode_str (fst kv) +:+ ": " +:+ dumps_go indent level (snd kv) in
  forall acc fuel tail rest,
    skip_ws tail = String "}" rest ->
    Str.len (Str.join (String "," sepws) (List.map entry ms)) < fuel ->
    members fuel acc (Str.join (String "," sepws) (List.map entry ms) +:+ tail)
    = Some (JObj (dict_of (rev acc ++ ms)), rest).
Proof.
  intros Hws Hdec. induction Hdec as [|[k x] ms Hx Hms IH]; [done|].
  intros Hp' _ entry acc fuel tail rest Htail Hfuel.
  cbn [forallb snd] in Hp'. apply andb_true_iff in Hp' as [Hpx Hp].
  destruct fuel as [|f]; [lia|].
  destruct (dumps_go_first indent level x Hpx) as (cx & tx & Ex & Hcx & _).
  assert (forall after,
            entry (k, x) +:+ after
            = String Char.DQ (escape k +:+ String Char.DQ
                                (String ":" (String " " (dumps_go indent level x +:+ after)))))
    as Hentry.
  { intros after. unfold entry, encode_str. cbn [fst snd].
    change Str.DQ with (String Char.DQ EmptyString).
    rewrite !str_app_assoc. cbn [String.append]. by rewrite ?str_app_assoc. }
  assert (Str.len (dumps_go indent level x) + 4 <= Str.len (entry (k, x))) as Hlen.
  { unfold entry, encode_str. cbn [fst snd]. rewrite !len_app. cbn. lia. }
  simpl in Hx.
  destruct ms as [|y ms].
  - cbn [List.map Str.join] in *. rewrite Hentry.
    erewrite members_last;
      [|apply str_body_escape|by apply skip_ws_solid| |exact Htail].
    + cbn [rev]. done.
    + rewrite skip_ws_space, Ex, str_app_cons, skip_ws_solid by done.
      rewrite <- str_app_cons, <- Ex. apply Hx. lia.
  - change (Str.join (String "," sepws) (List.map entry ((k, x) :: y :: ms)))
      with (entry (k, x) +:+ String "," sepws
            +:+ Str.join (String "," sepws) (List.map entry (y :: ms))) in *.
    set (J := Str.join _ (List.map _ (y :: ms))) in *.
    rewrite !len_app in Hfuel. cbn [Str.len String.length] in Hfuel.
    rewrite !str_app_assoc, Hentry.
    erewrite members_more;
      [|apply str_body_escape|by apply skip_ws_solid| |by apply skip_ws_solid].
    2:{ rewrite skip_ws_space, Ex, str_app_cons, skip_ws_solid by done.
        rewrite <- str_app_cons, <- Ex. apply Hx. lia. }
    assert (exists c t, J = String c t /\ is_ws c = false) as (c & t & EJ & Hc).
    { unfold J. cbn [List.map Str.join]. unfold entry at 1, encode_str.
      change Str.DQ with (String Char.DQ EmptyString).
      destruct (List.map _ ms); rewrite ?str_app_assoc; cbn [String.append];
        by eexists _, _. }
    rewrite skip_ws_app by done. rewrite EJ, str_app_cons, skip_ws_solid by done.
    rewrite <- str_app_cons, <- EJ.
    etrans;
      [apply (IH Hp ltac:(done) ((k, x) :: acc) f tail rest Htail);
       fold entry; fold J; lia|].
    cbn [rev]. by rewrite <- List.app_assoc.
Qed.

Lemma Forall_guarded {A} (g : A -> bool) (P : A -> Prop) (l : list A) :
  Forall (fun a => g a = true -> P a) l -> forallb g l = true -> Forall P l.
Proof.
  induction 1 as [|a l Ha Hl IH]; [done|]. cbn [forallb].
  intros [Hg H]%andb_true_iff. constructor; auto.
Qed.

Lemma plain_decodes indent (v : json) : plain v = true -> decodes indent v.
Proof.
  induction v as [| b | z | x | s | items IH | ms IH] using json_induction;
    intros Hp level rest fuel Hfuel.
  - destruct fuel; [simpl in Hfuel; lia|done].
  - destruct fuel; [destruct b; simpl in Hfuel; lia|]. by destruct b.
  - done.
  - done.
  - cbn [dumps_go] in *. unfold encode_str in *.
    change Str.DQ with (String Char.DQ EmptyString) in *.
    rewrite !str_app_assoc, !str_app_cons, !str_app_nil_l.
    destruct fuel; [simpl in Hfuel; lia|].
    by rewrite value_string, str_body_escape.
  - cbn [plain] in Hp.
    destruct items as [|x items].
    { destruct fuel; [simpl in Hfuel; lia|done]. }
    destruct (item_sep_comma indent (S level)) as (sepws & Esep & Hsep).
    set (J := Str.join (String "," sepws)
                (List.map (dumps_go indent (S level)) (x :: items))).
    assert (dumps_go indent level (JArr (x :: items))
            = String "[" (newline_indent indent (S level) +:+ J
                          +:+ newline_indent indent level +:+ String "]" EmptyString))
      as Etext.
    { cbn [dumps_go]. unfold wrap. cbn [List.map]. by rewrite Esep. }
    rewrite Etext in *. clear Etext.
    cbn [Str.len String.length] in Hfuel. fold (Str.len) in Hfuel.
    change (String.length ?s) with (Str.len s) in Hfuel.
    rewrite !len_app in Hfuel. cbn [Str.len String.length] in Hfuel.
    destruct fuel as [|f]; [lia|].
    rewrite str_app_cons, !str_app_assoc.
    assert (exists c t, J = String c t /\ opens c) as (c & t & EJ & Hc & Hc1 & _).
    { unfold J. cbn [List.map Str.join].
      apply andb_true_iff in Hp as [Hpx _].
      destruct (dumps_go_first indent (S level) x Hpx) as (c & t & -> & Hc).
      destruct (List.map _ items); by eexists _, _. }
    pose proof (Forall_guarded _ _ _ IH Hp) as IH'.
    erewrite value_array; [| |exact Hc1].
    2:{ rewrite skip_ws_app by apply all_ws_newline_indent.
        rewrite EJ, str_app_cons. by apply skip_ws_solid. }
    rewrite <- str_app_cons, <- EJ.
    etrans;
      [apply (elements_join indent (S level) sepws (x :: items) Hsep IH' Hp
                ltac:(done) [] f _ rest)|done].
    + rewrite str_app_cons, str_app_nil_l.
      by rewrite skip_ws_app, skip_ws_solid by (done || apply all_ws_newline_indent).
    + fold J. lia.
  - cbn [plain] in Hp. apply andb_true_iff in Hp as [Hnd Hp].
    apply bool_decide_eq_true in Hnd.
    destruct ms as [|kx ms].
    { destruct fuel; [simpl in Hfuel; lia|done]. }
    destruct (item_sep_comma indent (S level)) as (sepws & Esep & Hsep).
    set (entry := fun kv : string * json =>
                    encode_str (fst kv) +:+ ": " +:+ dumps_go indent (S level) (snd kv)).
    set (J := Str.join (String "," sepws) (List.map entry (kx :: ms))).
    assert (dumps_go indent level (JObj (kx :: ms))
            = String "{" (newline_indent indent (S level) +:+ J
                          +:+ newline_indent indent level +:+ String "}" EmptyString))
      as Etext.
    { cbn [dumps_go]. unfold wrap. cbn [List.map]. by rewrite Esep. }
    rewrite Etext in *. clear Etext.
    cbn [Str.len String.length] in Hfuel.
    change (String.length ?s) with (Str.len s) in Hfuel.
    rewrite !len_app in Hfuel. cbn [Str.len String.length] in Hfuel.
    destruct fuel as [|f]; [lia|].
    rewrite str_app_cons, !str_app_assoc.
    assert (exists t, J = String Char.DQ t) as (t & EJ).
    { unfold J. cbn [List.map Str.join]. unfold entry at 1, encode_str.
      change Str.DQ with (String Char.DQ EmptyString).
      destruct (List.map _ ms); rewrite ?str_app_assoc; cbn [String.append];
        by eexists. }
    pose proof (Forall_guarded (fun kv => plain (snd kv)) _ _ IH Hp) as IH'.
    erewrite value_object; cycle 1.
    { rewrite skip_ws_app by apply all_ws_newline_indent.
      rewrite EJ, str_app_cons. by apply skip_ws_solid. }
    { done. }
    rewrite <- str_app_cons, <- EJ.
    etrans;
      [apply (members_join indent (S level) sepws (kx :: ms) Hsep IH' Hp
                ltac:(done) [] f _ rest)|].
    + rewrite str_app_cons, str_app_nil_l.
      by rewrite skip_ws_app, skip_ws_solid by (done || apply all_ws_newline_indent).
    + fold entry. fold J. lia.
    + cbn [rev app]. by rewrite dict_of_distinct.
Qed.

(** Decoding skips the white space around a document. *)
Lemma loads_padded (v : json) indent (lead trail : string) :
  plain v = true -> all is_ws lead = true -> all is_ws trail = true ->
  loads (lead +:+ dumps v indent +:+ trail) = Some v.
Proof.
  intros Hp Hlead Htrail. unfold loads, dumps.
  destruct (dumps_go_first indent 0 v Hp) as (c & t & E & Hc & _).
  assert (skip_ws (lead +:+ dumps_go indent 0 v +:+ trail)
          = dumps_go indent 0 v +:+ trail) as ->.
  { rewrite skip_ws_app by done. rewrite E, str_app_cons. by apply skip_ws_solid. }
  rewrite (plain_decodes indent v Hp 0 trail); [|rewrite len_app; lia].
  assert (skip_ws trail = EmptyString) as ->; [|done].
  rewrite <- (str_app_nil_r trail). by rewrite skip_ws_app.
Qed.

(** What [json.dumps] writes, [json.loads] reads back: for every value
    without numbers whose objects have distinct keys, and for every
    indentation, decoding the encoded text gives the value. *)
Lemma loads_dumps (v : json) indent :
  plain v = true -> loads (dumps v indent) = Some v.
Proof.
  intros Hp.
  rewrite <- (str_app_nil_r (dumps v indent)).
  by apply (loads_padded v indent EmptyString EmptyString).
Qed.

End JsonFacts.

(** ** The characters of an encoded value *)

Module JsonTextFacts.
Import Json Aux Notions StrFacts FSFacts EditFacts JsonFacts.

Lemma has_join x sep (parts : list string) :
  has x sep = false -> Forall (fun p => has x p = false) parts ->
  has x (Str.join sep parts) = false.
Proof.
  intros Hsep. induction 1 as [|p parts Hp Hparts IH]; [done|].
  cbn [Str.join]. destruct parts as [|q parts]; [done|].
  by rewrite !has_app, Hp, Hsep, IH.
Qed.

Lemma has_escape x (s : string) :
  (forall c, has x (escape_char c) = false) -> has x (escape s) = false.
Proof.
  intros H. induction s as [|c s IH]; [done|].
  cbn [escape]. by rewrite has_app, H, IH.
Qed.

Lemma has_syntax x (s : string) :
  has x json_syntax = false ->
  Aux.all (fun c => Str.contains json_syntax (Str.of_char c)) s = true ->
  has x s = false.
Proof.
  intros Hx. induction s as [|c s IH]; [done|]. cbn [Aux.all has].
  intros [Hc Hs]%andb_true_iff. rewrite IH, orb_false_r by done.
  rewrite has_contains in Hc.
  destruct (Ascii.eqb_spec c x) as [->|]; [congruence|done].
Qed.

(** A character that is neither part of the syntax, nor of an escape, nor
    of the indentation does not occur in an encoded value. *)
Lemma has_dumps_go x indent (v : json) :
  has x json_syntax = false ->
  (forall c, has x (escape_char c) = false) ->
  (forall level, has x (newline_indent indent level) = false) ->
  plain v = true ->
  forall level, has x (dumps_go indent level v) = false.
Proof.
  intros Hx Hesc Hnl.
  assert (forall s, has x (encode_str s) = false) as Hstr.
  { intros s. unfold encode_str. rewrite !has_app, has_escape by done.
    by rewrite (has_syntax x Str.DQ Hx). }
  assert (forall level, has x (item_sep indent level) = false) as Hsep.
  { intros level. destruct indent as [k|]; cbn [item_sep].
    - by rewrite has_app, Hnl, (has_syntax x "," Hx).
    - by apply has_syntax. }
  assert (forall level opening closing parts,
            has x opening = false -> has x closing = false ->
            Forall (fun p => has x p = false) parts ->
            has x (wrap indent level opening closing parts) = false) as Hwrap.
  { intros level opening closing parts Ho Hc Hparts. unfold wrap.
    destruct parts as [|p parts]; [by rewrite has_app, Ho, Hc|].
    by rewrite !has_app, Ho, Hc, !Hnl, has_join. }
  induction v as [| b | z | y | s | items IH | ms IH] using json_induction;
    intros Hp level.
  - by apply has_syntax.
  - destruct b; by apply has_syntax.
  - done.
  - done.
  - apply Hstr.
  - cbn [plain] in Hp. cbn [dumps_go].
    apply Hwrap; [by apply has_syntax..|].
    apply Forall_fmap. apply (Forall_guarded _ _ _ IH) in Hp.
    eapply Forall_impl; [exact Hp|]. intros v Hv. by apply Hv.
  - cbn [plain] in Hp. apply andb_true_iff in Hp as [_ Hp]. cbn [dumps_go].
    apply Hwrap; [by apply has_syntax..|].
    apply Forall_fmap.
    apply (Forall_guarded (fun kv => plain (snd kv)) _ _ IH) in Hp.
    eapply Forall_impl; [exact Hp|]. intros [k v] Hv. unfold compose.
    cbn [fst snd] in *. rewrite !has_app, Hstr, Hv. by rewrite (has_syntax x ": " Hx).
Qed.

Lemma escape_char_no_cr c : has Char.CR (escape_char c) = false.
Proof. by destruct c as [[] [] [] [] [] [] [] []]. Qed.

Lemma escape_char_no_nl c : has Char.NL (escape_char c) = false.
Proof. by destruct c as [[] [] [] [] [] [] [] []]. Qed.

Lemma has_spaces x n : x <> " "%char -> has x (spaces n) = false.
Proof.
  intros Hx. induction n as [|n IH]; [done|]. cbn [spaces has]. rewrite IH.
  rewrite orb_false_r. apply Ascii.eqb_neq. congruence.
Qed.

Lemma dumps_no_cr (v : json) indent :
  plain v = true -> has Char.CR (dumps v indent) = false.
Proof.
  intros Hp. apply has_dumps_go; [done|apply escape_char_no_cr| |done].
  intros level. destruct indent as [k|]; [|done]. cbn [newline_indent].
  by rewrite has_app, has_spaces.
Qed.

Lemma dumps_one_line (v : json) :
  plain v = true -> has Char.NL (dumps v None) = false.
Proof.
  intros Hp. by apply has_dumps_go; [|apply escape_char_no_nl| |].
Qed.

(** A file that holds an encoded value reads as the text written. *)
Lemma read_dumps (v : json) indent :
  plain v = true -> FS.universal_newlines (dumps v indent) = dumps v indent.
Proof.
  intros Hp. apply universal_newlines_id.
  rewrite has_contains. by apply dumps_no_cr.
Qed.

End JsonTextFacts.

(** ** The cron store *)

Module StoreFacts.
Import PathLib Json Tools CronSpec Aux Notions StrFacts FSFacts Effects TreeFacts
  CronFacts JsonFacts JsonTextFacts.

Lemma expanduser_same_env p w1 w2 :
  same_env w1 w2 -> fst (expanduser p w1) = fst (expanduser p w2).
Proof.
  intros (Hcwd & Henv & Hlogin & Hpw). unfold expanduser.
  destruct (rooted p); [done|]. destruct (parts p) as [|h tl]; [done|].
  destruct (Str.startswith h "~"); [|done].
  unfold bind, get. unfold home_of. rewrite Henv, Hlogin, Hpw.
  by destruct (Str.startswith _ "~").
Qed.

Lemma workspace_unfold w :
  _workspace w
  = match environ w !! "PICOBOT_WORKSPACE" with
    | Some e =>
        if negb (Str.is_empty e)
        then (do p <- expanduser (Path e); resolve p) w
        else (Ok (normalize [] (cwd w)), w)
    | None => (Ok (normalize [] (cwd w)), w)
    end.
Proof.
  unfold _workspace, bind at 1, getenv, get.
  destruct (environ w !! "PICOBOT_WORKSPACE") as [e|]; [|done].
  by destruct (negb (Str.is_empty e)).
Qed.

Lemma workspace_same_env w1 w2 :
  same_env w1 w2 -> fst (_workspace w1) = fst (_workspace w2).
Proof.
  intros Hsame. pose proof Hsame as (Hcwd & Henv & Hlogin & Hpw).
  rewrite !workspace_unfold, Henv, Hcwd.
  destruct (environ w2 !! "PICOBOT_WORKSPACE") as [e|]; [|done].
  destruct (negb (Str.is_empty e)); [|done].
  unfold bind.
  pose proof (expanduser_same_env (Path e) w1 w2 Hsame) as He.
  pose proof (env_only_pure _ (env_only_expanduser (Path e)) w1) as H1.
  pose proof (env_only_pure _ (env_only_expanduser (Path e)) w2) as H2.
  rewrite H1, H2, He.
  destruct (fst (expanduser (Path e) w2)) as [p|x]; [|done].
  unfold resolve, bind, get, ret. cbn. by rewrite Hcwd.
Qed.

Lemma workspace_fst w : _workspace w = (fst (_workspace w), w).
Proof. apply env_only_pure, env_only_workspace. Qed.

Lemma workspace_moved w1 w2 ws :
  same_env w1 w2 -> _workspace w1 = (Ok ws, w1) -> _workspace w2 = (Ok ws, w2).
Proof.
  intros Hsame H. rewrite (workspace_fst w2), <- (workspace_same_env w1 w2 Hsame).
  by rewrite H.
Qed.

(** What [_load_cron_jobs] gives, case by case. *)
Lemma load_cases w :
  _load_cron_jobs w
  = match fst (_workspace w) with
    | Raise e => (Raise e, w)
    | Ok ws =>
        (Ok match FS.node_at (ws ++ [".picobot"; "cron_jobs.json"]) (fs w) with
            | Some (File data) =>
                default (JArr []) (loads (FS.universal_newlines data))
            | _ => JArr []
            end, w)
    end.
Proof.
  unfold _load_cron_jobs, _cron_store_path. unfold bind at 1. unfold bind at 1.
  rewrite (workspace_fst w).
  destruct (fst (_workspace w)) as [ws|e]; cbn [fst]; [|done].
  unfold ret at 1, bind at 1, exists_, get, FS.exists_.
  destruct (FS.node_at _ (fs w)) as [[data|es]|] eqn:E; cbn [negb]; [| |done].
  - unfold try_except, bind, read_text, FS.read_text. rewrite E.
    by destruct (loads _).
  - unfold try_except, bind, read_text, FS.read_text. by rewrite E.
Qed.

(** What [_save_cron_jobs] does, step by step. *)
Lemma save_cases jobs w ws :
  _workspace w = (Ok ws, w) ->
  let path := ws ++ [".picobot"; "cron_jobs.json"] in
  _save_cron_jobs jobs w
  = match FS.mkdir (FS.parent path) (fs w) with
    | Raise e => (Raise e, w)
    | Ok t1 =>
        match FS.write_text path (dumps jobs (Some 2)) t1 with
        | Raise e => (Raise e, with_fs w t1)
        | Ok t2 => (Ok tt, with_fs w t2)
        end
    end.
Proof.
  intros Hws path. unfold _save_cron_jobs.
  rewrite (bind_ok _ _ _ _ _ (store_path_run _ _ Hws)). fold path.
  unfold bind, mkdir, update_fs.
  destruct (FS.mkdir (FS.parent path) (fs w)) as [t1|e]; [|done].
  unfold write_text, update_fs. cbn [fs with_fs].
  by destruct (FS.write_text path (dumps jobs (Some 2)) t1).
Qed.

(** A store that holds an encoded job list loads as that list. *)
Lemma stored_loads jobs w ws :
  _workspace w = (Ok ws, w) ->
  FS.node_at (ws ++ [".picobot"; "cron_jobs.json"]) (fs w)
  = Some (File (dumps jobs (Some 2))) ->
  plain jobs = true ->
  _load_cron_jobs w = (Ok jobs, w).
Proof.
  intros Hws Hn Hp. rewrite load_cases, Hws. cbn [fst]. rewrite Hn.
  rewrite read_dumps by done.
  by rewrite loads_dumps.
Qed.

(** Where a save ends when it succeeds. *)
Lemma save_ok jobs w w' :
  _save_cron_jobs jobs w = (Ok tt, w') ->
  exists ws t,
    _workspace w = (Ok ws, w)
    /\ w' = with_fs w t
    /\ FS.node_at (ws ++ [".picobot"; "cron_jobs.json"]) t
       = Some (File (dumps jobs (Some 2))).
Proof.
  intros Hsave.
  destruct (fst (_workspace w)) as [ws|e] eqn:Hws.
  2:{ unfold _save_cron_jobs, _cron_store_path in Hsave.
      unfold bind at 1 in Hsave. unfold bind at 1 in Hsave.
      rewrite (workspace_fst w), Hws in Hsave. done. }
  assert (_workspace w = (Ok ws, w)) as Hws' by (by rewrite workspace_fst, Hws).
  rewrite (save_cases jobs w ws Hws') in Hsave.
  destruct (FS.mkdir _ (fs w)) as [t1|e]; [|done].
  destruct (FS.write_text _ _ t1) as [t2|e] eqn:Hw; [|done].
  injection Hsave as <-.
  apply write_text_node_at in Hw. eauto.
Qed.

(** X20: What [_save_cron_jobs] stores, [_load_cron_jobs] gives back, for
    a job list without numbers whose records have distinct keys. *)
Theorem save_then_load :
  forall jobs w w',
    plain jobs = true ->
    _save_cron_jobs jobs w = (Ok tt, w') ->
    _load_cron_jobs w' = (Ok jobs, w').
Proof.
  intros jobs w w' Hp (ws & t & Hws & -> & Hn)%save_ok.
  apply (stored_loads jobs _ ws); [|done..].
  by apply (workspace_moved w).
Qed.

Lemma save_then_load_witness :
  let w := Sample.empty_workspace in
  _load_cron_jobs (snd (_save_cron_jobs (JArr Sample.stored) w))
  = (Ok (JArr Sample.stored), snd (_save_cron_jobs (JArr Sample.stored) w)).
Proof.
  intros w.
  apply (save_then_load (JArr Sample.stored) w); reflexivity.
Defined.



End StoreFacts.

(** ** [cron]: adding, removing, and what is left alone *)

Module CronMoreFacts.
Import PathLib Json Tools CronSpec Aux Notions StrFacts FSFacts Effects TreeFacts
  CronFacts JsonFacts JsonTextFacts StoreFacts.

Lemma load_pure w r w' : _load_cron_jobs w = (r, w') -> w' = w.
Proof.
  rewrite load_cases. destruct (fst (_workspace w)); by intros [= _ <-].
Qed.

Lemma bind_lift {A B} (r : result A) (f : A -> M B) w :
  bind (lift r) f w = match r with Ok a => f a w | Raise e => (Raise e, w) end.
Proof. unfold bind, lift. by destruct r. Qed.


Lemma plain_job id name message schedule created_at :
  plain (JObj [("id", JStr id); ("name", JStr name); ("message", JStr message);
               ("schedule", JStr schedule); ("created_at", JStr created_at)])
  = true.
Proof. reflexivity. Qed.












(** X25: [cron] changes nothing unless it answers that it created or
    removed a job: listing, a refused request and an unknown action leave
    the store, and everything else, as they were. *)
Theorem cron_changes_only_on_success :
  forall action message every_seconds cron_expr at_ job_id w r w',
    cron action message every_seconds cron_expr at_ job_id w = (Ok r, w') ->
    Str.startswith r "Created job" = false ->
    Str.startswith r "Removed job" = false ->
    w' = w.
Proof.
  intros action message every_seconds cron_expr at_ job_id w r w'.
  unfold cron. unfold bind at 1.
  destruct (_load_cron_jobs w) as [[jobs|e] w0] eqn:Hload; [|done].
  apply load_pure in Hload as ->.
  destruct (String.eqb action "list").
  { destruct (negb (Dyn.truthy jobs)); [by intros [= _ <-]|].
    rewrite bind_lift. destruct (Dyn.iterate jobs) as [items|e]; [|done].
    rewrite bind_lift. destruct (job_lines items); [by intros [= _ <-]|done]. }
  destruct (String.eqb action "remove").
  { destruct (negb _); [by intros [= _ <-]|].
    rewrite bind_lift. destruct (Dyn.len jobs) as [before|e]; [|done].
    rewrite bind_lift. destruct (Dyn.iterate jobs) as [items|e]; [|done].
    rewrite bind_lift. destruct (jobs_without _ items) as [kept|e]; [|done].
    destruct (_ =? _)%nat; [by intros [= _ <-]|].
    unfold bind. destruct (_save_cron_jobs _ _) as [[[]|e] w1]; [|done].
    intros [= <- <-] _ H. done. }
  destruct (String.eqb action "add"); [|by intros [= _ <-]].
  destruct (Str.is_empty message); [by intros [= _ <-]|].
  cbv zeta.
  match goal with
  | |- match ?s with Some _ => _ | None => _ end _ = _ -> _ =>
      destruct s as [schedule|]
  end; [|by intros [= _ <-]].
  unfold bind at 1, uuid4_hex. unfold bind at 1, get.
  rewrite bind_lift. destruct (Dyn.append jobs _) as [jobs'|e]; [|done].
  unfold bind. destruct (_save_cron_jobs _ _) as [[[]|e] w1]; [|done].
  intros [= <- <-] H. done.
Qed.

Lemma cron_changes_only_on_success_witness :
  let w := Sample.cron_world in
  snd (cron "list" EmptyString None None None None w) = w
  /\ snd (cron "remove" EmptyString None None None (Some "nobody") w) = w
  /\ snd (cron "pause" EmptyString None None None None w) = w.
Proof.
  intros w.
  pose proof (fun action id r =>
                cron_changes_only_on_success action EmptyString None None None id w
                  r (snd (cron action EmptyString None None None id w))) as H.
  split; [|split].
  - by apply (H "list" None
                ("Scheduled jobs:" +:+ Str.NL
                 +:+ "- stand-up (id: ab12cd34, every:30s)" +:+ Str.NL
                 +:+ "- backup (id: 0f0f0f0f, every:30s)")).
  - by apply (H "remove" (Some "nobody") "Job nobody not found").
  - by apply (H "pause" None "Unknown action: pause").
Defined.

End CronMoreFacts.

(** ** The outbox, the skill tools and the text of a run *)

Module OutboxFacts.
Import PathLib Json Tools Aux Notions StrFacts FSFacts Effects TreeFacts
  JsonFacts JsonTextFacts StoreFacts EditFacts.

(** What a file holds after a store. *)
Lemma store_content keep (p : abspath) (data : string) (n n' : node) :
  FS.store keep p data n = Ok n' ->
  FS.node_at p n'
  = Some (File (match FS.node_at p n with
                | Some (File old) => keep old
                | _ => EmptyString
                end +:+ data)).
Proof.
  unfold FS.store. destruct (FS.node_at p n) as [[old|es]|] eqn:E; [|done|].
  - intros [= <-]. apply node_at_set_at. left. eauto.
  - destruct (FS.node_at (FS.parent p) n) as [[d|es]|] eqn:E'; try done.
    intros [= <-]. apply node_at_set_at. right. eauto.
Qed.

(** X26: When [message] returns, the outbox log holds what it held before
    followed by one new line; the line has no newline inside, and it is
    the JSON text of the record with the time, the channel, the chat id
    and the content, which [json.loads] gives back.  Every other file is
    left as it was. *)
Theorem message_appends_line :
  forall content channel chat_id w r w',
    message content channel chat_id w = (Ok r, w') ->
    exists ws line,
      let outbox := ws ++ ["messages"; "outbox.log"] in
      let previous := match FS.node_at outbox (fs w) with
                      | Some (File old) => old
                      | _ => EmptyString
                      end in
      _workspace w = (Ok ws, w)
      /\ r = "Message recorded to " +:+ str_path outbox
      /\ FS.node_at outbox (fs w') = Some (File (previous +:+ line +:+ Str.NL))
      /\ Str.contains line Str.NL = false
      /\ loads line
         = Some (JObj [("timestamp", JStr (now w)); ("channel", JStr channel);
                       ("chat_id", JStr chat_id); ("content", JStr content)])
      /\ forall q d,
          q <> outbox -> FS.node_at q (fs w) = Some (File d) ->
          FS.node_at q (fs w') = Some (File d).
Proof.
  intros content channel chat_id w r w'. unfold message.
  unfold bind at 1. rewrite (workspace_fst w).
  destruct (fst (_workspace w)) as [ws|e]; [|done].
  set (outbox := ws ++ ["messages"; "outbox.log"]).
  assert (FS.parent outbox = ws ++ ["messages"]) as Hparent.
  { unfold outbox, FS.parent.
    change (ws ++ ["messages"; "outbox.log"]) with (ws ++ ["messages"] ++ ["outbox.log"]).
    rewrite List.app_assoc. apply removelast_last. }
  assert (outbox = (ws ++ ["messages"]) ++ ["outbox.log"]) as Houtbox.
  { unfold outbox. by rewrite <- List.app_assoc. }
  unfold bind at 1, mkdir, update_fs. rewrite Hparent.
  destruct (FS.mkdir (ws ++ ["messages"]) (fs w)) as [t1|e] eqn:Hm; [|done].
  unfold bind at 1, get. cbn [now with_fs].
  set (record := JObj _). set (line := dumps record None).
  unfold bind, append_text, update_fs. cbn [fs with_fs].
  destruct (FS.append_text outbox (line +:+ Str.NL) t1) as [t2|e] eqn:Ha; [|done].
  intros [= <- <-]. exists ws, line. cbv zeta. fold outbox. cbn [fs with_fs].
  split; [done|]. split; [done|].
  unfold FS.mkdir in Hm.
  split; [|split; [|split]].
  - rewrite (store_content _ _ _ _ _ Ha).
    rewrite Houtbox, (mkdir_go_child _ _ "outbox.log" _ _ Hm), <- Houtbox.
    by destruct (FS.node_at outbox (fs w)) as [[old|es]|].
  - change Str.NL with (Str.of_char Char.NL). rewrite has_contains.
    by apply dumps_one_line.
  - by apply loads_dumps.
  - intros q d Hq Hn.
    eapply store_frame; [exact Ha| |done].
    by eapply mkdir_go_frame.
Qed.

Lemma message_appends_line_witness :
  let w := Sample.world
             (Dir [("work", Dir [("messages", Dir [("outbox.log", File "earlier")])])]) in
  let w' := snd (message "hi" "local" "default" w) in
  exists line,
    FS.node_at ["work"; "messages"; "outbox.log"] (fs w')
    = Some (File ("earlier" +:+ line +:+ Str.NL))
    /\ Str.contains line Str.NL = false.
Proof.
  intros w w'.
  destruct (message_appends_line "hi" "local" "default" w
              "Message recorded to /work/messages/outbox.log" w' eq_refl)
    as (ws & line & Hws & _ & Hn & Hnl & _).
  injection Hws as <-. by exists line.
Defined.

End OutboxFacts.

Module SkillToolFacts.
Import PathLib Json Skills Aux Notions StrFacts FSFacts Effects SkillFacts
  JsonFacts ReadListedFacts.

Lemma plain_records (items : list SkillInfo) :
  plain (JArr (skill_record <$> items)) = true.
Proof.
  cbn [plain]. induction items as [|i items IH]; [done|].
  rewrite fmap_cons. cbn [forallb]. by rewrite IH.
Qed.

(** X27: The text that the tool [list_skills] returns is JSON that decodes
    to one record for every skill the registry lists, in the same order,
    each with the name, the description, the source and the location of
    the skill; the tool changes nothing. *)
Theorem list_skills_tool_decodes :
  forall package_dir w output w',
    list_skills_tool package_dir w = (Ok output, w') ->
    exists self items,
      get_registry package_dir w = (Ok self, w)
      /\ list_skills self w = (Ok items, w)
      /\ loads output = Some (JArr (skill_record <$> items))
      /\ w' = w.
Proof.
  intros package_dir w output w'. unfold list_skills_tool.
  unfold bind at 1.
  destruct (get_registry package_dir w) as [[self|e] w0] eqn:Hreg; [|done].
  destruct (get_registry_dirs _ _ _ _ Hreg) as (-> & _).
  destruct (list_skills_total self w) as [items Hlist].
  rewrite (bind_ok _ _ _ _ _ Hlist). intros [= <- <-].
  exists self, items. split; [done|]. split; [done|]. split; [|done].
  apply loads_dumps, plain_records.
Qed.

Lemma list_skills_tool_decodes_witness :
  let w := Sample.skills_world in
  exists items,
    list_skills Sample.registry w = (Ok items, w)
    /\ loads (match fst (list_skills_tool ["opt"] w) with
              | Ok output => output
              | Raise _ => EmptyString
              end)
       = Some (JArr (skill_record <$> items)).
Proof.
  intros w.
  destruct (list_skills_tool ["opt"] w) as [[output|e] w'] eqn:E; [|done].
  destruct (list_skills_tool_decodes ["opt"] w output w' E)
    as (self & items & Hreg & Hlist & Hloads & _).
  injection Hreg as <-. by exists items.
Defined.

End SkillToolFacts.

Module CliFacts.
Import Cli Aux StrFacts.

Lemma lstrip_idem f s : Str.lstrip_with f (Str.lstrip_with f s) = Str.lstrip_with f s.
Proof.
  induction s as [|c s IH]; [done|]. cbn [Str.lstrip_with].
  destruct (f c) eqn:E; [done|]. cbn [Str.lstrip_with]. by rewrite E.
Qed.

Lemma rstrip_idem f s : Str.rstrip_with f (Str.rstrip_with f s) = Str.rstrip_with f s.
Proof.
  induction s as [|c s IH]; [done|]. cbn [Str.rstrip_with].
  destruct (f c && Str.is_empty (Str.rstrip_with f s)) eqn:E; [done|].
  cbn [Str.rstrip_with]. by rewrite IH, E.
Qed.

Lemma lstrip_len f s :
  String.length (Str.lstrip_with f s) <= String.length s.
Proof.
  induction s as [|c s IH]; [done|]. cbn [Str.lstrip_with].
  destruct (f c); simpl; lia.
Qed.

Lemma lstrip_rstrip f s :
  Str.lstrip_with f s = s ->
  Str.lstrip_with f (Str.rstrip_with f s) = Str.rstrip_with f s.
Proof.
  destruct s as [|c s]; [done|]. cbn [Str.lstrip_with Str.rstrip_with].
  destruct (f c) eqn:E.
  - intros H. exfalso. pose proof (lstrip_len f s) as Hlen.
    rewrite H in Hlen. simpl in Hlen. lia.
  - intros _. cbn [andb]. cbn [Str.lstrip_with]. by rewrite E.
Qed.

Lemma strip_idem s : Str.strip (Str.strip s) = Str.strip s.
Proof.
  unfold Str.strip, Str.strip_with.
  rewrite lstrip_rstrip by apply lstrip_idem. apply rstrip_idem.
Qed.

Lemma final_text_snoc events e :
  final_text (events ++ [e])
  = if negb (Str.is_empty (_extract_text e)) then _extract_text e
    else final_text events.
Proof. unfold final_text. by rewrite fold_left_app. Qed.

(** X28: The text [_extract_text] takes from an event has no white space
    around it, and the final text of a run is the text of the last event
    that has one: it is empty exactly when no event has a text, and then
    [(no response)] is printed. *)
Theorem final_text_is_last_text :
  (forall content, Str.strip (_extract_text content) = _extract_text content)
  /\ (forall events,
        final_text events = EmptyString
        <-> Forall (fun e => _extract_text e = EmptyString) events)
  /\ (forall before e after,
        _extract_text e <> EmptyString ->
        Forall (fun x => _extract_text x = EmptyString) after ->
        final_text (before ++ e :: after) = _extract_text e
        /\ printed (final_text (before ++ e :: after)) = _extract_text e)
  /\ (forall events,
        Forall (fun e => _extract_text e = EmptyString) events ->
        printed (final_text events) = "(no response)").
Proof.
  assert (forall events,
            final_text events = EmptyString
            <-> Forall (fun e => _extract_text e = EmptyString) events) as Hempty.
  { induction events as [|e events IH] using rev_ind; [done|].
    rewrite final_text_snoc, Forall_app, Forall_singleton, <- IH.
    destruct (_extract_text e) eqn:E; cbn [Str.is_empty negb]; [tauto|].
    split; [done|]. by intros [_ ?]. }
  split; [|split; [exact Hempty|split]].
  3:{ intros events H. apply Hempty in H. by rewrite H. }
  - intros [[[[|p ps]|]]|]; try done. apply strip_idem.
  - intros before e after He Hafter.
    assert (final_text (before ++ e :: after) = _extract_text e) as H.
    { revert Hafter. induction after as [|x after IH] using rev_ind; intros Hafter.
      - rewrite final_text_snoc. by destruct (_extract_text e).
      - apply Forall_app in Hafter as [Hafter Hx].
        apply (proj1 (Forall_singleton _ _)) in Hx.
        change (before ++ e :: after ++ [x]) with (before ++ (e :: after) ++ [x]).
        rewrite List.app_assoc, final_text_snoc, Hx. by apply IH. }
    split; [done|]. rewrite H. unfold printed. by destruct (_extract_text e).
Qed.

End CliFacts.

(** ** The description in the front matter *)

Module FrontMatterFacts.
Import Skills Aux Notions StrFacts FSFacts Effects SkillFacts JsonFacts EditFacts.

Lemma split_go_rest sep (s : string) :
  forall cur, Str.split_go sep (Some 0) cur s = [String.rev cur +:+ s].
Proof.
  induction s as [|a s IH]; intros cur.
  - cbn [Str.split_go]. by rewrite str_app_nil_r.
  - cbn [Str.split_go Str.spent negb andb]. by rewrite IH, rev_cons.
Qed.

(** Splitting goes line by line. *)
Lemma split_go_line sep (l : string) :
  has sep l = false ->
  forall cur,
    Str.split_go sep None cur l = [String.rev cur +:+ l]
    /\ forall rest,
        Str.split_go sep None cur (l +:+ String sep rest)
        = (String.rev cur +:+ l) :: Str.split_go sep None EmptyString rest.
Proof.
  induction l as [|a l IH]; cbn [has]; intros H cur.
  - split; [cbn [Str.split_go]; by rewrite str_app_nil_r|].
    intros rest. rewrite str_app_nil_l, str_app_nil_r.
    cbn [Str.split_go Str.spent negb andb]. by rewrite Ascii.eqb_refl.
  - apply orb_false_iff in H as [Ha H]. destruct (IH H (String a cur)) as [IH1 IH2].
    split.
    + cbn [Str.split_go Str.spent negb andb]. by rewrite Ha, IH1, rev_cons.
    + intros rest. rewrite str_app_cons.
      cbn [Str.split_go Str.spent negb andb]. by rewrite Ha, IH2, rev_cons.
Qed.

(** Splitting the lines joined gives the lines. *)
Lemma split_join (lines : list string) :
  lines <> [] -> Forall (fun l => has Char.NL l = false) lines ->
  Str.split (Str.join Str.NL lines) Char.NL None = lines.
Proof.
  intros Hne Hlines. unfold Str.split.
  induction Hlines as [|l lines Hl Hlines IH]; [done|].
  destruct lines as [|l2 lines].
  - cbn [Str.join]. by rewrite (proj1 (split_go_line _ _ Hl EmptyString)).
  - change (Str.join Str.NL (l :: l2 :: lines))
      with (l +:+ String Char.NL (Str.join Str.NL (l2 :: lines))).
    rewrite (proj2 (split_go_line _ _ Hl EmptyString)). by rewrite IH.
Qed.

Lemma rstrip_cons_solid f (c : ascii) (s : string) :
  f c = false -> Str.rstrip_with f (String c s) = String c (Str.rstrip_with f s).
Proof. intros H. cbn [Str.rstrip_with]. by rewrite H. Qed.

Lemma startswith_mark (t : string) (rest : string) :
  Str.startswith (String Char.NL t +:+ rest) (String Char.NL t) = true.
Proof.
  rewrite str_app_cons. cbn [Str.startswith]. rewrite Ascii.eqb_refl.
  induction t as [|x t IH]; [done|].
  rewrite str_app_cons. cbn [Str.startswith]. by rewrite Ascii.eqb_refl.
Qed.

Lemma before_first_line (a t rest : string) :
  has Char.NL a = false ->
  before_first (String Char.NL t) (a +:+ String Char.NL t +:+ rest) = Some a.
Proof.
  induction a as [|c a IH]; cbn [has]; intros H.
  - rewrite str_app_nil_l. pose proof (startswith_mark t rest) as E.
    destruct (String Char.NL t +:+ rest) eqn:E'; cbn [before_first]; by rewrite E.
  - apply orb_false_iff in H as [Hc H]. rewrite str_app_cons.
    cbn [before_first Str.startswith].
    rewrite Ascii.eqb_sym, Hc. cbn [andb]. by rewrite IH.
Qed.

(** A line that is not the closing mark is passed over. *)
Lemma before_first_next (a t y found : string) :
  has Char.NL a = false ->
  Str.startswith y t = false ->
  before_first (String Char.NL t) y = Some found ->
  before_first (String Char.NL t) (a +:+ String Char.NL y)
  = Some (a +:+ String Char.NL found).
Proof.
  intros Ha Hy Hfound. induction a as [|c a IH]; cbn [has] in Ha.
  - rewrite !str_app_nil_l. cbn [before_first Str.startswith].
    by rewrite Ascii.eqb_refl, Hy, Hfound.
  - apply orb_false_iff in Ha as [Hc Ha]. rewrite !str_app_cons.
    cbn [before_first Str.startswith].
    rewrite Ascii.eqb_sym, Hc. cbn [andb]. by rewrite IH.
Qed.

Lemma startswith_dashes (l z : string) :
  has Char.NL l = false -> Str.startswith l "---" = false ->
  Str.startswith (l +:+ String Char.NL z) "---" = false.
Proof.
  destruct l as [|a [|b [|c l]]]; cbn [has]; intros Hnl H.
  - done.
  - rewrite str_app_cons, str_app_nil_l. cbn [Str.startswith].
    destruct (Ascii.eqb "-" a); [|done]. done.
  - rewrite !str_app_cons, str_app_nil_l. cbn [Str.startswith].
    destruct (Ascii.eqb "-" a); [|done]. destruct (Ascii.eqb "-" b); [|done]. done.
  - rewrite !str_app_cons. cbn [Str.startswith] in *.
    destruct (Ascii.eqb "-" a); [|done]. destruct (Ascii.eqb "-" b); [|done].
    destruct (Ascii.eqb "-" c); [|done]. done.
Qed.

(** The front matter is what stands between the opening mark and the
    first line that begins with the closing one. *)
Lemma before_first_block (lines : list string) (rest : string) :
  lines <> [] ->
  Forall (fun l => has Char.NL l = false) lines ->
  Forall (fun l => Str.startswith l "---" = false) lines ->
  before_first (String Char.NL "---")
    (Str.join Str.NL lines +:+ String Char.NL "---" +:+ rest)
  = Some (Str.join Str.NL lines).
Proof.
  intros Hne Hnl. induction Hnl as [|l lines Hl Hlines IH]; [done|].
  intros [Hd Hds]%Forall_cons. destruct lines as [|l2 lines].
  - cbn [Str.join]. by apply before_first_line.
  - change (Str.join Str.NL (l :: l2 :: lines))
      with (l +:+ String Char.NL (Str.join Str.NL (l2 :: lines))).
    rewrite str_app_assoc, str_app_cons.
    apply before_first_next; [done| |by apply IH].
    apply Forall_cons in Hds as [Hd2 _]. apply Forall_cons in Hlines as [Hl2 _].
    destruct lines as [|l3 lines].
    + cbn [Str.join]. by apply startswith_dashes.
    + change (Str.join Str.NL (l2 :: l3 :: lines))
        with (l2 +:+ String Char.NL (Str.join Str.NL (l3 :: lines))).
      rewrite str_app_assoc, str_app_cons. by apply startswith_dashes.
Qed.

Lemma description_of_skip (before : list string) (lines : list string) :
  Forall (fun l => Str.startswith (Str.strip l) "description:" = false) before ->
  description_of (before ++ lines) = description_of lines.
Proof.
  induction 1 as [|l before Hl Hbefore IH]; [done|].
  cbn [app description_of]. by rewrite Hl.
Qed.

Lemma description_of_line (value : string) (after : list string) :
  description_of (("description:" +:+ value) :: after)
  = Ok (Some (Str.strip_with is_quote (Str.strip value))).
Proof.
  cbn [description_of].
  assert (Str.startswith (Str.strip ("description:" +:+ value)) "description:" = true)
    as ->.
  { unfold Str.strip, Str.strip_with.
    change (Str.lstrip_with Char.isspace ("description:" +:+ value))
      with ("description:" +:+ value).
    rewrite !str_app_cons, str_app_nil_l.
    by rewrite !rstrip_cons_solid by reflexivity. }
  cbn [negb]. unfold Str.split.
  change (Str.split_go ":" (Some 1) EmptyString ("description:" +:+ value))
    with ("description" :: Str.split_go ":" (Some 0) EmptyString value).
  by rewrite split_go_rest.
Qed.

(** X29: [_extract_description] reads the description from the front
    matter of the manifest, the lines between the opening [---] and the
    first line that begins with [---]: it gives the value of the first
    line that begins with [description:], stripped of white space and
    then of quotes.  For a manifest that does not begin with [---] it
    gives nothing, and the name of the skill stands in. *)
Theorem extract_description_front_matter :
  forall skill_file w data,
    FS.node_at skill_file (fs w) = Some (File data) ->
    let content := FS.universal_newlines data in
    (Str.startswith content "---" = false ->
     _extract_description skill_file w = (Ok None, w))
    /\ (forall before value after rest,
          let lines := before ++ ("description:" +:+ value) :: after in
          Forall (fun l => Str.contains l Str.NL = false) lines ->
          Forall (fun l => Str.startswith l "---" = false) lines ->
          Forall (fun l => Str.startswith (Str.strip l) "description:" = false)
            before ->
          content = "---" +:+ Str.NL +:+ Str.join Str.NL lines
                    +:+ Str.NL +:+ "---" +:+ rest ->
          _extract_description skill_file w
          = (Ok (Some (Str.strip_with is_quote (Str.strip value))), w)).
Proof.
  intros skill_file w data Hn content.
  unfold _extract_description, bind, read_text, FS.read_text. rewrite Hn.
  fold content. split.
  - by intros ->.
  - intros before value following rest.
    set (lines := before ++ ("description:" +:+ value) :: following).
    intros Hnl Hdash Hbefore Hc. rewrite !Hc.
    assert (Forall (fun l => has Char.NL l = false) lines) as Hnl'.
    { eapply Forall_impl; [exact Hnl|]. intros l H.
      rewrite <- (has_contains Char.NL l). exact H. }
    assert (lines <> []) as Hne by (unfold lines; by destruct before).
    change (Str.startswith _ "---") with true. cbn [negb].
    assert (front_matter ("---" +:+ Str.NL +:+ Str.join Str.NL lines
                          +:+ Str.NL +:+ "---" +:+ rest)
            = Some (Str.join Str.NL lines)) as ->.
    { unfold front_matter.
      change (Str.startswith _ ("---" +:+ Str.NL)) with true. cbn iota.
      change (Str.drop _ _)
        with (Str.join Str.NL lines +:+ Str.NL +:+ "---" +:+ rest).
      change (Str.NL +:+ "---") with (String Char.NL "---").
      change (Str.join Str.NL lines +:+ Str.NL +:+ "---" +:+ rest)
        with (Str.join Str.NL lines +:+ String Char.NL "---" +:+ rest).
      by apply before_first_block. }
    rewrite split_join by done. unfold lines.
    by rewrite description_of_skip, description_of_line.
Qed.

Lemma extract_description_front_matter_witness :
  let w := Sample.skills_world in
  _extract_description ["work"; "skills"; "foo"; "SKILL.md"] w
  = (Ok (Some "Q&A <fast>"), w)
  /\ _extract_description ["opt"; "skills"; "Bar"; "SKILL.md"] w = (Ok None, w).
Proof.
  intros w. split.
  - apply (proj2 (extract_description_front_matter
                    ["work"; "skills"; "foo"; "SKILL.md"] w Sample.manifest eq_refl)
             [] (" " +:+ Str.DQ +:+ "Q&A <fast>" +:+ Str.DQ) []
             (Str.NL +:+ "# Foo" +:+ Str.NL));
      [by repeat constructor..|reflexivity].
  - apply (proj1 (extract_description_front_matter
                    ["opt"; "skills"; "Bar"; "SKILL.md"] w "# bar" eq_refl)).
    reflexivity.
Defined.

End FrontMatterFacts.
